(** * AnalyzeProtein: a shallow embedding of [AnalyzeProtein.c]

    The program reads PDB files, keeps the coordinates of every [ATOM]
    record of a file in a fixed array of single-precision floats, and prints
    the centre of gravity, the radius of gyration and the largest distance
    between two atoms.

    The embedding follows the C source function by function:
    - [float] is IEEE-754 binary32, computed by the executable specification
      of the Standard Library ([SpecFloat], precision 24, emax 128); the
      calls to [sqrt] go through binary64 as they do in C; a NaN has no
      sign and no payload;
    - [int atomCounter] counts up from 0 by steps of 1 and is a [nat];
    - character buffers are lists of [ascii] read up to the first NUL;
    - [fileAtoms] is a list of rows, indexed with stdpp's lookup and insert,
      an index outside the array being undefined behaviour;
    - a file is the list of its characters, read by [fgets] in pieces of at
      most [MAX_LINE - 1] characters;
    - [printf], [exit] and undefined behaviour are the effects of a small
      monad that logs what is printed;
    - [strtof], of the C library, is a parameter of the program; a model of
      it is given to run the program on sample files.

    The first part holds the definitions: the program, then the formulas of
    the specification and the notions used to state the properties. The
    second part holds the properties: the lemmas about the functions, the
    theorems that settle the claims C1 to C10 made about the program, and
    further properties of the program, X1 to X16. *)

From Stdlib Require Import ZArith QArith Lia Bool Ascii String.
From Stdlib Require Import Floats.SpecFloat.
From stdpp Require Import base list strings gmap.

Local Open Scope Z_scope.

(** ** Constants of the source *)

Definition MAX_ATOMS : nat := 20000.
Definition MAX_LINE : nat := 80.
Definition COORDINATES : nat := 3.
Definition END_OF_STRING : ascii := "000"%char.
Definition LINE_STARTER : list ascii := list_ascii_of_string "ATOM  ".
Definition LINE_STARTER_LEN : nat := 6.
Definition COORDINATE_LEN : nat := 8.
Definition MIN_LINE_LEN : nat := 60.
Definition MIN_ARGS : nat := 2.
Definition EXIT_FAILURE : Z := 1.
Definition ERANGE : Z := 34.

(** ** Floating point

    [float] is binary32 and [double] binary64; both are carried by
    [spec_float], whose operations round to nearest, ties to even. Every
    operation on [float] operands is rounded to binary32 (the evaluation
    method of SSE arithmetic). *)

Definition float : Type := spec_float.

Module F32.
Definition prec : Z := 24.
Definition emax : Z := 128.
Definition zero : float := S754_zero false.
Definition add : float -> float -> float := SFadd prec emax.
Definition sub : float -> float -> float := SFsub prec emax.
Definition mul : float -> float -> float := SFmul prec emax.
Definition div : float -> float -> float := SFdiv prec emax.
Definition ltb : float -> float -> bool := SFltb.
Definition eqb : float -> float -> bool := SFeqb.
(** conversion of an [int] to [float] *)
Definition of_int (n : Z) : float := binary_normalize prec emax n 0 false.
(** a rational [m * 2^e] rounded to binary32 *)
Definition round (m e : Z) : float := binary_normalize prec emax m e false.
End F32.

Module F64.
Definition prec : Z := 53.
Definition emax : Z := 1024.
Definition sqrt : float -> float := SFsqrt prec emax.
(** promotion of a [float] to [double]: exact *)
Definition of_f32 (x : float) : float :=
  match x with
  | S754_finite s m e => binary_normalize prec emax (cond_Zopp s (Zpos m)) e s
  | _ => x
  end.
(** conversion of a [double] to [float]: rounds *)
Definition to_f32 (x : float) : float :=
  match x with
  | S754_finite s m e => binary_normalize F32.prec F32.emax (cond_Zopp s (Zpos m)) e s
  | _ => x
  end.
End F64.

(** [sqrt] of math.h applied to a [float] and assigned to a [float]: the
    argument is promoted to [double], the root is taken in [double] and the
    assignment converts back. *)
Definition c_sqrt (x : float) : float := F64.to_f32 (F64.sqrt (F64.of_f32 x)).

Definition is_nan (x : float) : bool :=
  match x with S754_nan => true | _ => false end.

(** Positive zero, positive numbers and positive infinity. *)
Definition nonneg (x : float) : bool :=
  match x with
  | S754_zero false | S754_infinity false | S754_finite false _ _ => true
  | _ => false
  end.

Definition is_zero (x : float) : bool :=
  match x with S754_zero _ => true | _ => false end.

Definition is_finite (x : float) : bool :=
  match x with S754_zero _ | S754_finite _ _ _ => true | _ => false end.

Definition nonneg_or_nan (x : float) : bool := nonneg x || is_nan x.

(** A positive number, neither zero nor infinite. *)
Definition positive_finite (x : float) : bool :=
  match x with S754_finite false _ _ => true | _ => false end.

(** ** C strings *)

Definition code (c : ascii) : Z := Z.of_nat (nat_of_ascii c).

(** The string held by a buffer: its characters before the first NUL. *)
Fixpoint c_str (buf : list ascii) : list ascii :=
  match buf with
  | [] => []
  | c :: rest => if Ascii.eqb c END_OF_STRING then [] else c :: c_str rest
  end.

Definition strlen (buf : list ascii) : nat := length (c_str buf).

(** [strncmp]: the difference of the first characters that differ among the
    first [n], 0 when there is none before a NUL. The end of a list reads
    as NUL. *)
Fixpoint strncmp (s1 s2 : list ascii) (n : nat) : Z :=
  match n with
  | O => 0
  | S n' =>
      let c1 := hd END_OF_STRING s1 in
      let c2 := hd END_OF_STRING s2 in
      if Ascii.eqb c1 c2
      then if Ascii.eqb c1 END_OF_STRING then 0 else strncmp (tl s1) (tl s2) n'
      else code c1 - code c2
  end.

(** [memcpy (dst, src + off, len)]: the [len] bytes of [src] from [off]. *)
Definition memcpy_from (src : list ascii) (off len : nat) : list ascii :=
  take len (drop off src).

(** ** [startsWith] *)

Definition startsWith (line : list ascii) : Z :=
  if strncmp line LINE_STARTER LINE_STARTER_LEN =? 0 then 1 else 0.

(** ** [strtof]

    [strtof] belongs to the C library, not to the program. [getFloat] and
    everything above it take it as a parameter returning what the program
    observes: the value, how far [end] is from [input], and [errno].
    [strtof_c99] below is the instance used to run the program on concrete
    files; it follows the description of the C standard (7.22.1.3) in the C
    locale: white space, a sign, then a decimal or hexadecimal number with
    an optional exponent, [inf], [infinity] or [nan] in any case (the
    characters in parentheses that may follow [nan] are not read), rounded
    to nearest; with the range errors of glibc: [ERANGE] when a nonzero
    number rounds to zero or a finite one to infinity. *)

Record strtof_result : Type := mk_strtof_result {
  sr_value : float;      (* the returned float *)
  sr_consumed : nat;     (* end - input *)
  sr_errno : Z           (* errno after the call, 0 when untouched *)
}.

Definition isspace (c : ascii) : bool :=
  (code c =? 32) || ((9 <=? code c) && (code c <=? 13)).

Definition tolower (c : ascii) : ascii :=
  if (65 <=? code c) && (code c <=? 90)
  then ascii_of_nat (nat_of_ascii c + 32) else c.

Definition digit_val (base : Z) (c : ascii) : option Z :=
  let n := code c in
  if (48 <=? n) && (n <=? 57) then Some (n - 48)
  else if (base =? 16) && (97 <=? n) && (n <=? 102) then Some (n - 87)
  else if (base =? 16) && (65 <=? n) && (n <=? 70) then Some (n - 55)
  else None.

Fixpoint skip_spaces (s : list ascii) : nat :=
  match s with
  | c :: rest => if isspace c then S (skip_spaces rest) else O
  | [] => O
  end.

(** A run of digits: its value on top of [acc], its length, what follows. *)
Fixpoint digits (base : Z) (s : list ascii) (acc : Z) : Z * nat * list ascii :=
  match s with
  | c :: rest =>
      match digit_val base c with
      | Some d => let '(v, k, r) := digits base rest (acc * base + d) in (v, S k, r)
      | None => (acc, O, s)
      end
  | [] => (acc, O, [])
  end.

Definition read_sign (s : list ascii) : bool * nat * list ascii :=
  match s with
  | c :: rest =>
      if Ascii.eqb c "-"%char then (true, 1%nat, rest)
      else if Ascii.eqb c "+"%char then (false, 1%nat, rest)
      else (false, O, s)
  | [] => (false, O, [])
  end.

Fixpoint prefix_ci (p s : list ascii) : bool :=
  match p, s with
  | [], _ => true
  | a :: p', b :: s' => Ascii.eqb a (tolower b) && prefix_ci p' s'
  | _ :: _, [] => false
  end.

(** Digits with an optional radix point: mantissa, digits after the point,
    characters read (0 when there is no digit), what follows. *)
Definition read_mantissa (base : Z) (s : list ascii) : Z * nat * nat * list ascii :=
  let '(m1, k1, r1) := digits base s 0 in
  match r1 with
  | c :: r1' =>
      if Ascii.eqb c "."%char then
        let '(m2, k2, r2) := digits base r1' m1 in
        match (k1 + k2)%nat with
        | O => (0, O, O, s)
        | _ => (m2, k2, (k1 + 1 + k2)%nat, r2)
        end
      else (m1, O, k1, r1)
  | [] => (m1, O, k1, r1)
  end.

(** An exponent part introduced by [mark]: its value and length, both 0
    when no digit follows. *)
Definition read_exponent (mark : ascii) (s : list ascii) : Z * nat :=
  match s with
  | c :: r =>
      if Ascii.eqb (tolower c) mark then
        let '(neg, ks, r') := read_sign r in
        let '(v, k, _) := digits 10 r' 0 in
        match k with
        | O => (0, O)
        | _ => (cond_Zopp neg v, (1 + ks + k)%nat)
        end
      else (0, O)
  | [] => (0, O)
  end.

(** [m * 10^e10] rounded to binary32. From [10^39] on the number is beyond
    the largest float, and below [2^-150] it is nearer to zero than to the
    smallest one, which settles the extreme exponents without computing the
    power. A negative exponent is a division: the quotient is taken with 27
    extra bits and a sticky bit, so that one rounding decides. *)
Definition dec_to_f32 (neg : bool) (m e10 : Z) : float :=
  if m =? 0 then S754_zero neg
  else if 39 <=? e10 then S754_infinity neg
  else if Z.log2 m + 1 + 3 * e10 <=? -150 then S754_zero neg
  else if 0 <=? e10 then F32.round (cond_Zopp neg (m * 10 ^ e10)) 0
  else
    let d := 10 ^ (- e10) in
    let s := Z.log2_up d + 27 in
    let q := (m * 2 ^ s) / d in
    let sticky := if (m * 2 ^ s) mod d =? 0 then 0 else 1 in
    F32.round (cond_Zopp neg (2 * q + sticky)) (- s - 1).

Definition hex_to_f32 (neg : bool) (m e2 : Z) : float :=
  if m =? 0 then S754_zero neg else F32.round (cond_Zopp neg m) e2.

Definition range_errno (m : Z) (x : float) : Z :=
  match x with
  | S754_zero _ => if m =? 0 then 0 else ERANGE
  | S754_infinity _ => ERANGE
  | _ => 0
  end.

Definition strtof_number (base : Z) (mark : ascii) (neg : bool)
    (skipped : nat) (s : list ascii) : option strtof_result :=
  let '(m, frac, k, rest) := read_mantissa base s in
  match k with
  | O => None
  | _ =>
      let '(e, ke) := read_exponent mark rest in
      let x := if base =? 16 then hex_to_f32 neg m (e - 4 * Z.of_nat frac)
               else dec_to_f32 neg m (e - Z.of_nat frac) in
      Some (mk_strtof_result x (skipped + k + ke)%nat (range_errno m x))
  end.

Definition strtof_c99 (input : list ascii) : strtof_result :=
  let ws := skip_spaces (c_str input) in
  let '(neg, ks, s) := read_sign (drop ws (c_str input)) in
  let n := (ws + ks)%nat in
  if prefix_ci (list_ascii_of_string "infinity") s
  then mk_strtof_result (S754_infinity neg) (n + 8)%nat 0
  else if prefix_ci (list_ascii_of_string "inf") s
  then mk_strtof_result (S754_infinity neg) (n + 3)%nat 0
  else if prefix_ci (list_ascii_of_string "nan") s
  then mk_strtof_result S754_nan (n + 3)%nat 0
  else
    let hex :=
      if prefix_ci (list_ascii_of_string "0x") s
      then strtof_number 16 "p"%char neg (n + 2)%nat (drop 2 s)
      else None in
    match hex with
    | Some r => r
    | None =>
        match strtof_number 10 "e"%char neg n s with
        | Some r => r
        | None => mk_strtof_result F32.zero O 0
        end
    end.

(** ** What the program prints, and how it can end

    Each call to [printf] or [fprintf] is logged with its arguments: the
    format strings are fixed text around them. *)

Inductive event : Type :=
| PrintUsage                                  (* "Usage: AnalyzeProtein <pdb1> <pdb2>" *)
| PrintOpenError (name : string)              (* "Error opening file: %s" *)
| PrintTooShort (len : nat)                   (* "ATOM line is too short %lu characters" *)
| PrintZeroAtoms (name : string)              (* "Error - 0 atoms were found in the file %s" *)
| PrintHeader (name : string) (atoms : nat)   (* "PDB file %s, %d atoms were read\n" *)
| PrintCg (x y z : float)                     (* "Cg = %.3f %.3f %.3f\n" *)
| PrintRg (r : float)                         (* "Rg = %.3f\n" *)
| PrintDmax (d : float)                       (* "Dmax = %.3f\n" *)
| PrintConversionError (input : list ascii).  (* stderr: "Error in coordinate conversion %s" *)

(** A computation returns, leaves the process through [exit], reads or
    writes outside an array, or is cut short by the fuel of the loop that
    reads lines (which never happens, see [process_file_fuel]). *)
Inductive result (A : Type) : Type :=
| Ok (a : A)
| Exit (status : Z)
| Undefined
| OutOfFuel.
Arguments Ok {A} a.
Arguments Exit {A} status.
Arguments Undefined {A}.
Arguments OutOfFuel {A}.

Definition M (A : Type) : Type := list event * result A.

Definition ret {A} (a : A) : M A := ([], Ok a).

Definition bind {A B} (m : M A) (f : A -> M B) : M B :=
  match m with
  | (log, Ok a) => let '(log', r) := f a in (log ++ log', r)
  | (log, Exit s) => (log, Exit s)
  | (log, Undefined) => (log, Undefined)
  | (log, OutOfFuel) => (log, OutOfFuel)
  end.

Definition printf (e : event) : M unit := ([e], Ok tt).
Definition exit {A} (status : Z) : M A := ([], Exit status).
(** [return status;] in [main]: a return from [main] is a call to [exit]
    with the value returned (C11, 5.1.2.2.3). *)
Definition return_from_main {A} (status : Z) : M A := exit status.
Definition undefined {A} : M A := ([], Undefined).

Declare Scope prog_scope.
Delimit Scope prog_scope with prog.
Notation "x <- c1 ;; c2" := (bind c1 (fun x => c2))
  (at level 100, c1 at next level, right associativity) : prog_scope.
Notation "c1 ;; c2" := (bind c1 (fun _ => c2))
  (at level 100, right associativity) : prog_scope.
Local Open Scope prog_scope.

(** [for (int i = lo; i < lo + count; i++) s = body i s]. *)
Fixpoint for_loop {S : Type} (count i : nat) (body : nat -> S -> M S) (s : S) : M S :=
  match count with
  | O => ret s
  | Datatypes.S count' => s' <- body i s ;; for_loop count' (Datatypes.S i) body s'
  end.

(** ** The atom array

    [float fileAtoms[MAX_ATOMS][COORDINATES]]: a list of [MAX_ATOMS] rows.
    An access at a row outside the list is undefined behaviour. *)

Definition row : Type := float * float * float.

Definition row_get (k : nat) (r : row) : float :=
  match k with
  | O => r.1.1
  | 1%nat => r.1.2
  | _ => r.2
  end.

Definition row_set (k : nat) (v : float) (r : row) : row :=
  match k with
  | O => (v, r.1.2, r.2)
  | 1%nat => (r.1.1, v, r.2)
  | _ => (r.1.1, r.1.2, v)
  end.

Definition zero_row : row := (F32.zero, F32.zero, F32.zero).

(** [fileAtoms[i][k]] *)
Definition load (fileAtoms : list row) (i k : nat) : M float :=
  match fileAtoms !! i with
  | Some r => ret (row_get k r)
  | None => undefined
  end.

(** [fileAtoms[i][k] = v] *)
Definition store (fileAtoms : list row) (i k : nat) (v : float) : M (list row) :=
  match fileAtoms !! i with
  | Some r => ret (<[i := row_set k v r]> fileAtoms)
  | None => undefined
  end.

(** ** Files

    An open file is what is left to read, whether reading past it fails
    with an error instead of reaching the end of the file, and the
    end-of-file indicator. *)

Record FILE : Type := mk_FILE {
  unread : list ascii;
  read_error : bool;
  eof : bool
}.

Definition newline : ascii := "010"%char.

(** The characters one [fgets] takes: at most [n], through the first
    newline; the third component tells that the end of the data was hit
    while looking for more. *)
Fixpoint read_chars (n : nat) (s : list ascii) : list ascii * list ascii * bool :=
  match n with
  | O => ([], s, false)
  | S n' =>
      match s with
      | [] => ([], [], true)
      | c :: s' =>
          if Ascii.eqb c newline then ([c], s', false)
          else let '(l, r, hit) := read_chars n' s' in (c :: l, r, hit)
      end
  end.

(** [fgets] writes the characters and a NUL at the start of the buffer and
    leaves the rest of the buffer as it was. *)
Definition fill (chunk buf : list ascii) : list ascii :=
  chunk ++ END_OF_STRING :: drop (S (length chunk)) buf.

(** [fgets (buf, n, fp)]: [None] is the NULL pointer. *)
Definition fgets (buf : list ascii) (n : nat) (fp : FILE) : option (list ascii) * FILE :=
  let '(chunk, rest, hit) := read_chars (n - 1) (unread fp) in
  if hit then
    if read_error fp then (None, mk_FILE [] true false)
    else
      match chunk with
      | [] => (None, mk_FILE [] false true)
      | _ => (Some (fill chunk buf), mk_FILE [] false true)
      end
  else (Some (fill chunk buf), mk_FILE rest (read_error fp) (eof fp)).

Definition feof (fp : FILE) : Z := if eof fp then 1 else 0.

(** The file system: the contents of each file that can be opened, and
    whether reading it ends with an error. *)
Definition fopen (fs : gmap string (list ascii * bool)) (name : string) : option FILE :=
  match fs !! name with
  | Some (data, err) => Some (mk_FILE data err false)
  | None => None
  end.

(** ** The program *)

Section Program.

Variable strtof : list ascii -> strtof_result.

(** *** [getFloat] *)
Definition getFloat (input : list ascii) : M float :=
  let r := strtof input in
  let result := sr_value r in
  if F32.eqb result (F32.of_int 0) && (negb (sr_errno r =? 0) || (sr_consumed r =? 0)%nat)
  then printf (PrintConversionError (c_str input)) ;; exit EXIT_FAILURE
  else ret result.

(** *** [parseLine]

    The three local strings are the 8 bytes copied from the line, closed
    by a NUL. *)
Definition parseLine (fileLine : list ascii) (atomCounter : nat)
    (fileAtoms : list row) : M (list row) :=
  let cgString := memcpy_from fileLine 30 COORDINATE_LEN ++ [END_OF_STRING] in
  let radString := memcpy_from fileLine 38 COORDINATE_LEN ++ [END_OF_STRING] in
  let disString := memcpy_from fileLine 46 COORDINATE_LEN ++ [END_OF_STRING] in
  x <- getFloat cgString ;;
  fileAtoms <- store fileAtoms atomCounter 0 x ;;
  y <- getFloat radString ;;
  fileAtoms <- store fileAtoms atomCounter 1 y ;;
  z <- getFloat disString ;;
  store fileAtoms atomCounter 2 z.

(** *** [calCenterOfGravity]

    The three sums are the state of the loop. The function prints the
    centre and returns what it writes to [gravityCenter], which [main]
    hands to [calRotationRadious]. In the divisions the [int] count is
    converted to [float]. *)
Definition cg_body (fileAtoms : list row) (i : nat) (sums : row) : M row :=
  let '(xCorSum, yCorSum, zCorSum) := sums in
  x <- load fileAtoms i 0 ;;
  y <- load fileAtoms i 1 ;;
  z <- load fileAtoms i 2 ;;
  ret (F32.add xCorSum x, F32.add yCorSum y, F32.add zCorSum z).

Definition calCenterOfGravity (atomCounter : nat) (fileAtoms : list row) : M row :=
  sums <- for_loop atomCounter 0 (cg_body fileAtoms) (F32.zero, F32.zero, F32.zero) ;;
  let '(xCorSum, yCorSum, zCorSum) := sums in
  let n := F32.of_int (Z.of_nat atomCounter) in
  printf (PrintCg (F32.div xCorSum n) (F32.div yCorSum n) (F32.div zCorSum n)) ;;
  ret (F32.div xCorSum n, F32.div yCorSum n, F32.div zCorSum n).

(** *** [calDistance]: the square of the distance *)
Definition calDistance (xCor1 yCor1 zCor1 xCor2 yCor2 zCor2 : float) : float :=
  F32.add
    (F32.add (F32.mul (F32.sub xCor1 xCor2) (F32.sub xCor1 xCor2))
             (F32.mul (F32.sub yCor1 yCor2) (F32.sub yCor1 yCor2)))
    (F32.mul (F32.sub zCor1 zCor2) (F32.sub zCor1 zCor2)).

(** *** [calRotationRadious] *)
Definition rg_body (fileAtoms : list row) (gravityCenter : row)
    (i : nat) (rotationSum : float) : M float :=
  let '(xCor1, yCor1, zCor1) := gravityCenter in
  x <- load fileAtoms i 0 ;;
  y <- load fileAtoms i 1 ;;
  z <- load fileAtoms i 2 ;;
  let tempdis := calDistance xCor1 yCor1 zCor1 x y z in
  ret (F32.add rotationSum tempdis).

Definition calRotationRadious (atomCounter : nat) (fileAtoms : list row)
    (gravityCenter : row) : M unit :=
  rotationSum <- for_loop atomCounter 0 (rg_body fileAtoms gravityCenter) F32.zero ;;
  let rotationSum :=
    c_sqrt (F32.div rotationSum (F32.of_int (Z.of_nat atomCounter))) in
  printf (PrintRg rotationSum).

(** *** [calMaxDistance]

    The outer loop runs while [i < atomCounter - 1] and the inner one from
    [j = 1] while [j < atomCounter]: [atomCounter - 1] turns of each. For
    an empty store the bound is -1 in C and the subtraction of [nat] gives
    0: no turn either way. *)
Definition dmax_inner (fileAtoms : list row) (xCor1 yCor1 zCor1 : float)
    (j : nat) (maxDistance : float) : M float :=
  x <- load fileAtoms j 0 ;;
  y <- load fileAtoms j 1 ;;
  z <- load fileAtoms j 2 ;;
  let tempDistance := c_sqrt (calDistance xCor1 yCor1 zCor1 x y z) in
  ret (if F32.ltb maxDistance tempDistance then tempDistance else maxDistance).

Definition dmax_outer (atomCounter : nat) (fileAtoms : list row)
    (i : nat) (maxDistance : float) : M float :=
  xCor1 <- load fileAtoms i 0 ;;
  yCor1 <- load fileAtoms i 1 ;;
  zCor1 <- load fileAtoms i 2 ;;
  for_loop (atomCounter - 1) 1 (dmax_inner fileAtoms xCor1 yCor1 zCor1) maxDistance.

Definition calMaxDistance (atomCounter : nat) (fileAtoms : list row) : M unit :=
  maxDistance <- for_loop (atomCounter - 1) 0 (dmax_outer atomCounter fileAtoms) F32.zero ;;
  printf (PrintDmax maxDistance).

(** *** [main] *)

(** The state of the loop that reads a file: the stream, the line buffer,
    the number of atoms so far and the atom array. *)
Record reader : Type := mk_reader {
  r_fp : FILE;
  r_fileLine : list ascii;
  r_atomCounter : nat;
  r_fileAtoms : list row
}.

(** The body of [while (fgets (fileLine, MAX_LINE, fp))], on the line just
    read. *)
Definition line_body (fileLine : list ascii) (atomCounter : nat)
    (fileAtoms : list row) : M (nat * list row) :=
  if negb (startsWith fileLine =? 0) then
    if (MIN_LINE_LEN <? strlen fileLine)%nat then
      fileAtoms <- parseLine fileLine atomCounter fileAtoms ;;
      ret (S atomCounter, fileAtoms)
    else
      printf (PrintTooShort (strlen fileLine)) ;; exit EXIT_FAILURE
  else ret (atomCounter, fileAtoms).

Fixpoint read_lines (fuel : nat) (st : reader) : M reader :=
  match fuel with
  | O => ([], OutOfFuel)
  | S fuel' =>
      match fgets (r_fileLine st) MAX_LINE (r_fp st) with
      | (None, fp) =>
          ret (mk_reader fp (r_fileLine st) (r_atomCounter st) (r_fileAtoms st))
      | (Some fileLine, fp) =>
          next <- line_body fileLine (r_atomCounter st) (r_fileAtoms st) ;;
          read_lines fuel' (mk_reader fp fileLine next.1 next.2)
      end
  end.

(** One turn of the [for] loop of [main] on an opened file: the body of
    the loop after [fopen] has succeeded. It returns the two buffers as the
    next file finds them. The loop that reads the lines is given as fuel
    one more than the number of characters of the file. *)
Definition process_file (name : string) (fp : FILE) (fileLine : list ascii)
    (fileAtoms : list row) : M (list ascii * list row) :=
  st <- read_lines (S (length (unread fp))) (mk_reader fp fileLine 0 fileAtoms) ;;
  if (feof (r_fp st) =? 0) || (r_atomCounter st =? 0)%nat then
    printf (PrintZeroAtoms name) ;; return_from_main 1
  else
    printf (PrintHeader name (r_atomCounter st)) ;;
    gravityCenter <- calCenterOfGravity (r_atomCounter st) (r_fileAtoms st) ;;
    calRotationRadious (r_atomCounter st) (r_fileAtoms st) gravityCenter ;;
    calMaxDistance (r_atomCounter st) (r_fileAtoms st) ;;
    ret (r_fileLine st, r_fileAtoms st).

Fixpoint process_files (fs : gmap string (list ascii * bool)) (names : list string)
    (fileLine : list ascii) (fileAtoms : list row) : M Empty_set :=
  match names with
  | [] => return_from_main 0
  | name :: names' =>
      match fopen fs name with
      | None => printf (PrintOpenError name) ;; return_from_main 1
      | Some fp =>
          buffers <- process_file name fp fileLine fileAtoms ;;
          process_files fs names' buffers.1 buffers.2
      end
  end.

(** [argv] holds the name of the program and the file names. [main]
    always ends the process, with the status it returns or through an
    [exit] on the way. *)
Definition main (argv : list string) (fs : gmap string (list ascii * bool)) :
    M Empty_set :=
  let fileLine := replicate MAX_LINE END_OF_STRING in
  let fileAtoms := replicate MAX_ATOMS zero_row in
  if (length argv <? MIN_ARGS)%nat then
    printf PrintUsage ;; return_from_main 1
  else process_files fs (tail argv) fileLine fileAtoms.

End Program.

(** ** The statistics as the specification words them

    These definitions do not come from the source: they state the formulas
    of the specification over a list of atoms, with the arithmetic of
    [float]. The theorems below compare the functions of the program with
    them. *)

Definition fsum (l : list float) : float := fold_left F32.add l F32.zero.

Definition mean (l : list float) : float :=
  F32.div (fsum l) (F32.of_int (Z.of_nat (length l))).

Definition center_of_gravity (atoms : list row) : row :=
  (mean (row_get 0 <$> atoms), mean (row_get 1 <$> atoms), mean (row_get 2 <$> atoms)).

Definition sqr (a : float) : float := F32.mul a a.

Definition sq_euclid (p q : row) : float :=
  F32.add (F32.add (sqr (F32.sub p.1.1 q.1.1)) (sqr (F32.sub p.1.2 q.1.2)))
          (sqr (F32.sub p.2 q.2)).

Definition euclid (p q : row) : float := c_sqrt (sq_euclid p q).

Definition radius_of_gyration (cg : row) (atoms : list row) : float :=
  c_sqrt (F32.div (fsum (sq_euclid cg <$> atoms)) (F32.of_int (Z.of_nat (length atoms)))).

(** [d] is the largest distance between two atoms of the list: some pair is
    at distance [d] and no pair is further apart. *)
Definition is_max_distance (atoms : list row) (d : float) : Prop :=
  (exists i j a b, (i < j)%nat /\ atoms !! i = Some a /\ atoms !! j = Some b /\
                   d = euclid a b) /\
  (forall i j a b, (i < j)%nat -> atoms !! i = Some a -> atoms !! j = Some b ->
                   SFleb (euclid a b) d = true).

Definition finite_row (r : row) : Prop :=
  is_finite r.1.1 = true /\ is_finite r.1.2 = true /\ is_finite r.2 = true.

Local Close Scope Z_scope.

(** ** Auxiliary notions *)

(** The test of [getFloat] on what [strtof] returned. *)
Definition conversion_fails (r : strtof_result) : bool :=
  is_zero (sr_value r) && (negb (sr_errno r =? 0)%Z || (sr_consumed r =? 0)).

(** The two messages about the contents of a file. *)
Definition input_error (e : event) : bool :=
  match e with
  | PrintTooShort _ | PrintConversionError _ => true
  | _ => false
  end.

(** The 8 characters of a line from column [off], as a string. *)
Definition coordinate (line : list ascii) (off : nat) : list ascii :=
  take COORDINATE_LEN (drop off (c_str line)) ++ [END_OF_STRING].

(** The three conversions of a record. *)
Definition parse_record (strtof : list ascii -> strtof_result) (line : list ascii) : M row :=
  x <- getFloat strtof (coordinate line 30) ;;
  y <- getFloat strtof (coordinate line 38) ;;
  z <- getFloat strtof (coordinate line 46) ;;
  ret (x, y, z).

(** The rows that a list of lines appends to an array with [room] free
    rows: lines that are not records are skipped, a short record or a
    failed conversion ends the program, and the record that finds no room
    is written past the array once its first coordinate is converted. *)
Fixpoint collect (strtof : list ascii -> strtof_result) (lines : list (list ascii))
    (room : nat) : M (list row) :=
  match lines with
  | [] => ret []
  | line :: lines' =>
      if bool_decide (startsWith line = 1%Z) then
        if bool_decide (MIN_LINE_LEN < strlen line) then
          match room with
          | O => getFloat strtof (coordinate line 30) ;; undefined
          | S room' =>
              r <- parse_record strtof line ;;
              rows <- collect strtof lines' room' ;;
              ret (r :: rows)
          end
        else printf (PrintTooShort (strlen line)) ;; exit EXIT_FAILURE
      else collect strtof lines' room
  end.

(** The body of the loop of [main] over a list of lines. *)
Fixpoint run_lines (strtof : list ascii -> strtof_result) (lines : list (list ascii))
    (atomCounter : nat) (fileAtoms : list row) : M (nat * list row) :=
  match lines with
  | [] => ret (atomCounter, fileAtoms)
  | fileLine :: lines' =>
      next <- line_body strtof fileLine atomCounter fileAtoms ;;
      run_lines strtof lines' next.1 next.2
  end.

(** The lines of a file as the calls to [fgets] cut them: at a newline or
    after [MAX_LINE - 1] characters. *)
Fixpoint file_lines (fuel : nat) (fp : FILE) : list (list ascii) :=
  match fuel with
  | O => []
  | S fuel' =>
      match fgets [] MAX_LINE fp with
      | (None, _) => []
      | (Some fileLine, fp') => c_str fileLine :: file_lines fuel' fp'
      end
  end.

Definition lines_of (fp : FILE) : list (list ascii) :=
  file_lines (S (length (unread fp))) fp.

(** The lines that [startsWith] accepts. *)
Definition atom_records (fp : FILE) : list (list ascii) :=
  filter (fun line => startsWith line = 1%Z) (lines_of fp).

(** One comparison of the inner loop. *)
Definition max_step (maxDistance tempDistance : float) : float :=
  if F32.ltb maxDistance tempDistance then tempDistance else maxDistance.

(** The scan of the two loops over a list of atoms: [i] runs over all atoms
    but the last, [j] over all but the first. *)
Definition scan (atoms : list row) : float :=
  fold_left
    (fun m a => fold_left (fun m b => max_step m (euclid a b)) (drop 1 atoms) m)
    (take (length atoms - 1) atoms) F32.zero.

(** The distances the scan compares, in the order of the loops. *)
Definition pair_distances (atoms : list row) : list float :=
  a ← take (length atoms - 1) atoms; euclid a <$> drop 1 atoms.

(** What the scan returns, over pairs of distinct positions: it is zero or
    the distance of a pair, and no distance of a pair is above it. *)
Definition pair_max (atoms : list row) (m : float) : Prop :=
  nonneg m = true /\
  (m = F32.zero \/
   exists i j a b, i <> j /\ atoms !! i = Some a /\ atoms !! j = Some b /\ m = euclid a b) /\
  (forall i j a b, i <> j -> atoms !! i = Some a -> atoms !! j = Some b ->
                   is_nan (euclid a b) = false -> SFleb (euclid a b) m = true).

(** What is printed for a file whose atoms are [atoms]. *)
Definition report (name : string) (atoms : list row) : list event :=
  let cg := center_of_gravity atoms in
  [PrintHeader name (length atoms);
   PrintCg cg.1.1 cg.1.2 cg.2;
   PrintRg (radius_of_gyration cg atoms);
   PrintDmax (scan atoms)].

(** What can be seen of a run: what it printed and how it ended. *)
Definition observe {A} (m : M A) : list event * result unit :=
  (m.1, match m.2 with
        | Ok _ => Ok tt
        | Exit s => Exit s
        | Undefined => Undefined
        | OutOfFuel => OutOfFuel
        end).

(** How collecting ends: with rows that fit and nothing printed, with one
    message about the input and the failure status, or out of bounds. *)
Inductive collected (room : nat) : M (list row) -> Prop :=
| collected_rows (rows : list row) :
    length rows <= room -> collected room (ret rows)
| collected_error (e : event) :
    input_error e = true -> collected room ([e], Exit EXIT_FAILURE)
| collected_overflow : collected room ([], Undefined).

(** The row of a record whose conversions succeed. *)
Definition row_of (strtof : list ascii -> strtof_result) (line : list ascii) : row :=
  match parse_record strtof line with
  | (_, Ok r) => r
  | _ => zero_row
  end.

(** A record that [parseLine] accepts. *)
Definition good_record (strtof : list ascii -> strtof_result) (line : list ascii) : Prop :=
  MIN_LINE_LEN < strlen line /\ exists r, parse_record strtof line = ret r.

(** The files of a run, each one read into buffers that are new: the line
    buffer and the atom array as [main] first has them. *)
Fixpoint process_files_fresh (strtof : list ascii -> strtof_result)
    (fs : gmap string (list ascii * bool)) (names : list string) : M Empty_set :=
  match names with
  | [] => return_from_main 0%Z
  | name :: names' =>
      match fopen fs name with
      | None => bind (printf (PrintOpenError name)) (fun _ => return_from_main 1%Z)
      | Some fp =>
          bind (process_file strtof name fp
                  (replicate MAX_LINE END_OF_STRING) (replicate MAX_ATOMS zero_row))
               (fun _ => process_files_fresh strtof fs names')
      end
  end.

(** ** Notions for the further properties *)

(** A file that [main] carries to its statistics: it is read to its end,
    it has a record and no more than the array holds, and every record is
    long enough and converts. *)
Definition good_file (strtof : list ascii -> strtof_result) (fp : FILE) : Prop :=
  read_error fp = false /\
  1 <= length (atom_records fp) <= MAX_ATOMS /\
  Forall (good_record strtof) (atom_records fp).

(** A file name that opens on such a file. *)
Definition file_ok (strtof : list ascii -> strtof_result)
    (fs : gmap string (list ascii * bool)) (name : string) : Prop :=
  exists fp, fopen fs name = Some fp /\ good_file strtof fp.

(** The four lines printed for a file, from its records. *)
Definition file_report (strtof : list ascii -> strtof_result)
    (fs : gmap string (list ascii * bool)) (name : string) : list event :=
  match fopen fs name with
  | Some fp => report name (row_of strtof <$> atom_records fp)
  | None => []
  end.

(** The message about a record that [parseLine] does not accept. *)
Definition record_error (strtof : list ascii -> strtof_result) (line : list ascii) :
    list event :=
  if bool_decide (MIN_LINE_LEN < strlen line)
  then (parse_record strtof line).1
  else [PrintTooShort (strlen line)].

(** The messages that end a run with the failure status. *)
Definition error_message (e : event) : bool :=
  match e with
  | PrintUsage | PrintOpenError _ | PrintTooShort _ | PrintZeroAtoms _
  | PrintConversionError _ => true
  | _ => false
  end.

(** A row without NaN. *)
Definition number_row (r : row) : Prop :=
  is_nan r.1.1 = false /\ is_nan r.1.2 = false /\ is_nan r.2 = false.

(** A finite number of binary32 in its canonical form, other than the
    negative zero. *)
Definition plain_float (x : float) : bool :=
  match x with
  | S754_zero s => negb s
  | S754_finite _ m e => bounded F32.prec F32.emax m e
  | _ => false
  end.

Definition plain_row (r : row) : Prop :=
  plain_float r.1.1 = true /\ plain_float r.1.2 = true /\ plain_float r.2 = true.

(** ** Sample input

    An [ATOM] line in the layout of PDB files, with the three coordinate
    fields given as text of 8 characters. *)
Definition record (x y z : string) : list ascii :=
  (list_ascii_of_string
     ("ATOM      1  N   MET A   1    " +:+ x +:+ y +:+ z +:+ "  1.00  0.00")
   ++ [newline])%list.

(** An [ATOM] line of exactly 60 characters that ends the file without a
    newline. *)
Definition line_of_60 : list ascii :=
  list_ascii_of_string
    "ATOM      1  N   MET A   1       1.000   2.000   3.000  1.00".

(** Two files with the same three records in two orders. *)
Definition first_order : list ascii :=
  (record "99999999" "   0.000" "   0.000" ++
   record "   3.000" "   0.000" "   0.000" ++
   record "   3.000" "   0.000" "   0.000")%list.

Definition second_order : list ascii :=
  (record "   3.000" "   0.000" "   0.000" ++
   record "   3.000" "   0.000" "   0.000" ++
   record "99999999" "   0.000" "   0.000")%list.

(** The scenario of the specification: atoms at (0, 0, 0) and (2, 0, 0). *)
Definition two_atoms : list ascii :=
  (list_ascii_of_string "HEADER    SAMPLE" ++ [newline] ++
   record "   0.000" "   0.000" "   0.000" ++
   record "   2.000" "   0.000" "   0.000")%list.

Definition sample_files : gmap string (list ascii * bool) :=
  {[ "two.pdb" := (two_atoms, false);
     "first.pdb" := (first_order, false);
     "second.pdb" := (second_order, false);
     "short.pdb" := (line_of_60, false) ]}.

(** A file of [k] copies of one record. *)
Definition copies (k : nat) : list ascii :=
  mjoin (replicate k (record "   1.000" "   2.000" "   3.000")).

(** ** The formulas over exact numbers

    These definitions do not come from the source: they are the formulas
    of the specification read over the rational numbers, to compare what
    the program computes in [float] with the quantities that the
    specification names. *)

(** The number that a finite float stands for (0 for the others). *)
Definition float_value (x : float) : Q :=
  match x with
  | S754_finite s m e => (inject_Z (cond_Zopp s (Z.pos m)) * Qpower 2 e)%Q
  | _ => 0%Q
  end.

Definition row_value (r : row) : Q * Q * Q :=
  (float_value r.1.1, float_value r.1.2, float_value r.2).

Definition exact_sum (l : list Q) : Q := foldr Qplus 0%Q l.

(** The arithmetic mean. *)
Definition arithmetic_mean (l : list Q) : Q :=
  (exact_sum l / inject_Z (Z.of_nat (length l)))%Q.

(** The square of the Euclidean distance between two points. *)
Definition exact_sq_distance (p q : Q * Q * Q) : Q :=
  ((p.1.1 - q.1.1) * (p.1.1 - q.1.1) + (p.1.2 - q.1.2) * (p.1.2 - q.1.2) +
   (p.2 - q.2) * (p.2 - q.2))%Q.

(** Two atoms at large coordinates that are finite floats: the same point
    twice, near the largest float, and two points on either side of the
    origin. *)
Definition two_large : list ascii :=
  (record "  3.0e38" "   0.000" "   0.000" ++
   record "  3.0e38" "   0.000" "   0.000")%list.

Definition far_apart : list ascii :=
  (record "  2.0e19" "   0.000" "   0.000" ++
   record " -2.0e19" "   0.000" "   0.000")%list.

(** A line of 146 characters: 79 characters of a remark, then the text of
    a record. *)
Definition long_remark : list ascii :=
  (list_ascii_of_string
     "REMARK   1 THIS LINE IS LONGER THAN THE BUFFER OF THE PROGRAM, WHICH CUTS IT >>" ++
   record "   1.000" "   2.000" "   3.000")%list.

(** * Properties *)

(** ** The monad and the counted loop *)

Lemma bind_ret_l {A B} (a : A) (f : A -> M B) : bind (ret a) f = f a.
Proof. unfold bind, ret. destruct (f a) as [log r]. reflexivity. Qed.

Lemma bind_ret_r {A} (m : M A) : bind m ret = m.
Proof.
  destruct m as [log [a| s | |]]; simpl; try reflexivity.
  rewrite app_nil_r. reflexivity.
Qed.

Lemma bind_assoc {A B C} (m : M A) (f : A -> M B) (g : B -> M C) :
  bind (bind m f) g = bind m (fun a => bind (f a) g).
Proof.
  destruct m as [log [a| s | |]]; simpl; try reflexivity.
  destruct (f a) as [log1 [b| s | |]]; simpl; try reflexivity.
  destruct (g b) as [log2 r]. rewrite app_assoc. reflexivity.
Qed.

Lemma bind_ext {A B} (m : M A) (f g : A -> M B) :
  (forall a, f a = g a) -> bind m f = bind m g.
Proof.
  intros H. destruct m as [log [a| s | |]]; simpl; try reflexivity.
  rewrite H. reflexivity.
Qed.

Arguments bind : simpl never.
Arguments ret : simpl never.

Lemma load_Some (fileAtoms : list row) (i k : nat) (r : row) :
  fileAtoms !! i = Some r -> load fileAtoms i k = ret (row_get k r).
Proof. intros H. unfold load. rewrite H. reflexivity. Qed.

(** A loop whose body reads row [i] and folds it into the state is a fold
    over the rows it visits. *)
Lemma for_loop_fold {S : Type} (fileAtoms : list row)
    (body : nat -> S -> M S) (f : S -> row -> S) :
  (forall i r s, fileAtoms !! i = Some r -> body i s = ret (f s r)) ->
  forall count i s, i + count <= length fileAtoms ->
    for_loop count i body s = ret (fold_left f (take count (drop i fileAtoms)) s).
Proof.
  intros Hbody count. induction count as [|count IH]; intros i s Hlen.
  - reflexivity.
  - destruct (lookup_lt_is_Some_2 fileAtoms i) as [r Hr]; [lia|].
    simpl for_loop. rewrite (Hbody i r s Hr), bind_ret_l.
    rewrite IH by lia.
    rewrite (drop_S _ _ _ Hr). reflexivity.
Qed.

(** ** [calCenterOfGravity] *)

Lemma cg_body_Some (fileAtoms : list row) (i : nat) (r sums : row) :
  fileAtoms !! i = Some r ->
  cg_body fileAtoms i sums =
    ret (F32.add sums.1.1 r.1.1, F32.add sums.1.2 r.1.2, F32.add sums.2 r.2).
Proof.
  intros Hr. destruct sums as [[sx sy] sz].
  unfold cg_body. rewrite !(load_Some _ _ _ _ Hr), !bind_ret_l. reflexivity.
Qed.

Lemma fold_left_sums (l : list row) (s : row) :
  fold_left (fun (s r : row) =>
               (F32.add s.1.1 r.1.1, F32.add s.1.2 r.1.2, F32.add s.2 r.2)) l s =
  (fold_left F32.add (row_get 0 <$> l) s.1.1,
   fold_left F32.add (row_get 1 <$> l) s.1.2,
   fold_left F32.add (row_get 2 <$> l) s.2).
Proof.
  revert s. induction l as [|r l IH]; intros [[sx sy] sz]; [reflexivity|].
  simpl. rewrite IH. reflexivity.
Qed.

Lemma calCenterOfGravity_eq (atomCounter : nat) (fileAtoms : list row) :
  atomCounter <= length fileAtoms ->
  calCenterOfGravity atomCounter fileAtoms =
    let cg := center_of_gravity (take atomCounter fileAtoms) in
    ([PrintCg cg.1.1 cg.1.2 cg.2], Ok cg).
Proof.
  intros Hlen. unfold calCenterOfGravity.
  rewrite (for_loop_fold fileAtoms _ _ (cg_body_Some fileAtoms)) by lia.
  rewrite bind_ret_l, drop_0, fold_left_sums.
  unfold center_of_gravity, mean, fsum.
  rewrite !length_fmap, length_take, Nat.min_l by lia.
  reflexivity.
Qed.

(** ** [calDistance] and [calRotationRadious] *)

Lemma calDistance_sq_euclid (p q : row) :
  calDistance p.1.1 p.1.2 p.2 q.1.1 q.1.2 q.2 = sq_euclid p q.
Proof. reflexivity. Qed.

Lemma rg_body_Some (fileAtoms : list row) (gravityCenter : row) (i : nat)
    (r : row) (rotationSum : float) :
  fileAtoms !! i = Some r ->
  rg_body fileAtoms gravityCenter i rotationSum =
    ret (F32.add rotationSum (sq_euclid gravityCenter r)).
Proof.
  intros Hr. destruct gravityCenter as [[gx gy] gz].
  unfold rg_body. rewrite !(load_Some _ _ _ _ Hr), !bind_ret_l. reflexivity.
Qed.

Lemma fold_left_add_fmap {A} (f : A -> float) (l : list A) (s : float) :
  fold_left (fun s a => F32.add s (f a)) l s = fold_left F32.add (f <$> l) s.
Proof. revert s. induction l as [|a l IH]; intros s; [reflexivity|]. simpl. apply IH. Qed.

Lemma calRotationRadious_eq (atomCounter : nat) (fileAtoms : list row)
    (gravityCenter : row) :
  atomCounter <= length fileAtoms ->
  calRotationRadious atomCounter fileAtoms gravityCenter =
    ([PrintRg (radius_of_gyration gravityCenter (take atomCounter fileAtoms))], Ok tt).
Proof.
  intros Hlen. unfold calRotationRadious.
  rewrite (for_loop_fold fileAtoms _ _
             (fun i r s => rg_body_Some fileAtoms gravityCenter i r s)) by lia.
  rewrite bind_ret_l, drop_0, fold_left_add_fmap.
  unfold radius_of_gyration, fsum.
  rewrite length_take, Nat.min_l by lia.
  reflexivity.
Qed.

(** ** [calMaxDistance] as a fold over pairs *)

Lemma dmax_inner_Some (fileAtoms : list row) (a : row) (j : nat) (b : row)
    (maxDistance : float) :
  fileAtoms !! j = Some b ->
  dmax_inner fileAtoms a.1.1 a.1.2 a.2 j maxDistance =
    ret (max_step maxDistance (euclid a b)).
Proof.
  intros Hb. unfold dmax_inner.
  rewrite !(load_Some _ _ _ _ Hb), !bind_ret_l. reflexivity.
Qed.

Lemma dmax_outer_Some (atomCounter : nat) (fileAtoms : list row) (i : nat)
    (a : row) (maxDistance : float) :
  1 <= atomCounter <= length fileAtoms ->
  fileAtoms !! i = Some a ->
  dmax_outer atomCounter fileAtoms i maxDistance =
    ret (fold_left (fun m b => max_step m (euclid a b))
           (drop 1 (take atomCounter fileAtoms)) maxDistance).
Proof.
  intros Hlen Ha. unfold dmax_outer.
  rewrite !(load_Some _ _ _ _ Ha), !bind_ret_l.
  rewrite (for_loop_fold fileAtoms _ _
             (fun j b m => dmax_inner_Some fileAtoms a j b m)) by lia.
  f_equal. f_equal.
  rewrite take_drop_commute. f_equal. f_equal. lia.
Qed.

Lemma calMaxDistance_eq (atomCounter : nat) (fileAtoms : list row) :
  atomCounter <= length fileAtoms ->
  calMaxDistance atomCounter fileAtoms =
    ([PrintDmax (scan (take atomCounter fileAtoms))], Ok tt).
Proof.
  intros Hlen. unfold calMaxDistance.
  destruct atomCounter as [|n].
  - reflexivity.
  - rewrite (for_loop_fold fileAtoms _ _
               (fun i a m => dmax_outer_Some (S n) fileAtoms i a m
                               (conj (le_n_S 0 n (Nat.le_0_l n)) Hlen))) by lia.
    rewrite bind_ret_l, drop_0. unfold scan.
    rewrite length_take, Nat.min_l by lia.
    rewrite take_take, Nat.min_l by lia.
    reflexivity.
Qed.

(** ** The order of floats *)

Lemma compare_cont_Eq (m1 m2 : positive) : Pos.compare_cont Eq m1 m2 = (m1 ?= m2)%positive.
Proof. reflexivity. Qed.

Ltac order_cases :=
  repeat match goal with
  | |- context [Pos.compare_cont Eq ?a ?b] =>
      change (Pos.compare_cont Eq a b) with (Pos.compare a b) in *
  | H : context [Pos.compare_cont Eq ?a ?b] |- _ =>
      change (Pos.compare_cont Eq a b) with (Pos.compare a b) in *
  | |- context [(?a ?= ?b)%Z] => destruct (Z.compare_spec a b)
  | |- context [(?a ?= ?b)%positive] => destruct (Pos.compare_spec a b)
  | H : context [(?a ?= ?b)%Z] |- _ => destruct (Z.compare_spec a b)
  | H : context [(?a ?= ?b)%positive] |- _ => destruct (Pos.compare_spec a b)
  end.

Lemma SFcompare_antisym (x y : float) :
  SFcompare y x = CompOpp <$> SFcompare x y.
Proof.
  destruct x as [[]|[]| |[] mx ex], y as [[]|[]| |[] my ey]; try reflexivity;
    simpl; rewrite ?compare_cont_Eq, ?(Z.compare_antisym ex ey), ?(Pos.compare_antisym mx my);
    try reflexivity; destruct (ex ?= ey)%Z; simpl; try reflexivity;
    destruct (mx ?= my)%positive; reflexivity.
Qed.

Lemma SFcompare_Eq_nonneg (x y : float) :
  nonneg x = true -> nonneg y = true -> SFcompare x y = Some Eq -> x = y.
Proof.
  destruct x as [[]|[]| |[] mx ex], y as [[]|[]| |[] my ey];
    simpl; try congruence; rewrite ?compare_cont_Eq; intros _ _ H;
    order_cases; subst; congruence.
Qed.

(** ** Signs of the results of the operations *)

Lemma nonneg_not_nan (x : float) : nonneg x = true -> is_nan x = false.
Proof. destruct x as [[]|[]| |[] m e]; simpl; congruence. Qed.

Lemma nonneg_or_nan_cases (x : float) :
  nonneg_or_nan x = true -> is_nan x = false -> nonneg x = true.
Proof. unfold nonneg_or_nan. destruct (nonneg x), (is_nan x); simpl; congruence. Qed.

Section Rounding.
Variables prec emax : Z.

Lemma shr_1_nonneg (mrs : shr_record) : (0 <= shr_m mrs)%Z -> (0 <= shr_m (shr_1 mrs))%Z.
Proof.
  destruct mrs as [m r s]. simpl. destruct m as [|[p|p|]|[p|p|]]; simpl; lia.
Qed.

Lemma iter_pos_shr_1_nonneg (p : positive) (mrs : shr_record) :
  (0 <= shr_m mrs)%Z -> (0 <= shr_m (SpecFloat.iter_pos shr_1 p mrs))%Z.
Proof.
  revert mrs. induction p as [p IH|p IH|]; intros mrs H; simpl.
  - apply IH, IH, shr_1_nonneg, H.
  - apply IH, IH, H.
  - apply shr_1_nonneg, H.
Qed.

Lemma shr_fexp_nonneg (m e : Z) (l : location) :
  (0 <= m)%Z -> (0 <= shr_m (shr_fexp prec emax m e l).1)%Z.
Proof.
  intros H. unfold shr_fexp, shr.
  assert (H0 : (0 <= shr_m (shr_record_of_loc m l))%Z)
    by (destruct l as [|[]]; exact H).
  destruct (fexp prec emax (Zdigits2 m + e) - e)%Z; simpl; try exact H0.
  apply iter_pos_shr_1_nonneg, H0.
Qed.

Lemma round_nearest_even_nonneg (m : Z) (l : location) :
  (0 <= m)%Z -> (0 <= round_nearest_even m l)%Z.
Proof.
  intros H. destruct l as [|[]]; simpl; try lia. destruct (Z.even m); lia.
Qed.

(** Rounding keeps the sign it is given, whatever the mantissa. *)
Lemma binary_round_aux_sign (s : bool) (m e : Z) (l : location) :
  binary_round_aux prec emax s m e l = S754_nan \/
  binary_round_aux prec emax s m e l = S754_zero s \/
  binary_round_aux prec emax s m e l = S754_infinity s \/
  exists m' e', binary_round_aux prec emax s m e l = S754_finite s m' e'.
Proof.
  unfold binary_round_aux.
  destruct (shr_fexp prec emax m e l) as [mrs' e'].
  destruct (shr_fexp prec emax _ e' loc_Exact) as [mrs'' e''].
  destruct (shr_m mrs'') as [|p|p]; auto.
  destruct (e'' <=? emax - prec)%Z; eauto 10.
Qed.

(** It yields no NaN when the mantissa is not negative. *)
Lemma binary_round_aux_not_nan (s : bool) (m e : Z) (l : location) :
  (0 <= m)%Z -> is_nan (binary_round_aux prec emax s m e l) = false.
Proof.
  intros H. unfold binary_round_aux.
  pose proof (shr_fexp_nonneg m e l H) as H1.
  destruct (shr_fexp prec emax m e l) as [mrs' e']. simpl in H1.
  pose proof (shr_fexp_nonneg _ e' loc_Exact
                (round_nearest_even_nonneg _ (loc_of_shr_record mrs') H1)) as H2.
  destruct (shr_fexp prec emax _ e' loc_Exact) as [mrs'' e'']. simpl in H2.
  destruct (shr_m mrs'') as [|p|p]; try reflexivity; try lia.
  destruct (e'' <=? emax - prec)%Z; reflexivity.
Qed.

Lemma binary_round_aux_nonneg_or_nan (m e : Z) (l : location) :
  nonneg_or_nan (binary_round_aux prec emax false m e l) = true.
Proof.
  destruct (binary_round_aux_sign false m e l) as [H|[H|[H|(m' & e' & H)]]];
    rewrite H; reflexivity.
Qed.

Lemma binary_round_aux_nonneg (m e : Z) (l : location) :
  (0 <= m)%Z -> nonneg (binary_round_aux prec emax false m e l) = true.
Proof.
  intros H. apply nonneg_or_nan_cases.
  - apply binary_round_aux_nonneg_or_nan.
  - apply binary_round_aux_not_nan, H.
Qed.

Lemma binary_round_not_nan (s : bool) (m : positive) (e : Z) :
  is_nan (binary_round prec emax s m e) = false.
Proof.
  unfold binary_round. destruct (shl_align m e _) as [mz ez].
  apply binary_round_aux_not_nan. lia.
Qed.

Lemma binary_round_nonneg (m : positive) (e : Z) :
  nonneg (binary_round prec emax false m e) = true.
Proof.
  unfold binary_round. destruct (shl_align m e _) as [mz ez].
  apply binary_round_aux_nonneg. lia.
Qed.

Lemma binary_round_opp (m : positive) (e : Z) :
  binary_round prec emax true m e = SFopp (binary_round prec emax false m e).
Proof.
  unfold binary_round. destruct (shl_align m e _) as [mz ez].
  unfold binary_round_aux.
  destruct (shr_fexp prec emax (Z.pos mz) ez loc_Exact) as [mrs' e'].
  destruct (shr_fexp prec emax _ e' loc_Exact) as [mrs'' e''].
  destruct (shr_m mrs'') as [|p|p]; try reflexivity.
  destruct (e'' <=? emax - prec)%Z; reflexivity.
Qed.

Lemma binary_normalize_not_nan (m e : Z) (sz : bool) :
  is_nan (binary_normalize prec emax m e sz) = false.
Proof. destruct m; simpl; auto using binary_round_not_nan. Qed.

Lemma binary_normalize_opp (m e : Z) :
  SFmul prec emax (binary_normalize prec emax (- m) e false)
                  (binary_normalize prec emax (- m) e false) =
  SFmul prec emax (binary_normalize prec emax m e false)
                  (binary_normalize prec emax m e false).
Proof.
  assert (Hopp : forall x, SFmul prec emax (SFopp x) (SFopp x) = SFmul prec emax x x)
    by (intros [[]|[]| |[] mx ex]; reflexivity).
  destruct m as [|p|p]; simpl; try reflexivity.
  - rewrite binary_round_opp. apply Hopp.
  - rewrite binary_round_opp. symmetry. apply Hopp.
Qed.

(** [(x - y)^2] does not depend on the order of [x] and [y]. *)
Lemma SFsub_sqr_comm (x y : float) :
  SFmul prec emax (SFsub prec emax x y) (SFsub prec emax x y) =
  SFmul prec emax (SFsub prec emax y x) (SFsub prec emax y x).
Proof.
  destruct x as [[]|[]| |sx mx ex], y as [[]|[]| |sy my ey]; try reflexivity;
    try (destruct sx; reflexivity); try (destruct sy; reflexivity).
  cbn [SFsub]. rewrite (Z.min_comm ey ex).
  rewrite <- binary_normalize_opp. do 2 f_equal; lia.
Qed.

(** [x - x] is zero or NaN. *)
Lemma SFsub_diag (x : float) :
  SFsub prec emax x x = S754_zero false \/ SFsub prec emax x x = S754_nan.
Proof.
  destruct x as [[]|[]| |s m e]; simpl; auto.
  rewrite Z.sub_diag. auto.
Qed.

Lemma SFsub_finite (x y : float) :
  is_finite x = true -> is_finite y = true -> is_nan (SFsub prec emax x y) = false.
Proof.
  destruct x as [[]|[]| |sx mx ex], y as [[]|[]| |sy my ey]; simpl; try congruence;
    intros _ _; apply binary_normalize_not_nan.
Qed.

Lemma SFmul_self_nonneg_or_nan (x : float) :
  nonneg_or_nan (SFmul prec emax x x) = true.
Proof.
  destruct x as [[]|[]| |[] m e]; try reflexivity;
    apply binary_round_aux_nonneg_or_nan.
Qed.

Lemma SFmul_self_nonneg (x : float) :
  is_nan x = false -> nonneg (SFmul prec emax x x) = true.
Proof.
  destruct x as [[]|[]| |[] m e]; simpl; try congruence; intros _;
    apply binary_round_aux_nonneg; lia.
Qed.

Lemma SFadd_nonneg (x y : float) :
  nonneg x = true -> nonneg y = true -> nonneg (SFadd prec emax x y) = true.
Proof.
  destruct x as [[]|[]| |[] mx ex], y as [[]|[]| |[] my ey]; simpl; try congruence.
  intros _ _. apply binary_round_nonneg.
Qed.

Lemma SFadd_nonneg_or_nan (x y : float) :
  nonneg_or_nan x = true -> nonneg_or_nan y = true ->
  nonneg_or_nan (SFadd prec emax x y) = true.
Proof.
  unfold nonneg_or_nan.
  destruct x as [[]|[]| |[] mx ex], y as [[]|[]| |[] my ey]; simpl; try congruence.
  intros _ _. rewrite binary_round_nonneg. reflexivity.
Qed.

Lemma SFsqrt_nonneg (x : float) :
  nonneg x = true -> nonneg (SFsqrt prec emax x) = true.
Proof.
  destruct x as [[]|[]| |[] m e]; simpl; try congruence. intros _.
  unfold SFsqrt_core_binary.
  set (m' := match (e - 2 * _)%Z with Z0 => _ | Zpos _ => _ | Zneg _ => _ end).
  assert (Hm' : (0 <= m')%Z).
  { subst m'. destruct (e - 2 * _)%Z; try lia. apply Z.shiftl_nonneg. lia. }
  pose proof (Z.sqrtrem_spec m' Hm') as Hs.
  destruct (Z.sqrtrem m') as [q r].
  apply binary_round_aux_nonneg. 
  destruct Hs as [Hs1 Hs2]. nia.
Qed.

Lemma convert_nonneg (x : float) :
  nonneg x = true ->
  nonneg (match x with
          | S754_finite s m e => binary_normalize prec emax (cond_Zopp s (Zpos m)) e s
          | _ => x
          end) = true.
Proof.
  destruct x as [[]|[]| |[] m e]; simpl; try congruence. intros _.
  apply binary_round_nonneg.
Qed.
End Rounding.

(** ** Distances *)

Lemma c_sqrt_nonneg (x : float) : nonneg x = true -> nonneg (c_sqrt x) = true.
Proof.
  intros H. unfold c_sqrt, F64.to_f32, F64.of_f32, F64.sqrt.
  apply convert_nonneg, SFsqrt_nonneg, convert_nonneg, H.
Qed.

Lemma c_sqrt_nonneg_or_nan (x : float) :
  nonneg_or_nan x = true -> nonneg_or_nan (c_sqrt x) = true.
Proof.
  intros H. destruct (is_nan x) eqn:Hn.
  - destruct x; try discriminate. reflexivity.
  - unfold nonneg_or_nan. rewrite c_sqrt_nonneg; [reflexivity|].
    apply nonneg_or_nan_cases; assumption.
Qed.

Lemma sqr_sub_comm (a b : float) : sqr (F32.sub a b) = sqr (F32.sub b a).
Proof. apply SFsub_sqr_comm. Qed.

Lemma sq_euclid_comm (p q : row) : sq_euclid p q = sq_euclid q p.
Proof.
  unfold sq_euclid.
  rewrite (sqr_sub_comm p.1.1), (sqr_sub_comm p.1.2), (sqr_sub_comm p.2).
  reflexivity.
Qed.

Lemma euclid_comm (p q : row) : euclid p q = euclid q p.
Proof. unfold euclid. rewrite sq_euclid_comm. reflexivity. Qed.

Lemma sq_euclid_nonneg_or_nan (p q : row) : nonneg_or_nan (sq_euclid p q) = true.
Proof.
  unfold sq_euclid, sqr, F32.add, F32.mul.
  repeat apply SFadd_nonneg_or_nan; apply SFmul_self_nonneg_or_nan.
Qed.

Lemma euclid_nonneg_or_nan (p q : row) : nonneg_or_nan (euclid p q) = true.
Proof. apply c_sqrt_nonneg_or_nan, sq_euclid_nonneg_or_nan. Qed.

Lemma euclid_finite (p q : row) :
  finite_row p -> finite_row q -> nonneg (euclid p q) = true.
Proof.
  intros (Hp1 & Hp2 & Hp3) (Hq1 & Hq2 & Hq3).
  apply c_sqrt_nonneg. unfold sq_euclid, sqr, F32.add, F32.mul, F32.sub.
  repeat apply SFadd_nonneg; apply SFmul_self_nonneg, SFsub_finite; assumption.
Qed.

Lemma euclid_diag (p : row) : euclid p p = F32.zero \/ euclid p p = S754_nan.
Proof.
  unfold euclid, sq_euclid, sqr, F32.sub.
  destruct (SFsub_diag F32.prec F32.emax p.1.1) as [-> | ->];
    destruct (SFsub_diag F32.prec F32.emax p.1.2) as [-> | ->];
    destruct (SFsub_diag F32.prec F32.emax p.2) as [-> | ->]; auto.
Qed.

(** ** The running maximum *)

Lemma SFleb_refl (x : float) : is_nan x = false -> SFleb x x = true.
Proof.
  unfold SFleb.
  destruct x as [[]|[]| |[] m e]; simpl; try congruence; intros _;
    rewrite Z.compare_refl; change (Pos.compare_cont Eq m m) with (Pos.compare m m);
    rewrite Pos.compare_refl; reflexivity.
Qed.

Lemma SFleb_trans (x y z : float) :
  SFleb x y = true -> SFleb y z = true -> SFleb x z = true.
Proof.
  unfold SFleb.
  destruct x as [[]|[]| |[] mx ex], y as [[]|[]| |[] my ey], z as [[]|[]| |[] mz ez];
    simpl; try congruence; intros H1 H2;
    order_cases; cbn [CompOpp] in *; subst; try congruence; try lia.
Qed.

Lemma SFltb_leb (x y : float) : SFltb x y = true -> SFleb x y = true.
Proof. unfold SFltb, SFleb. destruct (SFcompare x y) as [[]|]; congruence. Qed.

Lemma SFltb_not_nan (x y : float) : SFltb x y = true -> is_nan y = false.
Proof.
  unfold SFltb. destruct x as [[]|[]| |[] mx ex], y as [[]|[]| |[] my ey]; simpl; congruence.
Qed.

Lemma SFltb_false_leb (x y : float) :
  is_nan x = false -> is_nan y = false -> SFltb x y = false -> SFleb y x = true.
Proof.
  unfold SFltb, SFleb. rewrite (SFcompare_antisym x y).
  destruct x as [[]|[]| |[] mx ex], y as [[]|[]| |[] my ey]; simpl; try congruence;
    intros _ _; order_cases; cbn [CompOpp]; congruence.
Qed.

Lemma SFleb_antisym (x y : float) :
  nonneg x = true -> nonneg y = true ->
  SFleb x y = true -> SFleb y x = true -> x = y.
Proof.
  intros Hx Hy. unfold SFleb. rewrite (SFcompare_antisym x y).
  destruct (SFcompare x y) as [[]|] eqn:Hc; simpl; try congruence.
  intros _ _. apply SFcompare_Eq_nonneg; assumption.
Qed.

Lemma SFleb_zero_nonneg (x : float) : nonneg x = true -> SFleb F32.zero x = true.
Proof.
  destruct x as [[]|[]| |[] m e]; simpl; intros H; try discriminate H; reflexivity.
Qed.

Lemma SFleb_nonneg_zero (x : float) :
  nonneg x = true -> SFleb x F32.zero = true -> x = F32.zero.
Proof.
  destruct x as [[]|[]| |[] m e]; simpl; intros H; try discriminate H;
    unfold SFleb; simpl; intros H'; try discriminate H'; reflexivity.
Qed.

Lemma max_step_nonneg (m d : float) :
  nonneg m = true -> nonneg_or_nan d = true -> nonneg (max_step m d) = true.
Proof.
  intros Hm Hd. unfold max_step, F32.ltb.
  destruct (SFltb m d) eqn:Hlt; [|exact Hm].
  apply nonneg_or_nan_cases; [exact Hd|]. eapply SFltb_not_nan, Hlt.
Qed.

(** The fold of [max_step] over distances returns the start value or one
    of them, and nothing in the list is above it. *)
Lemma fold_max_step (D : list float) (m0 : float) :
  nonneg m0 = true ->
  Forall (fun d => nonneg_or_nan d = true) D ->
  let m := fold_left max_step D m0 in
  nonneg m = true /\ (m = m0 \/ m ∈ D) /\ SFleb m0 m = true /\
  (forall d, d ∈ D -> is_nan d = false -> SFleb d m = true).
Proof.
  revert m0. induction D as [|d D IH]; intros m0 Hm0 HD; simpl.
  - repeat split; auto.
    + apply SFleb_refl, nonneg_not_nan, Hm0.
    + intros d Hd. inversion Hd.
  - inversion HD as [|? ? Hd HD']; subst.
    pose proof (max_step_nonneg m0 d Hm0 Hd) as Hm1.
    destruct (IH (max_step m0 d) Hm1 HD') as (Hm & Hin & Hle & Hub).
    assert (H01 : SFleb m0 (max_step m0 d) = true).
    { unfold max_step, F32.ltb. destruct (SFltb m0 d) eqn:Hlt.
      - apply SFltb_leb, Hlt.
      - apply SFleb_refl, nonneg_not_nan, Hm0. }
    assert (Hd1 : is_nan d = false -> SFleb d (max_step m0 d) = true).
    { intros Hn. unfold max_step, F32.ltb. destruct (SFltb m0 d) eqn:Hlt.
      - apply SFleb_refl, Hn.
      - apply SFltb_false_leb; auto using nonneg_not_nan. }
    repeat split.
    + exact Hm.
    + destruct Hin as [-> | Hin].
      * unfold max_step. destruct (F32.ltb m0 d); [right; left | left]; reflexivity.
      * right. right. exact Hin.
    + eapply SFleb_trans; eassumption.
    + intros d' Hd' Hn. apply elem_of_cons in Hd' as [-> | Hd'].
      * eapply SFleb_trans; [apply Hd1, Hn | exact Hle].
      * apply Hub; assumption.
Qed.

(** ** The pairs that [calMaxDistance] visits *)

Lemma fold_left_fmap {A B C} (g : C -> B -> C) (h : A -> B) (l : list A) (c : C) :
  fold_left (fun c a => g c (h a)) l c = fold_left g (h <$> l) c.
Proof. revert c. induction l as [|a l IH]; intros c; [reflexivity|]. simpl. apply IH. Qed.

Lemma fold_left_pairs {A B C} (g : C -> B -> C) (h : A -> A -> B)
    (l1 l2 : list A) (c : C) :
  fold_left (fun c a => fold_left (fun c b => g c (h a b)) l2 c) l1 c =
  fold_left g (a ← l1; h a <$> l2) c.
Proof.
  revert c. induction l1 as [|a l1 IH]; intros c; [reflexivity|].
  simpl. rewrite fold_left_app, <- fold_left_fmap. apply IH.
Qed.

Lemma scan_fold (atoms : list row) :
  scan atoms = fold_left max_step (pair_distances atoms) F32.zero.
Proof. apply fold_left_pairs. Qed.

Lemma elem_of_pair_distances (atoms : list row) (d : float) :
  d ∈ pair_distances atoms <->
  exists i j a b, (i < length atoms - 1) /\ (1 <= j) /\
                  atoms !! i = Some a /\ atoms !! j = Some b /\ d = euclid a b.
Proof.
  unfold pair_distances. rewrite list_elem_of_bind. split.
  - intros (a & Hd & Ha).
    apply list_elem_of_fmap in Hd as (b & -> & Hb).
    apply list_elem_of_lookup in Ha as (i & Hi).
    apply list_elem_of_lookup in Hb as (j & Hj).
    rewrite lookup_drop in Hj.
    pose proof (lookup_lt_Some _ _ _ Hi) as Hlt. rewrite length_take in Hlt.
    rewrite lookup_take_lt in Hi by lia.
    exists i, (1 + j), a, b. repeat split; auto; lia.
  - intros (i & j & a & b & Hi & Hj & Ha & Hb & ->).
    exists a. split.
    + apply list_elem_of_fmap. exists b. split; [reflexivity|].
      apply list_elem_of_lookup. exists (j - 1).
      rewrite lookup_drop. replace (1 + (j - 1)) with j by lia. exact Hb.
    + apply list_elem_of_lookup. exists i. rewrite lookup_take_lt by lia. exact Ha.
Qed.

Lemma pair_distances_nonneg_or_nan (atoms : list row) :
  Forall (fun d => nonneg_or_nan d = true) (pair_distances atoms).
Proof.
  apply Forall_forall. intros d Hd.
  apply elem_of_pair_distances in Hd as (i & j & a & b & _ & _ & _ & _ & ->).
  apply euclid_nonneg_or_nan.
Qed.

Lemma scan_pair_max (atoms : list row) : pair_max atoms (scan atoms).
Proof.
  rewrite scan_fold.
  destruct (fold_max_step (pair_distances atoms) F32.zero eq_refl
              (pair_distances_nonneg_or_nan atoms)) as (Hm & Hin & _ & Hub).
  set (m := fold_left max_step (pair_distances atoms) F32.zero) in *.
  split; [exact Hm|]. split.
  - destruct Hin as [Hin | Hin]; [left; exact Hin|].
    apply elem_of_pair_distances in Hin as (i & j & a & b & Hi & Hj & Ha & Hb & Hd).
    destruct (decide (i = j)) as [-> | Hne].
    + left. assert (a = b) as -> by congruence.
      destruct (euclid_diag b) as [H0 | Hnan]; [congruence|].
      rewrite Hd, Hnan in Hm. discriminate.
    + right. exists i, j, a, b. auto.
  - intros i j a b Hne Ha Hb Hn.
    pose proof (lookup_lt_Some _ _ _ Ha) as Hi.
    pose proof (lookup_lt_Some _ _ _ Hb) as Hj.
    destruct (decide (i < j)) as [Hlt | Hge].
    + apply Hub; [|exact Hn].
      apply elem_of_pair_distances. exists i, j, a, b. repeat split; auto; lia.
    + rewrite euclid_comm in Hn |- *. apply Hub; [|exact Hn].
      apply elem_of_pair_distances. exists j, i, b, a. repeat split; auto; lia.
Qed.

Lemma pair_max_unique (atoms : list row) (m1 m2 : float) :
  pair_max atoms m1 -> pair_max atoms m2 -> m1 = m2.
Proof.
  assert (Hle : forall m m', pair_max atoms m -> pair_max atoms m' -> SFleb m m' = true).
  { intros m m' (Hm & Hin & _) (Hm' & _ & Hub').
    destruct Hin as [-> | (i & j & a & b & Hne & Ha & Hb & ->)].
    - apply SFleb_zero_nonneg, Hm'.
    - apply (Hub' i j a b); auto using nonneg_not_nan. }
  intros H1 H2. apply SFleb_antisym; auto; [apply H1 | apply H2].
Qed.

Lemma pair_max_perm (l1 l2 : list row) (m : float) :
  l1 ≡ₚ l2 -> pair_max l1 m -> pair_max l2 m.
Proof.
  intros Hp (Hm & Hin & Hub).
  pose proof (proj1 (Permutation_inj l1 l2) Hp) as (_ & f & Hf & Hl).
  symmetry in Hp.
  pose proof (proj1 (Permutation_inj l2 l1) Hp) as (_ & g & Hg & Hl').
  split; [exact Hm|]. split.
  - destruct Hin as [-> | (i & j & a & b & Hne & Ha & Hb & ->)]; [left; reflexivity|].
    right. exists (f i), (f j), a, b. rewrite <- !Hl.
    split; [intros Heq; apply Hne, Hf, Heq|]. auto.
  - intros i j a b Hne Ha Hb Hn. apply (Hub (g i) (g j)); [| | |exact Hn].
    + intros Heq. apply Hne, Hg, Heq.
    + rewrite <- Hl'. exact Ha.
    + rewrite <- Hl'. exact Hb.
Qed.

Lemma scan_perm (l1 l2 : list row) : l1 ≡ₚ l2 -> scan l1 = scan l2.
Proof.
  intros Hp. apply (pair_max_unique l2).
  - apply (pair_max_perm l1); [exact Hp | apply scan_pair_max].
  - apply scan_pair_max.
Qed.

Lemma scan_is_max_distance (atoms : list row) :
  2 <= length atoms -> Forall finite_row atoms -> is_max_distance atoms (scan atoms).
Proof.
  intros Hlen Hfin.
  destruct (scan_pair_max atoms) as (Hm & Hin & Hub).
  assert (Hnn : forall i j a b, atoms !! i = Some a -> atoms !! j = Some b ->
                nonneg (euclid a b) = true).
  { intros i j a b Ha Hb. apply euclid_finite.
    - eapply Forall_lookup_1; eassumption.
    - eapply Forall_lookup_1; eassumption. }
  assert (Hle : forall i j a b, (i < j)%nat -> atoms !! i = Some a -> atoms !! j = Some b ->
                SFleb (euclid a b) (scan atoms) = true).
  { intros i j a b Hlt Ha Hb. apply (Hub i j); auto; [lia|].
    eapply nonneg_not_nan, Hnn; eassumption. }
  split; [|exact Hle].
  destruct Hin as [H0 | (i & j & a & b & Hne & Ha & Hb & Hd)].
  - destruct (lookup_lt_is_Some_2 atoms 0) as [a Ha]; [lia|].
    destruct (lookup_lt_is_Some_2 atoms 1) as [b Hb]; [lia|].
    exists 0, 1, a, b. repeat split; auto.
    pose proof (Hle 0 1 a b ltac:(lia) Ha Hb) as H.
    rewrite H0 in H |- *. symmetry.
    apply SFleb_nonneg_zero; [|exact H]. eapply Hnn; eassumption.
  - destruct (decide (i < j)) as [Hlt | Hge].
    + exists i, j, a, b. auto.
    + exists j, i, b, a. rewrite euclid_comm. repeat split; auto. lia.
Qed.

(** ** C strings *)

Lemma code_inj (c1 c2 : ascii) : code c1 = code c2 -> c1 = c2.
Proof.
  unfold code. intros H. apply Nat2Z.inj in H.
  rewrite <- (ascii_nat_embedding c1), <- (ascii_nat_embedding c2), H. reflexivity.
Qed.

Lemma c_str_app_nul (s rest : list ascii) :
  c_str (s ++ END_OF_STRING :: rest) = c_str s.
Proof.
  induction s as [|c s IH]; simpl; [reflexivity|].
  destruct (Ascii.eqb c END_OF_STRING); [reflexivity|]. rewrite IH. reflexivity.
Qed.

Lemma c_str_prefix (buf : list ascii) : exists rest, buf = c_str buf ++ rest.
Proof.
  induction buf as [|c buf [rest IH]]; simpl.
  - exists []. reflexivity.
  - destruct (Ascii.eqb c END_OF_STRING).
    + exists (c :: buf). reflexivity.
    + exists rest. simpl. rewrite <- IH. reflexivity.
Qed.

Lemma c_str_no_nul (buf : list ascii) : Forall (fun c => c <> END_OF_STRING) (c_str buf).
Proof.
  induction buf as [|c buf IH]; simpl; [constructor|].
  destruct (Ascii.eqb_spec c END_OF_STRING); constructor; assumption.
Qed.

Lemma c_str_idemp (buf : list ascii) : c_str (c_str buf) = c_str buf.
Proof.
  induction buf as [|c buf IH]; simpl; [reflexivity|].
  destruct (Ascii.eqb c END_OF_STRING) eqn:E; simpl; [reflexivity|].
  rewrite E, IH. reflexivity.
Qed.

(** [strncmp] reads its first argument as a string. *)
Lemma strncmp_c_str (s p : list ascii) (n : nat) :
  strncmp (c_str s) p n = strncmp s p n.
Proof.
  revert s p. induction n as [|n IH]; intros s p; [reflexivity|].
  destruct s as [|c s]; [reflexivity|]. simpl c_str.
  destruct (Ascii.eqb c END_OF_STRING) eqn:E.
  - apply Ascii.eqb_eq in E. subst c. simpl.
    destruct (Ascii.eqb END_OF_STRING (hd END_OF_STRING p)); reflexivity.
  - simpl. rewrite E.
    destruct (Ascii.eqb c (hd END_OF_STRING p)); [apply IH | reflexivity].
Qed.

(** Comparing with a string [p] over its whole length tells whether [p]
    starts the string. *)
Lemma strncmp_prefix (p s : list ascii) :
  Forall (fun c => c <> END_OF_STRING) p ->
  strncmp s p (length p) = 0%Z <-> take (length p) (c_str s) = p.
Proof.
  intros Hp. revert s. induction Hp as [|c p Hc Hp IH]; intros s.
  - simpl. rewrite take_0. tauto.
  - simpl length. simpl strncmp.
    destruct s as [|c1 s]; simpl hd; simpl tl.
    + destruct (Ascii.eqb_spec END_OF_STRING c) as [E|E]; [congruence|].
      simpl. split; [|discriminate].
      intros H. exfalso. apply E, code_inj. lia.
    + simpl c_str. destruct (Ascii.eqb_spec c1 c) as [->|E].
      * destruct (Ascii.eqb_spec c END_OF_STRING) as [E'|E']; [congruence|].
        simpl. rewrite IH. split; [intros ->; reflexivity | congruence].
      * split.
        -- intros H. exfalso. apply E, code_inj. lia.
        -- destruct (Ascii.eqb c1 END_OF_STRING); simpl; congruence.
Qed.

Lemma startsWith_cases (line : list ascii) : startsWith line = 1%Z \/ startsWith line = 0%Z.
Proof. unfold startsWith. destruct (_ =? _)%Z; auto. Qed.

Lemma startsWith_prefix (line : list ascii) :
  startsWith line = 1%Z <-> take LINE_STARTER_LEN (c_str line) = LINE_STARTER.
Proof.
  rewrite <- (strncmp_prefix LINE_STARTER line).
  - unfold startsWith. change (length LINE_STARTER) with LINE_STARTER_LEN.
    destruct (Z.eqb_spec (strncmp line LINE_STARTER LINE_STARTER_LEN) 0);
      split; congruence.
  - repeat constructor; discriminate.
Qed.

Lemma startsWith_c_str (line : list ascii) : startsWith (c_str line) = startsWith line.
Proof. unfold startsWith. rewrite strncmp_c_str. reflexivity. Qed.

(** Inside the string of a buffer, [memcpy] copies characters of the
    string. *)
Lemma memcpy_from_c_str (buf : list ascii) (off len : nat) :
  off + len <= strlen buf ->
  memcpy_from buf off len = take len (drop off (c_str buf)).
Proof.
  unfold memcpy_from, strlen. intros H.
  destruct (c_str_prefix buf) as [rest Hb]. rewrite Hb at 1.
  rewrite drop_app_le by lia. rewrite take_app_le; [reflexivity|].
  rewrite length_drop. lia.
Qed.

(** ** [getFloat] *)

Lemma F32_eqb_zero (x : float) : F32.eqb x (F32.of_int 0) = is_zero x.
Proof. destruct x as [[]|[]| |[] m e]; reflexivity. Qed.

Lemma getFloat_eq (strtof : list ascii -> strtof_result) (input : list ascii) :
  getFloat strtof input =
    if conversion_fails (strtof input)
    then ([PrintConversionError (c_str input)], Exit EXIT_FAILURE)
    else ret (sr_value (strtof input)).
Proof.
  unfold getFloat, conversion_fails. rewrite F32_eqb_zero.
  destruct (is_zero _ && _); reflexivity.
Qed.

(** [getFloat] prints at most its error, and only when it leaves. *)
Lemma getFloat_cases (strtof : list ascii -> strtof_result) (input : list ascii) :
  (exists x, getFloat strtof input = ret x) \/
  getFloat strtof input = ([PrintConversionError (c_str input)], Exit EXIT_FAILURE).
Proof. rewrite getFloat_eq. destruct (conversion_fails _); eauto. Qed.

(** ** [parseLine] *)

Lemma store_Some (fileAtoms : list row) (i k : nat) (v : float) (r : row) :
  fileAtoms !! i = Some r ->
  store fileAtoms i k v = ret (<[i := row_set k v r]> fileAtoms).
Proof. intros H. unfold store. rewrite H. reflexivity. Qed.

Lemma store_None (fileAtoms : list row) (i k : nat) (v : float) :
  length fileAtoms <= i -> store fileAtoms i k v = undefined.
Proof. intros H. unfold store. rewrite lookup_ge_None_2 by lia. reflexivity. Qed.

(** Within the array, the three stores of [parseLine] amount to writing
    the row. *)
Lemma parseLine_in_bounds (strtof : list ascii -> strtof_result)
    (fileLine : list ascii) (atomCounter : nat) (fileAtoms : list row) :
  atomCounter < length fileAtoms ->
  parseLine strtof fileLine atomCounter fileAtoms =
    (x <- getFloat strtof (memcpy_from fileLine 30 COORDINATE_LEN ++ [END_OF_STRING]) ;;
     y <- getFloat strtof (memcpy_from fileLine 38 COORDINATE_LEN ++ [END_OF_STRING]) ;;
     z <- getFloat strtof (memcpy_from fileLine 46 COORDINATE_LEN ++ [END_OF_STRING]) ;;
     ret (<[atomCounter := (x, y, z)]> fileAtoms)).
Proof.
  intros Hlt. destruct (lookup_lt_is_Some_2 fileAtoms atomCounter Hlt) as [r Hr].
  unfold parseLine. apply bind_ext. intros x.
  rewrite (store_Some _ _ _ _ _ Hr), bind_ret_l. apply bind_ext. intros y.
  rewrite (store_Some _ _ _ _ (row_set 0 x r)), bind_ret_l
    by (apply list_lookup_insert_eq, Hlt).
  apply bind_ext. intros z.
  rewrite (store_Some _ _ _ _ (row_set 1 y (row_set 0 x r)))
    by (apply list_lookup_insert_eq; rewrite length_insert; exact Hlt).
  rewrite !list_insert_insert_eq. destruct r as [[rx ry] rz]. reflexivity.
Qed.

(** Past the array, the first store is out of bounds, unless the first
    conversion has already left the program. *)
Lemma parseLine_out_of_bounds (strtof : list ascii -> strtof_result)
    (fileLine : list ascii) (atomCounter : nat) (fileAtoms : list row) :
  length fileAtoms <= atomCounter ->
  parseLine strtof fileLine atomCounter fileAtoms =
    (getFloat strtof (memcpy_from fileLine 30 COORDINATE_LEN ++ [END_OF_STRING]) ;;
     undefined).
Proof.
  intros Hge. unfold parseLine. apply bind_ext. intros x.
  rewrite store_None by exact Hge. reflexivity.
Qed.

(** ** The body of the reading loop *)

Section Reading.
Variable strtof : list ascii -> strtof_result.

Lemma line_body_skip (fileLine : list ascii) (atomCounter : nat) (fileAtoms : list row) :
  startsWith fileLine = 0%Z ->
  line_body strtof fileLine atomCounter fileAtoms = ret (atomCounter, fileAtoms).
Proof. intros H. unfold line_body. rewrite H. reflexivity. Qed.

Lemma line_body_short (fileLine : list ascii) (atomCounter : nat) (fileAtoms : list row) :
  startsWith fileLine = 1%Z -> strlen fileLine <= MIN_LINE_LEN ->
  line_body strtof fileLine atomCounter fileAtoms =
    ([PrintTooShort (strlen fileLine)], Exit EXIT_FAILURE).
Proof.
  intros H Hlen. unfold line_body. rewrite H. simpl negb. cbv iota.
  destruct (Nat.ltb_spec MIN_LINE_LEN (strlen fileLine)); [lia|]. reflexivity.
Qed.

Lemma line_body_parse (fileLine : list ascii) (atomCounter : nat) (fileAtoms : list row) :
  startsWith fileLine = 1%Z -> MIN_LINE_LEN < strlen fileLine ->
  line_body strtof fileLine atomCounter fileAtoms =
    (fileAtoms <- parseLine strtof fileLine atomCounter fileAtoms ;;
     ret (S atomCounter, fileAtoms)).
Proof.
  intros H Hlen. unfold line_body. rewrite H. simpl negb. cbv iota.
  destruct (Nat.ltb_spec MIN_LINE_LEN (strlen fileLine)); [|lia]. reflexivity.
Qed.

(** The fields of a line that is long enough are read in its string. *)
Lemma parseLine_coordinates (fileLine : list ascii) (atomCounter : nat)
    (fileAtoms : list row) :
  MIN_LINE_LEN < strlen fileLine ->
  atomCounter < length fileAtoms ->
  parseLine strtof fileLine atomCounter fileAtoms =
    (x <- getFloat strtof (coordinate fileLine 30) ;;
     y <- getFloat strtof (coordinate fileLine 38) ;;
     z <- getFloat strtof (coordinate fileLine 46) ;;
     ret (<[atomCounter := (x, y, z)]> fileAtoms)).
Proof.
  intros Hlen Hlt. rewrite parseLine_in_bounds by exact Hlt.
  unfold coordinate, MIN_LINE_LEN, COORDINATE_LEN in *.
  rewrite !memcpy_from_c_str by lia. reflexivity.
Qed.

Lemma parseLine_overflow (fileLine : list ascii) (atomCounter : nat)
    (fileAtoms : list row) :
  MIN_LINE_LEN < strlen fileLine ->
  length fileAtoms <= atomCounter ->
  parseLine strtof fileLine atomCounter fileAtoms =
    (getFloat strtof (coordinate fileLine 30) ;; undefined).
Proof.
  intros Hlen Hge. rewrite parseLine_out_of_bounds by exact Hge.
  unfold coordinate, MIN_LINE_LEN, COORDINATE_LEN in *.
  rewrite !memcpy_from_c_str by lia. reflexivity.
Qed.

(** The body depends on the buffer through its string only. *)
Lemma line_body_c_str (l1 l2 : list ascii) (atomCounter : nat) (fileAtoms : list row) :
  c_str l1 = c_str l2 ->
  line_body strtof l1 atomCounter fileAtoms = line_body strtof l2 atomCounter fileAtoms.
Proof.
  intros Heq.
  assert (Hs : startsWith l1 = startsWith l2)
    by (rewrite <- (startsWith_c_str l1), Heq; apply startsWith_c_str).
  assert (Hl : strlen l1 = strlen l2) by (unfold strlen; rewrite Heq; reflexivity).
  destruct (startsWith_cases l1) as [H1 | H0].
  - destruct (decide (MIN_LINE_LEN < strlen l1)) as [Hlen | Hlen].
    + rewrite !line_body_parse by congruence.
      destruct (decide (atomCounter < length fileAtoms)) as [Hlt | Hge].
      * rewrite !parseLine_coordinates by (auto; congruence).
        unfold coordinate. rewrite Heq. reflexivity.
      * rewrite !parseLine_overflow by (try lia; congruence).
        unfold coordinate. rewrite Heq. reflexivity.
    + rewrite !line_body_short by (try lia; congruence). rewrite Hl. reflexivity.
  - rewrite !line_body_skip by congruence. reflexivity.
Qed.
End Reading.

(** ** [fgets] and the lines of a file *)

Lemma read_chars_spec (n : nat) (s : list ascii) :
  s = (read_chars n s).1.1 ++ (read_chars n s).1.2 /\
  ((read_chars n s).2 = true -> (read_chars n s).1.2 = []) /\
  ((read_chars n s).1.1 = [] -> n = 0 \/ s = []) /\
  ((read_chars n s).2 = false -> (read_chars n s).1.1 = [] -> n = 0).
Proof.
  revert s. induction n as [|n IH]; intros s; simpl.
  - repeat split; auto; discriminate.
  - destruct s as [|c s]; simpl.
    + repeat split; auto; discriminate.
    + destruct (Ascii.eqb c newline); simpl.
      * repeat split; auto; discriminate.
      * specialize (IH s). destruct (read_chars n s) as [[chunk rest] hit]. simpl in *.
        destruct IH as (H1 & H2 & H3 & H4).
        repeat split; auto; try discriminate. congruence.
Qed.

Lemma fgets_spec (buf : list ascii) (fp : FILE) :
  match fgets [] MAX_LINE fp with
  | (None, fp0) =>
      fgets buf MAX_LINE fp = (None, fp0) /\ eof fp0 = negb (read_error fp)
  | (Some l0, fp0) =>
      exists l, fgets buf MAX_LINE fp = (Some l, fp0) /\ c_str l = c_str l0 /\
                length (unread fp0) < length (unread fp) /\
                read_error fp0 = read_error fp
  end.
Proof.
  unfold fgets.
  pose proof (read_chars_spec (MAX_LINE - 1) (unread fp)) as (H1 & H2 & H3 & H4).
  destruct (read_chars (MAX_LINE - 1) (unread fp)) as [[chunk rest] hit]. simpl in *.
  assert (Hc : forall b, c_str (fill chunk b) = c_str chunk)
    by (intros b; apply c_str_app_nul).
  destruct hit.
  - destruct (read_error fp) eqn:He; [split; reflexivity|].
    destruct chunk as [|c chunk]; [split; reflexivity|].
    eexists. split; [reflexivity|]. rewrite !Hc. repeat split; auto.
    rewrite H1, length_app. simpl. lia.
  - eexists. split; [reflexivity|]. rewrite !Hc. repeat split; auto.
    rewrite H1, length_app. simpl.
    destruct chunk as [|c chunk]; simpl; [|lia].
    specialize (H4 eq_refl eq_refl). discriminate.
Qed.

Section ReadLines.
Variable strtof : list ascii -> strtof_result.

(** The loop of [main] runs the body on the lines of the file; where it
    stops and what the buffer holds then do not depend on the atoms. *)
Lemma read_lines_run_lines (fuel : nat) (fp : FILE) (fileLine : list ascii) :
  length (unread fp) < fuel ->
  exists fp' fileLine',
    eof fp' = negb (read_error fp) /\
    forall atomCounter fileAtoms,
      read_lines strtof fuel (mk_reader fp fileLine atomCounter fileAtoms) =
        (p <- run_lines strtof (file_lines fuel fp) atomCounter fileAtoms ;;
         ret (mk_reader fp' fileLine' p.1 p.2)).
Proof.
  revert fp fileLine. induction fuel as [|fuel IH]; intros fp fileLine Hfuel; [lia|].
  simpl read_lines. simpl file_lines.
  pose proof (fgets_spec fileLine fp) as Hf.
  destruct (fgets [] MAX_LINE fp) as [[l0|] fp0].
  - destruct Hf as (l & Hl & Hc & Hlen & Herr).
    destruct (IH fp0 l ltac:(lia)) as (fp' & fileLine' & Heof & Heq).
    exists fp', fileLine'. split; [congruence|].
    intros atomCounter fileAtoms. simpl. rewrite Hl.
    rewrite (line_body_c_str strtof l (c_str l0)) by (rewrite c_str_idemp; exact Hc).
    rewrite bind_assoc. apply bind_ext. intros p. apply Heq.
  - destruct Hf as (Hl & Heof).
    exists fp0, fileLine. split; [exact Heof|].
    intros atomCounter fileAtoms. simpl. rewrite Hl. reflexivity.
Qed.
End ReadLines.

(** ** The reading loop as a list of rows *)

Section Collect.
Variable strtof : list ascii -> strtof_result.

Lemma parseLine_parse_record (fileLine : list ascii) (atomCounter : nat)
    (fileAtoms : list row) :
  MIN_LINE_LEN < strlen fileLine ->
  atomCounter < length fileAtoms ->
  parseLine strtof fileLine atomCounter fileAtoms =
    (r <- parse_record strtof fileLine ;; ret (<[atomCounter := r]> fileAtoms)).
Proof.
  intros Hlen Hlt. rewrite parseLine_coordinates by assumption.
  unfold parse_record. rewrite bind_assoc. apply bind_ext. intros x.
  rewrite bind_assoc. apply bind_ext. intros y.
  rewrite bind_assoc. apply bind_ext. intros z.
  rewrite bind_ret_l. reflexivity.
Qed.

Lemma take_S_insert (l : list row) (k : nat) (r : row) :
  k < length l -> take (S k) (<[k := r]> l) = take k l ++ [r].
Proof.
  intros H. rewrite (take_S_r _ _ r) by (apply list_lookup_insert_eq, H).
  rewrite take_insert_ge by lia. reflexivity.
Qed.

(** The loop appends to the first [atomCounter] rows the rows that the
    lines yield, and leaves the rest of the array as it was. *)
Lemma run_lines_collect (lines : list (list ascii)) (atomCounter : nat)
    (fileAtoms : list row) :
  atomCounter <= length fileAtoms ->
  run_lines strtof lines atomCounter fileAtoms =
    (rows <- collect strtof lines (length fileAtoms - atomCounter) ;;
     ret (atomCounter + length rows,
          take atomCounter fileAtoms ++ rows ++
          drop (atomCounter + length rows) fileAtoms)).
Proof.
  revert atomCounter fileAtoms.
  induction lines as [|line lines IH]; intros k atoms Hk.
  - simpl. rewrite bind_ret_l. simpl. rewrite Nat.add_0_r, take_drop. reflexivity.
  - simpl run_lines. simpl collect.
    destruct (startsWith_cases line) as [H1 | H0].
    + rewrite bool_decide_eq_true_2 by exact H1.
      destruct (decide (MIN_LINE_LEN < strlen line)) as [Hlen | Hlen].
      * rewrite bool_decide_eq_true_2 by exact Hlen.
        rewrite line_body_parse by assumption.
        destruct (length atoms - k) as [|room] eqn:Hroom.
        -- rewrite parseLine_overflow by (try lia; assumption).
           rewrite !bind_assoc. apply bind_ext. intros x. reflexivity.
        -- rewrite parseLine_parse_record by (try lia; assumption).
           rewrite !bind_assoc. apply bind_ext. intros r.
           rewrite !bind_ret_l. simpl. rewrite IH by (rewrite length_insert; lia).
           rewrite length_insert. replace (length atoms - S k) with room by lia.
           rewrite !bind_assoc. apply bind_ext. intros rows.
           rewrite bind_ret_l. simpl length.
           rewrite take_S_insert by lia.
           rewrite drop_insert_lt by lia.
           rewrite <- app_assoc. simpl. repeat f_equal; lia.
      * rewrite bool_decide_eq_false_2 by exact Hlen.
        rewrite line_body_short by (try lia; assumption). reflexivity.
    + rewrite bool_decide_eq_false_2 by (rewrite H0; discriminate).
      rewrite line_body_skip by exact H0. rewrite bind_ret_l. apply IH, Hk.
Qed.

Lemma parse_record_cases (line : list ascii) :
  (exists r, parse_record strtof line = ret r) \/
  (exists e, input_error e = true /\ parse_record strtof line = ([e], Exit EXIT_FAILURE)).
Proof.
  unfold parse_record.
  destruct (getFloat_cases strtof (coordinate line 30)) as [[x ->] | ->];
    [rewrite bind_ret_l | right; eexists; split; [|reflexivity]; reflexivity].
  destruct (getFloat_cases strtof (coordinate line 38)) as [[y ->] | ->];
    [rewrite bind_ret_l | right; eexists; split; [|reflexivity]; reflexivity].
  destruct (getFloat_cases strtof (coordinate line 46)) as [[z ->] | ->];
    [rewrite bind_ret_l | right; eexists; split; [|reflexivity]; reflexivity].
  left. eexists. reflexivity.
Qed.

Lemma collect_collected (lines : list (list ascii)) (room : nat) :
  collected room (collect strtof lines room).
Proof.
  revert room. induction lines as [|line lines IH]; intros room; simpl.
  - apply collected_rows. simpl. lia.
  - destruct (bool_decide (startsWith line = 1%Z)); [|apply IH].
    destruct (bool_decide (MIN_LINE_LEN < strlen line)).
    + destruct room as [|room].
      * destruct (getFloat_cases strtof (coordinate line 30)) as [[x ->] | ->].
        -- rewrite bind_ret_l. apply collected_overflow.
        -- apply collected_error. reflexivity.
      * destruct (parse_record_cases line) as [[r ->] | (e & He & ->)].
        -- rewrite bind_ret_l. destruct (IH room) as [rows Hrows | e He |].
           ++ rewrite bind_ret_l. apply collected_rows. simpl. lia.
           ++ apply collected_error, He.
           ++ apply collected_overflow.
        -- apply collected_error, He.
    + apply collected_error. reflexivity.
Qed.
End Collect.

(** ** One file *)

Section ProcessFile.
Variable strtof : list ascii -> strtof_result.

Lemma feof_eqb (fp : FILE) : (feof fp =? 0)%Z = negb (eof fp).
Proof. unfold feof. destruct (eof fp); reflexivity. Qed.

Lemma bind_log_ok {A B} (log : list event) (a : A) (f : A -> M B) :
  bind (log, Ok a) f = (log ++ (f a).1, (f a).2).
Proof. unfold bind. destruct (f a). reflexivity. Qed.

(** The statistics of an array whose first rows are [rows]. *)
Lemma statistics_report {A} (name : string) (rows rest : list row) (a : A) :
  (printf (PrintHeader name (length rows)) ;;
   gravityCenter <- calCenterOfGravity (length rows) (rows ++ rest) ;;
   calRotationRadious (length rows) (rows ++ rest) gravityCenter ;;
   calMaxDistance (length rows) (rows ++ rest) ;;
   ret a) = (report name rows, Ok a).
Proof.
  assert (Hlen : length rows <= length (rows ++ rest)) by (rewrite length_app; lia).
  unfold printf. rewrite bind_log_ok.
  rewrite calCenterOfGravity_eq by exact Hlen. cbv zeta. rewrite bind_log_ok.
  rewrite calRotationRadious_eq by exact Hlen. rewrite bind_log_ok.
  rewrite calMaxDistance_eq by exact Hlen. rewrite bind_log_ok.
  rewrite take_app_length. reflexivity.
Qed.

(** A file is processed by collecting its rows at the start of the array
    and printing their statistics; the line buffer it leaves does not
    depend on the array. *)
Lemma process_file_collect (name : string) (fp : FILE) (fileLine : list ascii) :
  exists fileLine',
    forall fileAtoms,
      process_file strtof name fp fileLine fileAtoms =
        (rows <- collect strtof (lines_of fp) (length fileAtoms) ;;
         if read_error fp || (length rows =? 0)
         then printf (PrintZeroAtoms name) ;; return_from_main 1%Z
         else (report name rows, Ok (fileLine', rows ++ drop (length rows) fileAtoms))).
Proof.
  destruct (read_lines_run_lines strtof (S (length (unread fp))) fp fileLine
              ltac:(lia)) as (fp' & fileLine' & Heof & Heq).
  exists fileLine'. intros fileAtoms.
  unfold process_file. rewrite Heq, run_lines_collect by lia.
  rewrite Nat.sub_0_r. fold (lines_of fp).
  destruct (collect_collected strtof (lines_of fp) (length fileAtoms))
    as [rows Hrows | e He |]; try reflexivity.
  rewrite !bind_ret_l. cbn [r_fp r_atomCounter r_fileAtoms r_fileLine fst snd].
  rewrite feof_eqb, Heof, negb_involutive, take_0. simpl.
  destruct (read_error fp || (length rows =? 0)); [reflexivity|].
  rewrite <- (statistics_report name rows (drop (length rows) fileAtoms)).
  reflexivity.
Qed.

(** The ways a file can end. *)
Lemma process_file_outcome (name : string) (fp : FILE) (fileLine : list ascii)
    (fileAtoms : list row) :
  (exists rows fileLine',
     rows <> [] /\ length rows <= length fileAtoms /\ read_error fp = false /\
     collect strtof (lines_of fp) (length fileAtoms) = ret rows /\
     process_file strtof name fp fileLine fileAtoms =
       (report name rows, Ok (fileLine', rows ++ drop (length rows) fileAtoms))) \/
  process_file strtof name fp fileLine fileAtoms = ([PrintZeroAtoms name], Exit 1%Z) \/
  (exists e, input_error e = true /\
     process_file strtof name fp fileLine fileAtoms = ([e], Exit EXIT_FAILURE)) \/
  (collect strtof (lines_of fp) (length fileAtoms) = ([], Undefined) /\
   process_file strtof name fp fileLine fileAtoms = ([], Undefined)).
Proof.
  destruct (process_file_collect name fp fileLine) as (fileLine' & Heq).
  rewrite Heq.
  destruct (collect_collected strtof (lines_of fp) (length fileAtoms))
    as [rows Hrows | e He |].
  - rewrite bind_ret_l.
    destruct (read_error fp) eqn:Herr; [right; left; reflexivity|].
    destruct rows as [|r rows]; [right; left; reflexivity|].
    left. exists (r :: rows), fileLine'. repeat split; auto.
  - right. right. left. exists e. split; [exact He | reflexivity].
  - right. right. right. split; reflexivity.
Qed.

(** The array keeps its length. *)
Lemma process_file_length (name : string) (fp : FILE) (fileLine : list ascii)
    (fileAtoms : list row) (log : list event) (buffers : list ascii * list row) :
  process_file strtof name fp fileLine fileAtoms = (log, Ok buffers) ->
  length buffers.2 = length fileAtoms.
Proof.
  destruct (process_file_outcome name fp fileLine fileAtoms)
    as [(rows & fileLine' & _ & Hlen & _ & _ & ->) | [-> | [(e & _ & ->) | [_ ->]]]];
    intros H; inversion H; subst.
  simpl. rewrite length_app, length_drop. lia.
Qed.

(** What a file prints and how it ends do not depend on what the buffers
    hold when it is opened. *)
Lemma process_file_observe (name : string) (fp : FILE) (fileLine1 fileLine2 : list ascii)
    (fileAtoms1 fileAtoms2 : list row) :
  length fileAtoms1 = length fileAtoms2 ->
  observe (process_file strtof name fp fileLine1 fileAtoms1) =
  observe (process_file strtof name fp fileLine2 fileAtoms2).
Proof.
  intros Hlen.
  destruct (process_file_collect name fp fileLine1) as (l1 & ->).
  destruct (process_file_collect name fp fileLine2) as (l2 & ->).
  rewrite Hlen.
  destruct (collect strtof (lines_of fp) (length fileAtoms2)) as [log [rows|s| |]];
    try reflexivity.
  unfold bind, observe.
  destruct (read_error fp || (length rows =? 0)); reflexivity.
Qed.

(** Buffers left by earlier files are as good as new ones. *)
Lemma process_files_fresh_eq (fs : gmap string (list ascii * bool)) (names : list string)
    (fileLine : list ascii) (fileAtoms : list row) :
  length fileAtoms = MAX_ATOMS ->
  process_files strtof fs names fileLine fileAtoms = process_files_fresh strtof fs names.
Proof.
  revert fileLine fileAtoms. induction names as [|name names IH];
    intros fileLine fileAtoms Hlen; [reflexivity|].
  cbn [process_files process_files_fresh].
  destruct (fopen fs name) as [fp|]; [|reflexivity].
  pose proof (process_file_observe name fp fileLine (replicate MAX_LINE END_OF_STRING)
                fileAtoms (replicate MAX_ATOMS zero_row)) as Hobs.
  rewrite length_replicate in Hobs. specialize (Hobs Hlen).
  pose proof (process_file_length name fp fileLine fileAtoms) as Hl.
  destruct (process_file strtof name fp fileLine fileAtoms) as [log1 r1].
  destruct (process_file strtof name fp _ (replicate MAX_ATOMS zero_row)) as [log2 r2].
  unfold observe in Hobs. simpl in Hobs.
  destruct r1 as [b1|s1| |], r2 as [b2|s2| |]; inversion Hobs; subst; try reflexivity.
  unfold bind. rewrite IH; [reflexivity|].
  rewrite (Hl log2 b1 eq_refl). exact Hlen.
Qed.

(** The fuel given to the reading loop is enough. *)
Lemma process_file_fuel (name : string) (fp : FILE) (fileLine : list ascii)
    (fileAtoms : list row) :
  (process_file strtof name fp fileLine fileAtoms).2 <> OutOfFuel.
Proof.
  destruct (process_file_outcome name fp fileLine fileAtoms)
    as [(rows & fileLine' & _ & _ & _ & _ & ->) | [-> | [(e & _ & ->) | [_ ->]]]];
    discriminate.
Qed.

(** A run ends with an exit status or in undefined behaviour. *)
Lemma main_ends (argv : list string) (fs : gmap string (list ascii * bool)) :
  exists log, (exists status, main strtof argv fs = (log, Exit status)) \/
              main strtof argv fs = (log, Undefined).
Proof.
  unfold main. destruct (length argv <? MIN_ARGS); [eexists; left; eexists; reflexivity|].
  rewrite process_files_fresh_eq by apply length_replicate.
  induction (tail argv) as [|name names IH]; cbn [process_files_fresh].
  - eexists. left. eexists. reflexivity.
  - destruct (fopen fs name) as [fp|]; [|eexists; left; eexists; reflexivity].
    destruct (process_file_outcome name fp (replicate MAX_LINE END_OF_STRING)
                (replicate MAX_ATOMS zero_row))
      as [(rows & fileLine' & _ & _ & _ & _ & ->) | [-> | [(e & _ & ->) | [_ ->]]]].
    + destruct IH as [log [[status ->] | ->]]; eexists; [left; eexists|right]; reflexivity.
    + eexists. left. eexists. reflexivity.
    + eexists. left. eexists. reflexivity.
    + eexists. right. reflexivity.
Qed.
End ProcessFile.

(** ** The rows of a file *)

Section Rows.
Variable strtof : list ascii -> strtof_result.

(** When collecting returns, the rows are the records of the lines, each
    converted, in the order of the lines. *)
Lemma collect_rows (lines : list (list ascii)) (room : nat) (rows : list row) :
  collect strtof lines room = ret rows ->
  rows = row_of strtof <$> filter (fun line => startsWith line = 1%Z) lines.
Proof.
  revert room rows. induction lines as [|line lines IH]; intros room rows; simpl.
  - intros H. inversion H. reflexivity.
  - rewrite filter_cons.
    destruct (decide (startsWith line = 1%Z)) as [H1 | H1].
    + rewrite bool_decide_eq_true_2 by exact H1.
      destruct (bool_decide (MIN_LINE_LEN < strlen line)); [|discriminate].
      destruct room as [|room].
      * destruct (getFloat_cases strtof (coordinate line 30)) as [[x ->] | ->];
          [rewrite bind_ret_l|]; discriminate.
      * destruct (parse_record_cases strtof line) as [[r Hr] | (e & He & Hr)];
          rewrite Hr; [|discriminate].
        rewrite bind_ret_l.
        pose proof (collect_collected strtof lines room) as Hc.
        inversion Hc as [rows' Hrows Heq | e He Heq | Heq]; try discriminate.
        rewrite bind_ret_l. intros H. inversion H. subst rows.
        rewrite fmap_cons. f_equal.
        -- unfold row_of. rewrite Hr. reflexivity.
        -- apply (IH room). symmetry. exact Heq.
    + rewrite bool_decide_eq_false_2 by exact H1. apply IH.
Qed.

(** A file that reaches the statistics has at least one record; what it
    prints is the report of its records, converted, in the order in which
    they stand in the file; and they are the first rows of the array it
    leaves. *)
Lemma process_file_rows (name : string) (fp : FILE) (fileLine : list ascii)
    (fileAtoms : list row) (log : list event) (buffers : list ascii * list row) :
  process_file strtof name fp fileLine fileAtoms = (log, Ok buffers) ->
  let rows := row_of strtof <$> atom_records fp in
  1 <= length rows <= length fileAtoms /\
  log = report name rows /\
  buffers.2 = rows ++ drop (length rows) fileAtoms.
Proof.
  intros H.
  destruct (process_file_outcome strtof name fp fileLine fileAtoms)
    as [(rows & fileLine' & Hne & Hle & _ & Hc & Heq) | [Heq | [(e & _ & Heq) | [_ Heq]]]];
    rewrite Heq in H; inversion H; subst.
  apply collect_rows in Hc. unfold atom_records. rewrite <- Hc.
  repeat split; auto. destruct rows; [congruence | simpl; lia].
Qed.
End Rows.

(** ** The capacity of the array *)

Section Capacity.
Variable strtof : list ascii -> strtof_result.

Lemma collect_fits (lines : list (list ascii)) (room : nat) :
  length (filter (fun line => startsWith line = 1%Z) lines) <= room ->
  (collect strtof lines room).2 <> Undefined.
Proof.
  revert room. induction lines as [|line lines IH]; intros room Hroom; simpl.
  - discriminate.
  - rewrite filter_cons in Hroom.
    destruct (decide (startsWith line = 1%Z)) as [H1 | H1].
    + rewrite bool_decide_eq_true_2 by exact H1.
      destruct (bool_decide (MIN_LINE_LEN < strlen line)); [|discriminate].
      simpl in Hroom. destruct room as [|room]; [lia|].
      destruct (parse_record_cases strtof line) as [[r ->] | (e & He & ->)];
        [|discriminate].
      rewrite bind_ret_l. specialize (IH room ltac:(lia)).
      destruct (collect strtof lines room) as [log [rows|s| |]];
        try discriminate. contradiction.
    + rewrite bool_decide_eq_false_2 by exact H1. apply IH, Hroom.
Qed.

Lemma collect_overflows (lines : list (list ascii)) (room : nat) :
  room < length (filter (fun line => startsWith line = 1%Z) lines) ->
  Forall (good_record strtof)
         (take (S room) (filter (fun line => startsWith line = 1%Z) lines)) ->
  collect strtof lines room = ([], Undefined).
Proof.
  revert room. induction lines as [|line lines IH]; intros room Hroom Hgood; simpl.
  - simpl in Hroom. lia.
  - rewrite filter_cons in Hroom, Hgood.
    destruct (decide (startsWith line = 1%Z)) as [H1 | H1].
    + rewrite bool_decide_eq_true_2 by exact H1.
      simpl in Hroom, Hgood.
      apply Forall_cons in Hgood as [[Hlen [r Hr]] Hgood].
      rewrite bool_decide_eq_true_2 by exact Hlen.
      destruct room as [|room].
      * unfold parse_record in Hr.
        destruct (getFloat_cases strtof (coordinate line 30)) as [[x Hx] | Hx];
          rewrite Hx in Hr |- *; [rewrite bind_ret_l; reflexivity | discriminate].
      * rewrite Hr, bind_ret_l, IH by (try lia; exact Hgood). reflexivity.
    + rewrite bool_decide_eq_false_2 by exact H1. apply IH; assumption.
Qed.
End Capacity.

(** ** Conversion of the atom count *)

Lemma digits2_pos_bound (p : positive) (k : Z) :
  (Z.pos p < 2 ^ k)%Z -> (0 <= k)%Z -> (Z.pos (digits2_pos p) <= k)%Z.
Proof.
  revert k. induction p as [p IH|p IH|]; intros k Hp Hk; simpl digits2_pos.
  - assert (k <> 0)%Z by (intros ->; simpl in Hp; lia).
    replace k with (Z.succ (k - 1)) in Hp by lia.
    rewrite Z.pow_succ_r in Hp by lia.
    specialize (IH (k - 1)%Z ltac:(lia) ltac:(lia)). lia.
  - assert (k <> 0)%Z by (intros ->; simpl in Hp; lia).
    replace k with (Z.succ (k - 1)) in Hp by lia.
    rewrite Z.pow_succ_r in Hp by lia.
    specialize (IH (k - 1)%Z ltac:(lia) ltac:(lia)). lia.
  - assert (k <> 0)%Z by (intros ->; simpl in Hp; lia). lia.
Qed.

Lemma digits2_pos_iter_xO (p k : positive) :
  digits2_pos (Pos.iter xO p k) = (digits2_pos p + k)%positive.
Proof.
  induction k as [|k IH] using Pos.peano_ind.
  - simpl. lia.
  - rewrite Pos.iter_succ. simpl. rewrite IH. lia.
Qed.

(** A mantissa of exactly [prec] digits is not rounded. *)
Lemma binary_round_aux_exact (m : positive) (e : Z) :
  Z.pos (digits2_pos m) = F32.prec -> (-149 <= e <= 104)%Z ->
  binary_round_aux F32.prec F32.emax false (Z.pos m) e loc_Exact = S754_finite false m e.
Proof.
  intros Hd He.
  assert (Hs : shr_fexp F32.prec F32.emax (Z.pos m) e loc_Exact =
               ({| shr_m := Z.pos m; shr_r := false; shr_s := false |}, e)).
  { unfold shr_fexp, shr. cbn [Zdigits2]. rewrite Hd.
    unfold fexp, emin, F32.prec, F32.emax.
    replace (Z.max (24 + e - 24) (3 - 128 - 24) - e)%Z with 0%Z by lia.
    reflexivity. }
  unfold binary_round_aux. rewrite Hs. cbn [shr_m loc_of_shr_record round_nearest_even].
  rewrite Hs. cbn [shr_m].
  unfold F32.emax, F32.prec.
  destruct (Z.leb_spec e (128 - 24)); [reflexivity | lia].
Qed.

Lemma of_int_positive (n : nat) :
  1 <= n <= MAX_ATOMS -> positive_finite (F32.of_int (Z.of_nat n)) = true.
Proof.
  intros Hn.
  assert (Hmax : (Z.of_nat MAX_ATOMS = 20000)%Z) by reflexivity.
  destruct (Z.of_nat n) as [|p|p] eqn:Hp; try lia.
  assert (Hd : (Z.pos (digits2_pos p) <= 15)%Z) by (apply digits2_pos_bound; lia).
  unfold F32.of_int, binary_normalize, binary_round.
  unfold fexp at 1, emin.
  replace (Z.max (Z.pos (digits2_pos p) + 0 - F32.prec) (3 - F32.emax - F32.prec))
    with (Z.pos (digits2_pos p) - 24)%Z by (unfold F32.prec, F32.emax; lia).
  unfold shl_align.
  destruct (Z.pos (digits2_pos p) - 24 - 0)%Z as [|k|k] eqn:Hk; try lia.
  rewrite binary_round_aux_exact; [reflexivity| |lia].
  rewrite digits2_pos_iter_xO. unfold F32.prec. lia.
Qed.

(** ** A run

    The scenario of the specification: a file with atoms at (0, 0, 0) and
    (2, 0, 0) prints 2 atoms, the centre (1, 0, 0), the radius 1 and the
    largest distance 2, and the program returns 0. *)
Example two_atoms_run :
  main strtof_c99 ["AnalyzeProtein"; "two.pdb"]%string sample_files =
    ([PrintHeader "two.pdb" 2;
      PrintCg (F32.of_int 1) F32.zero F32.zero;
      PrintRg (F32.of_int 1);
      PrintDmax (F32.of_int 2)], Exit 0%Z).
Proof. vm_compute. reflexivity. Qed.

(** * The claims *)

(** ** Centre of gravity *)

(** Claim C1, as the specification states it, fails: the centre of gravity
    is computed in [float] and is not always the arithmetic mean of the
    coordinates. The file [two_large] holds the same atom twice, its x a
    finite float near the largest one; the mean of the two x is that
    float, and the program prints an infinite x, the sum of the two having
    left the range of [float]. And for atoms at x = 100000000, 3 and 3 the
    program prints 33333334 where the mean is 100000006 / 3, which the
    float 33333336 approaches better. *)
Lemma center_of_gravity_counterexample :
  let big := S754_finite false 14791142 104 in
  let atoms := [(big, F32.zero, F32.zero); (big, F32.zero, F32.zero)] in
  let atoms3 := [(F32.of_int 100000000, F32.zero, F32.zero);
                 (F32.of_int 3, F32.zero, F32.zero);
                 (F32.of_int 3, F32.zero, F32.zero)] in
  let printed := S754_finite false 16666667 1 in
  let nearer := S754_finite false 16666668 1 in
  let exact_mean := arithmetic_mean (float_value <$> (row_get 0 <$> atoms3)) in
  (row_of strtof_c99 <$> atom_records (mk_FILE two_large false false) = atoms /\
   Forall finite_row atoms /\
   (arithmetic_mean (float_value <$> (row_get 0 <$> atoms)) == float_value big)%Q /\
   calCenterOfGravity 2 atoms =
     ([PrintCg (S754_infinity false) F32.zero F32.zero],
      Ok (S754_infinity false, F32.zero, F32.zero)) /\
   observe (process_file strtof_c99 "large.pdb" (mk_FILE two_large false false)
              (replicate MAX_LINE END_OF_STRING) (replicate MAX_ATOMS zero_row)) =
     ([PrintHeader "large.pdb" 2;
       PrintCg (S754_infinity false) F32.zero F32.zero;
       PrintRg (S754_infinity false);
       PrintDmax F32.zero], Ok tt)) /\
  (Forall finite_row atoms3 /\
   calCenterOfGravity 3 atoms3 =
     ([PrintCg printed F32.zero F32.zero], Ok (printed, F32.zero, F32.zero)) /\
   (float_value printed == 33333334)%Q /\
   (float_value nearer == 33333336)%Q /\
   (exact_mean == 100000006 # 3)%Q /\
   ~ (float_value printed == exact_mean)%Q /\
   (float_value printed < exact_mean)%Q /\
   (exact_mean < float_value nearer)%Q /\
   (float_value nearer - exact_mean < exact_mean - float_value printed)%Q).
Proof.
  cbv zeta. split.
  - split; [vm_compute; reflexivity|]. split; [repeat constructor|].
    split; [vm_compute; reflexivity|]. split; vm_compute; reflexivity.
  - split; [repeat constructor|]. split; [vm_compute; reflexivity|].
    split; [vm_compute; reflexivity|]. split; [vm_compute; reflexivity|].
    split; [vm_compute; reflexivity|].
    split; [intros H; vm_compute in H; discriminate H|].
    split; [vm_compute; reflexivity|]. split; vm_compute; reflexivity.
Qed.

(** Claim C1, amended. For a store of [atomCounter] atoms, 1 <=
    [atomCounter] <= [MAX_ATOMS], [calCenterOfGravity] prints and returns,
    for each coordinate, the sum of that coordinate over the atoms divided
    by the count, in [float] arithmetic: the coordinates are added one by
    one, in the order of the store, to a sum that starts at zero, each
    addition rounded, and the quotient is rounded; the count converts to a
    positive float, so the division is by a nonzero number; and whenever a
    file reaches the statistics, it has between 1 and [MAX_ATOMS] records,
    they are the first rows of the store, and what is printed is their
    report. *)
Theorem center_of_gravity_is_mean (atomCounter : nat) (fileAtoms : list row) :
  length fileAtoms = MAX_ATOMS ->
  1 <= atomCounter <= MAX_ATOMS ->
  let atoms := take atomCounter fileAtoms in
  let n := F32.of_int (Z.of_nat atomCounter) in
  let x := F32.div (fsum (row_get 0 <$> atoms)) n in
  let y := F32.div (fsum (row_get 1 <$> atoms)) n in
  let z := F32.div (fsum (row_get 2 <$> atoms)) n in
  calCenterOfGravity atomCounter fileAtoms = ([PrintCg x y z], Ok (x, y, z)) /\
  positive_finite n = true /\
  forall strtof name fp fileLine log buffers,
    process_file strtof name fp fileLine fileAtoms = (log, Ok buffers) ->
    let rows := row_of strtof <$> atom_records fp in
    1 <= length rows <= MAX_ATOMS /\
    take (length rows) buffers.2 = rows /\
    log = report name rows.
Proof.
  intros Hlen Hn atoms n x y z. split; [|split].
  - rewrite calCenterOfGravity_eq by lia. cbv zeta.
    unfold center_of_gravity, mean. cbn [fst snd].
    rewrite !length_fmap, length_take, Nat.min_l by lia. reflexivity.
  - apply of_int_positive, Hn.
  - intros strtof name fp fileLine log buffers H.
    destruct (process_file_rows strtof name fp fileLine fileAtoms log buffers H)
      as (Hrows & Hlog & Hbuf).
    cbv zeta. rewrite Hbuf, take_app_length, <- Hlen. auto.
Qed.

Lemma center_of_gravity_is_mean_witness :
  calCenterOfGravity 2
    (<[1 := (F32.of_int 2, F32.zero, F32.zero)]> (replicate MAX_ATOMS zero_row)) =
  ([PrintCg (F32.of_int 1) F32.zero F32.zero], Ok (F32.of_int 1, F32.zero, F32.zero)).
Proof.
  assert (Hlen : length (<[1 := (F32.of_int 2, F32.zero, F32.zero)]>
                           (replicate MAX_ATOMS zero_row)) = MAX_ATOMS)
    by (rewrite length_insert; apply length_replicate).
  assert (Hn : 1 <= 2 <= MAX_ATOMS) by (split; [lia | apply Nat.leb_le; reflexivity]).
  exact (proj1 (center_of_gravity_is_mean 2 _ Hlen Hn)).
Defined.

(** ** Radius of gyration *)

(** Claim C2, as the specification states it, fails: the radius of gyration
    is computed in [float] and is not always the value of the formula. The
    file [far_apart] holds two atoms at x and -x, for a finite float x near
    2e19. The centre printed is (0, 0, 0), which is their mean; the squared
    distance of each atom to it is the square of x, so the formula gives x,
    a float; and the program prints an infinite radius, the square of x
    having left the range of [float]. *)
Lemma radius_of_gyration_counterexample :
  let far := S754_finite false 9094947 41 in
  let atoms := [(far, F32.zero, F32.zero); (SFopp far, F32.zero, F32.zero)] in
  row_of strtof_c99 <$> atom_records (mk_FILE far_apart false false) = atoms /\
  Forall finite_row atoms /\
  calCenterOfGravity 2 atoms = ([PrintCg F32.zero F32.zero F32.zero], Ok zero_row) /\
  (arithmetic_mean (float_value <$> (row_get 0 <$> atoms)) == 0)%Q /\
  (0 <= float_value far)%Q /\
  (float_value far * float_value far ==
   arithmetic_mean (exact_sq_distance (row_value zero_row) <$> (row_value <$> atoms)))%Q /\
  calRotationRadious 2 atoms zero_row = ([PrintRg (S754_infinity false)], Ok tt) /\
  observe (process_file strtof_c99 "far.pdb" (mk_FILE far_apart false false)
             (replicate MAX_LINE END_OF_STRING) (replicate MAX_ATOMS zero_row)) =
    ([PrintHeader "far.pdb" 2;
      PrintCg F32.zero F32.zero F32.zero;
      PrintRg (S754_infinity false);
      PrintDmax (S754_infinity false)], Ok tt).
Proof.
  cbv zeta. split; [vm_compute; reflexivity|]. split; [repeat constructor|].
  split; [vm_compute; reflexivity|]. split; [vm_compute; reflexivity|].
  split; [vm_compute; discriminate|]. split; [vm_compute; reflexivity|].
  split; vm_compute; reflexivity.
Qed.

(** Claim C2, amended. [calRotationRadious] prints the square root of the
    sum, over the atoms of the store, of the squared distance to the centre
    it is given, divided by the atom count, all in [float] arithmetic: the
    squared distances are added one by one, in the order of the store, to
    a sum that starts at zero, the quotient is rounded, and the root is
    taken in [double] and rounded to [float]; what [calDistance] returns
    and the loop sums is the squared Euclidean distance as [float]
    computes it, so that one square root is taken; and in a run the centre
    is the one printed just before for the same atoms, the records of the
    file. *)
Theorem radius_of_gyration_formula (atomCounter : nat) (fileAtoms : list row)
    (gravityCenter : row) :
  atomCounter <= length fileAtoms ->
  let atoms := take atomCounter fileAtoms in
  calRotationRadious atomCounter fileAtoms gravityCenter =
    ([PrintRg (c_sqrt (F32.div (fsum (sq_euclid gravityCenter <$> atoms))
                               (F32.of_int (Z.of_nat atomCounter))))], Ok tt) /\
  (forall a : row,
     calDistance gravityCenter.1.1 gravityCenter.1.2 gravityCenter.2 a.1.1 a.1.2 a.2 =
       sq_euclid gravityCenter a) /\
  forall strtof name fp fileLine log buffers,
    process_file strtof name fp fileLine fileAtoms = (log, Ok buffers) ->
    let rows := row_of strtof <$> atom_records fp in
    let cg := center_of_gravity rows in
    log !! 1 = Some (PrintCg cg.1.1 cg.1.2 cg.2) /\
    log !! 2 = Some (PrintRg (radius_of_gyration cg rows)).
Proof.
  intros Hlen atoms. split; [|split].
  - rewrite calRotationRadious_eq by exact Hlen. unfold radius_of_gyration.
    rewrite length_take, Nat.min_l by lia. reflexivity.
  - intros a. apply calDistance_sq_euclid.
  - intros strtof name fp fileLine log buffers H.
    destruct (process_file_rows strtof name fp fileLine fileAtoms log buffers H)
      as (_ & Hlog & _).
    cbv zeta. rewrite Hlog. split; reflexivity.
Qed.

Lemma radius_of_gyration_formula_witness :
  calRotationRadious 2 [zero_row; (F32.of_int 2, F32.zero, F32.zero)]
    (F32.of_int 1, F32.zero, F32.zero) = ([PrintRg (F32.of_int 1)], Ok tt).
Proof.
  exact (proj1 (radius_of_gyration_formula 2
                  [zero_row; (F32.of_int 2, F32.zero, F32.zero)]
                  (F32.of_int 1, F32.zero, F32.zero) (le_n 2))).
Defined.

(** ** Largest distance *)

(** Claim C3, as the specification states it, fails: the largest distance
    is the largest of the distances as the program computes them in
    [float], which is not always the largest Euclidean distance. The two
    atoms of [far_apart], at x and -x for a finite float x near 2e19, are
    at the distance 2x, a float; and the program prints an infinite
    distance, the square of 2x having left the range of [float]. *)
Lemma max_distance_counterexample :
  let far := S754_finite false 9094947 41 in
  let twice := S754_finite false 9094947 42 in
  let a := (far, F32.zero, F32.zero) in
  let b := (SFopp far, F32.zero, F32.zero) in
  row_of strtof_c99 <$> atom_records (mk_FILE far_apart false false) = [a; b] /\
  Forall finite_row [a; b] /\
  (float_value twice == 2 * float_value far)%Q /\
  (0 <= float_value twice)%Q /\
  (float_value twice * float_value twice ==
   exact_sq_distance (row_value a) (row_value b))%Q /\
  calMaxDistance 2 [a; b] = ([PrintDmax (S754_infinity false)], Ok tt) /\
  observe (process_file strtof_c99 "far.pdb" (mk_FILE far_apart false false)
             (replicate MAX_LINE END_OF_STRING) (replicate MAX_ATOMS zero_row)) =
    ([PrintHeader "far.pdb" 2;
      PrintCg F32.zero F32.zero F32.zero;
      PrintRg (S754_infinity false);
      PrintDmax (S754_infinity false)], Ok tt).
Proof.
  cbv zeta. split; [vm_compute; reflexivity|]. split; [repeat constructor|].
  split; [vm_compute; reflexivity|]. split; [vm_compute; discriminate|].
  split; [vm_compute; reflexivity|]. split; vm_compute; reflexivity.
Qed.

(** Claim C3, amended. For a store of finite coordinates, [calMaxDistance]
    prints a distance [d] such that, when there are at least two atoms,
    some pair of atoms i < j is at distance [d] and every pair i < j is at
    distance at most [d] (the loops, i from 0 to n-2 and j from 1 to n-1,
    reach every pair); with fewer than two atoms it prints 0. The distance
    of two atoms is here the one that the program computes, [euclid]: the
    root, taken in [double] and rounded to [float], of the squared
    distance that [calDistance] computes in [float]. *)
Theorem max_distance_is_maximum (atomCounter : nat) (fileAtoms : list row) :
  atomCounter <= length fileAtoms ->
  Forall finite_row (take atomCounter fileAtoms) ->
  exists d,
    calMaxDistance atomCounter fileAtoms = ([PrintDmax d], Ok tt) /\
    (2 <= atomCounter -> is_max_distance (take atomCounter fileAtoms) d) /\
    (atomCounter < 2 -> d = F32.zero).
Proof.
  intros Hlen Hfin. exists (scan (take atomCounter fileAtoms)).
  split; [apply calMaxDistance_eq, Hlen|]. split.
  - intros Hn. apply scan_is_max_distance; [|exact Hfin].
    rewrite length_take. lia.
  - intros Hn. unfold scan. rewrite length_take.
    replace (atomCounter `min` length fileAtoms - 1) with 0 by lia.
    reflexivity.
Qed.

Lemma max_distance_is_maximum_witness :
  exists d,
    calMaxDistance 2 [zero_row; (F32.of_int 2, F32.zero, F32.zero)] =
      ([PrintDmax d], Ok tt) /\
    (2 <= 2 -> is_max_distance (take 2 [zero_row; (F32.of_int 2, F32.zero, F32.zero)]) d) /\
    (2 < 2 -> d = F32.zero).
Proof.
  apply (max_distance_is_maximum 2 [zero_row; (F32.of_int 2, F32.zero, F32.zero)]).
  - simpl. lia.
  - repeat constructor.
Defined.

(** ** Lines *)

Ltac not_in_list H :=
  repeat (apply elem_of_cons in H as [H|H]; [discriminate H|]);
  apply elem_of_nil in H; contradiction.

(** Claim C6. [startsWith] returns 1 or 0, and 1 exactly when the first six
    characters of the line are ["ATOM  "]; the loop of [main] leaves the
    atom count and the array as they are on a line for which it returns 0,
    and such a line adds no row to what a file collects. *)
Theorem startsWith_classifier (strtof : list ascii -> strtof_result) (line : list ascii) :
  (startsWith line = 1%Z \/ startsWith line = 0%Z) /\
  (startsWith line = 1%Z <-> take LINE_STARTER_LEN (c_str line) = LINE_STARTER) /\
  (startsWith line = 0%Z ->
     (forall atomCounter fileAtoms,
        line_body strtof line atomCounter fileAtoms = ret (atomCounter, fileAtoms)) /\
     (forall lines room,
        collect strtof (line :: lines) room = collect strtof lines room)).
Proof.
  split; [apply startsWith_cases|]. split; [apply startsWith_prefix|].
  intros H0. split.
  - intros atomCounter fileAtoms. apply line_body_skip, H0.
  - intros lines room. simpl.
    rewrite bool_decide_eq_false_2 by (rewrite H0; discriminate). reflexivity.
Qed.

Lemma startsWith_classifier_witness :
  line_body strtof_c99 (list_ascii_of_string "ATOMS 12") 0 [zero_row] =
    ret (0, [zero_row]).
Proof.
  exact (proj1 (proj2 (proj2 (startsWith_classifier strtof_c99
                                 (list_ascii_of_string "ATOMS 12"))) eq_refl)
           0 [zero_row]).
Defined.

(** Claim C4, as the specification states it, fails on a record of exactly
    60 characters: it is at least 60 characters long and yet the program
    reports it as too short and leaves with the failure status. *)
Lemma line_of_60_counterexample :
  startsWith line_of_60 = 1%Z /\
  strlen line_of_60 = 60 /\
  line_body strtof_c99 line_of_60 0 (replicate MAX_ATOMS zero_row) =
    ([PrintTooShort 60], Exit EXIT_FAILURE) /\
  main strtof_c99 ["AnalyzeProtein"; "short.pdb"]%string sample_files =
    ([PrintTooShort 60], Exit EXIT_FAILURE).
Proof. repeat split; vm_compute; reflexivity. Qed.

(** Claim C4, amended. For a line that [startsWith] accepts, the test is on
    [strlen], which counts the newline that [fgets] keeps: a line of more
    than 60 characters goes to [parseLine] and the count is incremented; a
    line of at most 60 characters is reported with its length and the
    program leaves with the failure status, having printed nothing else
    for the file. *)
Theorem line_length_rule (strtof : list ascii -> strtof_result) (fileLine : list ascii)
    (atomCounter : nat) (fileAtoms : list row) :
  startsWith fileLine = 1%Z ->
  (MIN_LINE_LEN < strlen fileLine ->
     line_body strtof fileLine atomCounter fileAtoms =
       (fileAtoms' <- parseLine strtof fileLine atomCounter fileAtoms ;;
        ret (S atomCounter, fileAtoms'))) /\
  (strlen fileLine <= MIN_LINE_LEN ->
     line_body strtof fileLine atomCounter fileAtoms =
       ([PrintTooShort (strlen fileLine)], Exit EXIT_FAILURE)) /\
  (forall name fp fileLine0 log res len,
     process_file strtof name fp fileLine0 fileAtoms = (log, res) ->
     PrintTooShort len ∈ log ->
     res = Exit EXIT_FAILURE /\ log = [PrintTooShort len]).
Proof.
  intros H1. split; [|split].
  - intros Hlen. apply line_body_parse; assumption.
  - intros Hlen. apply line_body_short; assumption.
  - intros name fp fileLine0 log res len H Hin.
    destruct (process_file_outcome strtof name fp fileLine0 fileAtoms)
      as [(rows & fileLine' & _ & _ & _ & _ & Heq) | [Heq | [(e & _ & Heq) | [_ Heq]]]];
      rewrite Heq in H; inversion H; subst; clear H.
    + unfold report in Hin. not_in_list Hin.
    + not_in_list Hin.
    + apply list_elem_of_singleton in Hin. subst e. split; reflexivity.
    + not_in_list Hin.
Qed.

Lemma line_length_rule_witness :
  line_body strtof_c99 line_of_60 0 [zero_row] = ([PrintTooShort 60], Exit EXIT_FAILURE).
Proof.
  assert (H1 : startsWith line_of_60 = 1%Z) by reflexivity.
  assert (Hlen : strlen line_of_60 <= MIN_LINE_LEN) by (vm_compute; lia).
  exact (proj1 (proj2 (line_length_rule strtof_c99 line_of_60 0 [zero_row] H1)) Hlen).
Defined.

(** ** Conversion of a field *)

Lemma strtof_number_consumed (base : Z) (mark : ascii) (neg : bool) (skipped : nat)
    (s : list ascii) (r : strtof_result) :
  strtof_number base mark neg skipped s = Some r -> sr_consumed r <> 0.
Proof.
  unfold strtof_number.
  destruct (read_mantissa base s) as [[[m frac] k] rest].
  destruct k as [|k]; [discriminate|].
  destruct (read_exponent mark rest) as [e ke].
  intros H. inversion H. simpl. lia.
Qed.

(** [strtof_c99] returns zero when it converts nothing, as the C standard
    requires. *)
Lemma strtof_c99_no_conversion (input : list ascii) :
  sr_consumed (strtof_c99 input) = 0 -> is_zero (sr_value (strtof_c99 input)) = true.
Proof.
  unfold strtof_c99.
  destruct (read_sign _) as [[neg ks] s].
  repeat (match goal with |- context [if ?b then _ else _] => destruct b end;
          [simpl; lia|]).
  match goal with |- context [match ?h with Some _ => _ | None => _ end] =>
    destruct h as [r|] eqn:Hhex end.
  - intros H. exfalso. revert H.
    destruct (prefix_ci _ s); [|discriminate].
    eapply strtof_number_consumed, Hhex.
  - destruct (strtof_number 10 _ neg _ s) as [r|] eqn:Hdec; [|reflexivity].
    intros H. exfalso. eapply strtof_number_consumed; eassumption.
Qed.

(** Claim C5, as the specification states it, fails on a field whose number
    underflows: ["   1e-50"] is a number that [strtof] reads to its end,
    and the program still reports a conversion error and leaves, because
    the value is zero and [errno] is set. *)
Lemma getFloat_underflow_counterexample :
  let input := (list_ascii_of_string "   1e-50" ++ [END_OF_STRING])%list in
  sr_consumed (strtof_c99 input) = 8 /\
  sr_errno (strtof_c99 input) = ERANGE /\
  getFloat strtof_c99 input =
    ([PrintConversionError (list_ascii_of_string "   1e-50")], Exit EXIT_FAILURE) /\
  getFloat strtof_c99 input <> ret (sr_value (strtof_c99 input)).
Proof. repeat split; try (vm_compute; reflexivity). vm_compute. discriminate. Qed.

(** Claim C5, amended. With a [strtof] that returns zero when it converts
    nothing: [getFloat] prints the conversion error and leaves with the
    failure status when nothing was converted, and also when the value is
    zero and [errno] is set (a range error); in every other case it returns
    the value of [strtof], whatever follows the number in the field. When
    the error is printed it is all that the file prints: no statistics. *)
Theorem getFloat_failure (strtof : list ascii -> strtof_result) (input : list ascii) :
  (forall s, sr_consumed (strtof s) = 0 -> is_zero (sr_value (strtof s)) = true) ->
  let r := strtof input in
  (sr_consumed r = 0 \/ (is_zero (sr_value r) = true /\ sr_errno r <> 0%Z) ->
     getFloat strtof input = ([PrintConversionError (c_str input)], Exit EXIT_FAILURE)) /\
  (sr_consumed r <> 0 -> is_zero (sr_value r) = false \/ sr_errno r = 0%Z ->
     getFloat strtof input = ret (sr_value r)) /\
  (forall name fp fileLine fileAtoms log res s,
     process_file strtof name fp fileLine fileAtoms = (log, res) ->
     PrintConversionError s ∈ log ->
     res = Exit EXIT_FAILURE /\ log = [PrintConversionError s]).
Proof.
  intros Hstd r. subst r. split; [|split].
  - intros H. rewrite getFloat_eq. unfold conversion_fails.
    destruct H as [H | [Hz He]].
    + rewrite (Hstd input H), H. rewrite orb_true_r. reflexivity.
    + rewrite Hz. destruct (Z.eqb_spec (sr_errno (strtof input)) 0); [contradiction|].
      reflexivity.
  - intros Hc H. rewrite getFloat_eq. unfold conversion_fails.
    destruct H as [-> | ->]; [reflexivity|].
    destruct (Nat.eqb_spec (sr_consumed (strtof input)) 0); [contradiction|].
    simpl. rewrite andb_false_r. reflexivity.
  - intros name fp fileLine fileAtoms log res s H Hin.
    destruct (process_file_outcome strtof name fp fileLine fileAtoms)
      as [(rows & fileLine' & _ & _ & _ & _ & Heq) | [Heq | [(e & _ & Heq) | [_ Heq]]]];
      rewrite Heq in H; inversion H; subst; clear H.
    + unfold report in Hin. not_in_list Hin.
    + not_in_list Hin.
    + apply list_elem_of_singleton in Hin. subst e. split; reflexivity.
    + not_in_list Hin.
Qed.

Lemma getFloat_failure_witness :
  getFloat strtof_c99 (list_ascii_of_string "  -1.5  " ++ [END_OF_STRING])%list =
    ret (S754_finite true 12582912 (-23)).
Proof.
  assert (Hc : sr_consumed (strtof_c99 (list_ascii_of_string "  -1.5  "
                                          ++ [END_OF_STRING])%list) <> 0)
    by (vm_compute; discriminate).
  exact (proj1 (proj2 (getFloat_failure strtof_c99 _ strtof_c99_no_conversion))
           Hc (or_introl eq_refl)).
Defined.

(** ** The record parser *)

Lemma c_str_id (s : list ascii) :
  Forall (fun c => c <> END_OF_STRING) s -> c_str s = s.
Proof.
  induction 1 as [|c s Hc Hs IH]; simpl; [reflexivity|].
  destruct (Ascii.eqb_spec c END_OF_STRING); [contradiction|]. rewrite IH. reflexivity.
Qed.

Lemma coordinate_c_str (line : list ascii) (off : nat) :
  off + COORDINATE_LEN <= strlen line ->
  coordinate line off = (memcpy_from line off COORDINATE_LEN ++ [END_OF_STRING])%list /\
  c_str (coordinate line off) = take COORDINATE_LEN (drop off (c_str line)) /\
  strlen (coordinate line off) = COORDINATE_LEN.
Proof.
  intros H. unfold coordinate. rewrite memcpy_from_c_str by exact H.
  split; [reflexivity|].
  assert (Hc : c_str (take COORDINATE_LEN (drop off (c_str line)) ++ [END_OF_STRING]) =
               take COORDINATE_LEN (drop off (c_str line))).
  { rewrite c_str_app_nul. apply c_str_id, Forall_take, Forall_drop, c_str_no_nul. }
  split; [exact Hc|].
  unfold strlen in *. rewrite Hc, length_take, length_drop. lia.
Qed.

(** Claim C7. On a line of more than 60 characters and at an index inside
    the array, [parseLine] copies the 8 characters at offsets 30, 38 and 46
    of the line, converts them with [getFloat] in that order, and writes
    the three values as the row of index [atomCounter], leaving the other
    rows as they are; a failed conversion ends the program instead. *)
Theorem parseLine_fields (strtof : list ascii -> strtof_result) (fileLine : list ascii)
    (atomCounter : nat) (fileAtoms : list row) :
  MIN_LINE_LEN < strlen fileLine ->
  atomCounter < length fileAtoms ->
  (forall off, off ∈ [30; 38; 46] ->
     coordinate fileLine off =
       (memcpy_from fileLine off COORDINATE_LEN ++ [END_OF_STRING])%list /\
     c_str (coordinate fileLine off) = take COORDINATE_LEN (drop off (c_str fileLine)) /\
     strlen (coordinate fileLine off) = COORDINATE_LEN) /\
  parseLine strtof fileLine atomCounter fileAtoms =
    (x <- getFloat strtof (coordinate fileLine 30) ;;
     y <- getFloat strtof (coordinate fileLine 38) ;;
     z <- getFloat strtof (coordinate fileLine 46) ;;
     ret (<[atomCounter := (x, y, z)]> fileAtoms)) /\
  (forall x y z,
     getFloat strtof (coordinate fileLine 30) = ret x ->
     getFloat strtof (coordinate fileLine 38) = ret y ->
     getFloat strtof (coordinate fileLine 46) = ret z ->
     exists fileAtoms',
       parseLine strtof fileLine atomCounter fileAtoms = ret fileAtoms' /\
       fileAtoms' !! atomCounter = Some (x, y, z) /\
       length fileAtoms' = length fileAtoms /\
       forall i, i <> atomCounter -> fileAtoms' !! i = fileAtoms !! i).
Proof.
  intros Hlen Hlt. split; [|split].
  - intros off Hoff. apply coordinate_c_str.
    unfold MIN_LINE_LEN, COORDINATE_LEN in *.
    repeat (apply elem_of_cons in Hoff as [-> | Hoff]; [lia|]).
    apply elem_of_nil in Hoff. contradiction.
  - apply parseLine_coordinates; assumption.
  - intros x y z Hx Hy Hz. exists (<[atomCounter := (x, y, z)]> fileAtoms).
    rewrite parseLine_coordinates, Hx, Hy, Hz, !bind_ret_l by assumption.
    split; [reflexivity|]. split; [apply list_lookup_insert_eq, Hlt|].
    split; [apply length_insert|].
    intros i Hi. apply list_lookup_insert_ne. congruence.
Qed.

Lemma parseLine_fields_witness :
  parseLine strtof_c99 (record "   1.000" "   2.000" "  -1.500") 1
    [zero_row; zero_row; zero_row] =
  ret [zero_row; (F32.of_int 1, F32.of_int 2, S754_finite true 12582912 (-23)); zero_row].
Proof.
  assert (Hlen : MIN_LINE_LEN < strlen (record "   1.000" "   2.000" "  -1.500"))
    by (vm_compute; lia).
  assert (Hlt : 1 < length [zero_row; zero_row; zero_row]) by (simpl; lia).
  exact (proj1 (proj2 (parseLine_fields strtof_c99 _ 1 _ Hlen Hlt))).
Defined.

(** ** Order of the atoms *)

(** Claim C8, as the specification states it, fails: the files [first.pdb]
    and [second.pdb] hold the same three records in two orders and the
    program prints a different centre of gravity and a different radius of
    gyration for them, the sums of [float] depending on the order of their
    terms. The largest distance is the same. *)
Lemma reordered_file_counterexample :
  lines_of (mk_FILE first_order false false) ≡ₚ
    lines_of (mk_FILE second_order false false) /\
  main strtof_c99 ["AnalyzeProtein"; "first.pdb"]%string sample_files =
    ([PrintHeader "first.pdb" 3;
      PrintCg (S754_finite false 16666667 1) F32.zero F32.zero;
      PrintRg (S754_finite false 11785113 2);
      PrintDmax (S754_finite false 12500000 3)], Exit 0%Z) /\
  main strtof_c99 ["AnalyzeProtein"; "second.pdb"]%string sample_files =
    ([PrintHeader "second.pdb" 3;
      PrintCg (S754_finite false 16666668 1) F32.zero F32.zero;
      PrintRg (S754_finite false 11785112 2);
      PrintDmax (S754_finite false 12500000 3)], Exit 0%Z).
Proof.
  split; [|split; vm_compute; reflexivity].
  vm_compute. apply (Permutation_cons_append [_; _]).
Qed.

(** Claim C8, amended. The largest distance that [calMaxDistance] prints is
    the same for two stores whose atoms are a permutation of one another;
    and two files whose records are a permutation of one another, when both
    reach the statistics, print the same atom count and the same largest
    distance. (The centre of gravity and the radius of gyration are sums
    of [float] taken in the order of the store and can change with it.) *)
Theorem max_distance_permutation :
  (forall atomCounter fileAtoms1 fileAtoms2,
     atomCounter <= length fileAtoms1 ->
     atomCounter <= length fileAtoms2 ->
     take atomCounter fileAtoms1 ≡ₚ take atomCounter fileAtoms2 ->
     calMaxDistance atomCounter fileAtoms1 = calMaxDistance atomCounter fileAtoms2) /\
  (forall strtof name1 name2 fp1 fp2 fileLine1 fileLine2 fileAtoms1 fileAtoms2
          log1 log2 buffers1 buffers2,
     atom_records fp1 ≡ₚ atom_records fp2 ->
     process_file strtof name1 fp1 fileLine1 fileAtoms1 = (log1, Ok buffers1) ->
     process_file strtof name2 fp2 fileLine2 fileAtoms2 = (log2, Ok buffers2) ->
     exists n d,
       log1 !! 0 = Some (PrintHeader name1 n) /\
       log2 !! 0 = Some (PrintHeader name2 n) /\
       log1 !! 3 = Some (PrintDmax d) /\
       log2 !! 3 = Some (PrintDmax d)).
Proof.
  split.
  - intros atomCounter fileAtoms1 fileAtoms2 H1 H2 Hp.
    rewrite !calMaxDistance_eq by assumption.
    rewrite (scan_perm _ _ Hp). reflexivity.
  - intros strtof name1 name2 fp1 fp2 fileLine1 fileLine2 fileAtoms1 fileAtoms2
           log1 log2 buffers1 buffers2 Hp Hrun1 Hrun2.
    destruct (process_file_outcome strtof name1 fp1 fileLine1 fileAtoms1)
      as [(rows1 & l1 & _ & _ & _ & Hc1 & Heq) | [Heq | [(e & _ & Heq) | [_ Heq]]]];
      rewrite Heq in Hrun1; inversion Hrun1; subst; clear Hrun1 Heq.
    destruct (process_file_outcome strtof name2 fp2 fileLine2 fileAtoms2)
      as [(rows2 & l2 & _ & _ & _ & Hc2 & Heq) | [Heq | [(e & _ & Heq) | [_ Heq]]]];
      rewrite Heq in Hrun2; inversion Hrun2; subst; clear Hrun2 Heq.
    apply collect_rows in Hc1, Hc2.
    assert (Hrows : rows1 ≡ₚ rows2).
    { rewrite Hc1, Hc2. apply fmap_Permutation, Hp. }
    exists (length rows1), (scan rows1). unfold report. cbn [lookup list_lookup].
    rewrite <- (Permutation_length Hrows), <- (scan_perm _ _ Hrows).
    repeat split.
Qed.

Lemma max_distance_permutation_witness :
  calMaxDistance 3 [(F32.of_int 100000000, F32.zero, F32.zero);
                    (F32.of_int 3, F32.zero, F32.zero);
                    (F32.of_int 5, F32.zero, F32.zero)] =
  calMaxDistance 3 [(F32.of_int 3, F32.zero, F32.zero);
                    (F32.of_int 5, F32.zero, F32.zero);
                    (F32.of_int 100000000, F32.zero, F32.zero)].
Proof.
  apply (proj1 max_distance_permutation).
  - simpl. lia.
  - simpl. lia.
  - apply (Permutation_cons_append [_; _]).
Defined.

(** ** Files of a run *)

(** Claim C9. What a file prints and how its processing ends are the same
    whatever the line buffer and the atom array hold when the file is
    opened; and a run of [main] over several files is the run in which
    every file is read into buffers that are new. *)
Theorem store_per_file (strtof : list ascii -> strtof_result) :
  (forall name fp fileLine1 fileLine2 fileAtoms1 fileAtoms2,
     length fileAtoms1 = length fileAtoms2 ->
     observe (process_file strtof name fp fileLine1 fileAtoms1) =
     observe (process_file strtof name fp fileLine2 fileAtoms2)) /\
  (forall argv fs,
     main strtof argv fs =
       if length argv <? MIN_ARGS then printf PrintUsage ;; return_from_main 1%Z
       else process_files_fresh strtof fs (tail argv)).
Proof.
  split.
  - intros. apply process_file_observe. assumption.
  - intros argv fs. unfold main.
    destruct (length argv <? MIN_ARGS); [reflexivity|].
    apply process_files_fresh_eq, length_replicate.
Qed.

Lemma store_per_file_witness :
  observe (process_file strtof_c99 "two.pdb" (mk_FILE two_atoms false false)
             (replicate 80 "x"%char)
             [(F32.of_int 7, F32.of_int 8, F32.of_int 9); zero_row; zero_row]) =
  observe (process_file strtof_c99 "two.pdb" (mk_FILE two_atoms false false)
             (replicate 80 END_OF_STRING) [zero_row; zero_row; zero_row]).
Proof.
  apply (proj1 (store_per_file strtof_c99)). reflexivity.
Defined.

(** ** Capacity *)

(** Claim C10. Nothing checks the atom count against the size of the array.
    When the file has at most [MAX_ATOMS] records, no access leaves the
    array. When it has more, and the first [MAX_ATOMS + 1] of them are long
    enough and convert, the record after the last that fits is written at
    index [MAX_ATOMS], past the end of the array, and nothing is printed:
    the program has no error for this case. *)
Theorem no_capacity_check (strtof : list ascii -> strtof_result) (name : string)
    (fp : FILE) (fileLine : list ascii) (fileAtoms : list row) :
  length fileAtoms = MAX_ATOMS ->
  (length (atom_records fp) <= MAX_ATOMS ->
     (process_file strtof name fp fileLine fileAtoms).2 <> Undefined) /\
  (MAX_ATOMS < length (atom_records fp) ->
     Forall (good_record strtof) (take (S MAX_ATOMS) (atom_records fp)) ->
     process_file strtof name fp fileLine fileAtoms = ([], Undefined)).
Proof.
  intros Hlen. unfold atom_records. split.
  - intros Hfit.
    pose proof (collect_fits strtof (lines_of fp) (length fileAtoms)
                  ltac:(rewrite Hlen; exact Hfit)) as Hc.
    destruct (process_file_outcome strtof name fp fileLine fileAtoms)
      as [(rows & fileLine' & _ & _ & _ & _ & ->) | [-> | [(e & _ & ->) | [Hu _]]]];
      try discriminate.
    rewrite Hu in Hc. contradiction.
  - intros Hmore Hgood.
    destruct (process_file_collect strtof name fp fileLine) as (fileLine' & ->).
    rewrite Hlen, collect_overflows by assumption. reflexivity.
Qed.

Lemma read_chars_line (n : nat) (s rest : list ascii) :
  Forall (fun c => c <> newline) s -> length s < n ->
  read_chars n (s ++ newline :: rest) = (s ++ [newline], rest, false).
Proof.
  intros Hs. revert n. induction Hs as [|c s Hc Hs IH]; intros n Hn.
  - destruct n as [|n]; [simpl in Hn; lia|]. reflexivity.
  - destruct n as [|n]; [simpl in Hn; lia|]. simpl.
    destruct (Ascii.eqb_spec c newline); [contradiction|].
    rewrite IH by (simpl in Hn; lia). reflexivity.
Qed.

(** The lines of a file made of copies of one line. *)
Lemma file_lines_copies (s : list ascii) (k fuel : nat) :
  Forall (fun c => c <> newline) s -> length s < MAX_LINE - 1 -> k < fuel ->
  file_lines fuel (mk_FILE (mjoin (replicate k (s ++ [newline]))) false false) =
    replicate k (c_str (s ++ [newline])).
Proof.
  intros Hs Hlen. revert fuel. induction k as [|k IH]; intros fuel Hfuel.
  - destruct fuel as [|fuel]; [lia|]. reflexivity.
  - destruct fuel as [|fuel]; [lia|].
    cbn [replicate mjoin list_join]. rewrite <- app_assoc.
    cbn [file_lines]. unfold fgets. cbn [unread read_error eof app].
    rewrite read_chars_line by assumption.
    cbv iota beta. unfold fill. rewrite c_str_app_nul, IH by lia. reflexivity.
Qed.

Lemma filter_replicate_True {A} (P : A -> Prop) `{!forall x, Decision (P x)}
    (x : A) (k : nat) :
  P x -> filter P (replicate k x) = replicate k x.
Proof.
  intros Hx. induction k as [|k IH]; [reflexivity|].
  simpl. rewrite filter_cons_True by exact Hx. rewrite IH. reflexivity.
Qed.

Lemma length_mjoin_replicate {A} (l : list A) (k : nat) :
  1 <= length l -> k <= length (mjoin (replicate k l)).
Proof.
  intros Hl. induction k as [|k IH]; [simpl; lia|].
  simpl. rewrite length_app. lia.
Qed.

Lemma atom_records_copies (k : nat) :
  atom_records (mk_FILE (copies k) false false) =
    replicate k (c_str (record "   1.000" "   2.000" "   3.000")).
Proof.
  unfold atom_records, lines_of, copies, record. cbn [unread].
  rewrite file_lines_copies.
  - apply filter_replicate_True. reflexivity.
  - apply Forall_forall. intros c Hc.
    repeat (apply elem_of_cons in Hc as [-> | Hc]; [discriminate|]).
    apply elem_of_nil in Hc. contradiction.
  - apply Nat.ltb_lt. vm_compute. reflexivity.
  - apply Nat.lt_succ_r, length_mjoin_replicate.
    rewrite length_app. simpl. lia.
Qed.

Lemma no_capacity_check_witness :
  process_file strtof_c99 "big.pdb" (mk_FILE (copies (S MAX_ATOMS)) false false)
    (replicate MAX_LINE END_OF_STRING) (replicate MAX_ATOMS zero_row) = ([], Undefined).
Proof.
  apply (proj2 (no_capacity_check strtof_c99 "big.pdb"
                  (mk_FILE (copies (S MAX_ATOMS)) false false)
                  (replicate MAX_LINE END_OF_STRING) (replicate MAX_ATOMS zero_row)
                  (length_replicate MAX_ATOMS zero_row))).
  - rewrite atom_records_copies, length_replicate. lia.
  - rewrite atom_records_copies. apply Forall_take, Forall_replicate.
    split; [vm_compute; lia|]. eexists. vm_compute. reflexivity.
Defined.

(** * Further properties

    Properties of the program beside the claims: how a run ends, what a
    file contributes to it, and what the statistics are for the stores at
    the edges. *)

(** ** Records that are accepted *)

Section Files.
Variable strtof : list ascii -> strtof_result.

(** Lines that are not records play no part. *)
Lemma collect_filter (lines : list (list ascii)) (room : nat) :
  collect strtof lines room =
    collect strtof (filter (fun line => startsWith line = 1%Z) lines) room.
Proof.
  revert room. induction lines as [|line lines IH]; intros room; [reflexivity|].
  rewrite filter_cons. destruct (decide (startsWith line = 1%Z)) as [H1 | H1].
  - simpl. rewrite !bool_decide_eq_true_2 by exact H1.
    destruct (bool_decide (MIN_LINE_LEN < strlen line)); [|reflexivity].
    destruct room as [|room]; [reflexivity|].
    apply bind_ext. intros r. rewrite IH. reflexivity.
  - simpl. rewrite bool_decide_eq_false_2 by exact H1. apply IH.
Qed.

(** Records that are all accepted, and fit, are collected as their rows. *)
Lemma collect_good (lines : list (list ascii)) (room : nat) :
  Forall (good_record strtof) (filter (fun line => startsWith line = 1%Z) lines) ->
  length (filter (fun line => startsWith line = 1%Z) lines) <= room ->
  collect strtof lines room =
    ret (row_of strtof <$> filter (fun line => startsWith line = 1%Z) lines).
Proof.
  revert room. induction lines as [|line lines IH]; intros room Hgood Hroom;
    [reflexivity|].
  rewrite filter_cons in Hgood, Hroom |- *.
  destruct (decide (startsWith line = 1%Z)) as [H1 | H1].
  - apply Forall_cons in Hgood as [[Hlen [r Hr]] Hgood]. simpl in Hroom.
    simpl collect. rewrite bool_decide_eq_true_2 by exact H1.
    rewrite bool_decide_eq_true_2 by exact Hlen.
    destruct room as [|room]; [lia|].
    rewrite Hr, bind_ret_l, IH, bind_ret_l by (try lia; exact Hgood).
    rewrite fmap_cons. unfold row_of at 2. rewrite Hr. reflexivity.
  - simpl collect. rewrite bool_decide_eq_false_2 by exact H1. apply IH; assumption.
Qed.

(** Conversely, collecting returns only when every record is accepted. *)
Lemma collect_ret_good (lines : list (list ascii)) (room : nat) (rows : list row) :
  collect strtof lines room = ret rows ->
  Forall (good_record strtof) (filter (fun line => startsWith line = 1%Z) lines) /\
  length (filter (fun line => startsWith line = 1%Z) lines) <= room.
Proof.
  revert room rows. induction lines as [|line lines IH]; intros room rows; simpl.
  - intros _. split; [constructor | simpl; lia].
  - rewrite filter_cons.
    destruct (decide (startsWith line = 1%Z)) as [H1 | H1].
    + rewrite bool_decide_eq_true_2 by exact H1.
      destruct (decide (MIN_LINE_LEN < strlen line)) as [Hlen | Hlen];
        [rewrite bool_decide_eq_true_2 by exact Hlen
        |rewrite bool_decide_eq_false_2 by exact Hlen; discriminate].
      destruct room as [|room].
      * destruct (getFloat_cases strtof (coordinate line 30)) as [[x ->] | ->];
          [rewrite bind_ret_l|]; discriminate.
      * destruct (parse_record_cases strtof line) as [[r Hr] | (e & He & Hr)];
          rewrite Hr; [|discriminate].
        rewrite bind_ret_l.
        pose proof (collect_collected strtof lines room) as Hc.
        inversion Hc as [rows' Hrows Heq | e He Heq | Heq]; try discriminate.
        intros _. destruct (IH room rows' (eq_sym Heq)) as [Hg Hl].
        split; [|simpl; lia].
        constructor; [|exact Hg]. split; [exact Hlen | exists r; exact Hr].
    + rewrite bool_decide_eq_false_2 by exact H1. apply IH.
Qed.

(** The record that is not accepted, after records that are, ends the
    program with its message. *)
Lemma collect_bad (good rest : list (list ascii)) (bad : list ascii) (room : nat) :
  Forall (fun line => startsWith line = 1%Z) (good ++ bad :: rest) ->
  Forall (good_record strtof) good ->
  ~ good_record strtof bad ->
  length good < room ->
  collect strtof (good ++ bad :: rest) room =
    (record_error strtof bad, Exit EXIT_FAILURE).
Proof.
  intros Hrec Hgood Hbad. revert room.
  induction Hgood as [|line good [Hlen [r Hr]] Hgood IH]; intros room Hroom.
  - simpl app in *. apply Forall_cons in Hrec as [H1 _].
    simpl collect. rewrite bool_decide_eq_true_2 by exact H1.
    unfold record_error.
    destruct (decide (MIN_LINE_LEN < strlen bad)) as [Hlen | Hlen].
    + rewrite !bool_decide_eq_true_2 by exact Hlen.
      destruct room as [|room]; [simpl in Hroom; lia|].
      destruct (parse_record_cases strtof bad) as [[r Hr] | (e & He & Hr)].
      * exfalso. apply Hbad. split; [exact Hlen | exists r; exact Hr].
      * rewrite Hr. reflexivity.
    + rewrite !bool_decide_eq_false_2 by exact Hlen. reflexivity.
  - simpl app in *. apply Forall_cons in Hrec as [H1 Hrec].
    simpl collect. rewrite bool_decide_eq_true_2 by exact H1.
    rewrite bool_decide_eq_true_2 by exact Hlen.
    destruct room as [|room]; [simpl in Hroom; lia|].
    rewrite Hr, bind_ret_l, IH by (try exact Hrec; simpl in Hroom; lia).
    reflexivity.
Qed.

Lemma atom_records_Forall (fp : FILE) :
  Forall (fun line => startsWith line = 1%Z) (atom_records fp).
Proof.
  apply Forall_forall. intros line Hin.
  apply list_elem_of_filter in Hin. apply Hin.
Qed.

Lemma filter_atom_records (fp : FILE) :
  filter (fun line => startsWith line = 1%Z) (atom_records fp) = atom_records fp.
Proof.
  unfold atom_records. induction (lines_of fp) as [|l ls IH]; [reflexivity|].
  rewrite filter_cons. destruct (decide (startsWith l = 1%Z)) as [H|H]; [|exact IH].
  rewrite filter_cons_True by exact H. rewrite IH. reflexivity.
Qed.

(** A file is processed from its records alone. *)
Lemma process_file_records (name : string) (fp : FILE) (fileLine : list ascii) :
  exists fileLine',
    forall fileAtoms,
      process_file strtof name fp fileLine fileAtoms =
        (rows <- collect strtof (atom_records fp) (length fileAtoms) ;;
         if read_error fp || (length rows =? 0)
         then printf (PrintZeroAtoms name) ;; return_from_main 1%Z
         else (report name rows, Ok (fileLine', rows ++ drop (length rows) fileAtoms))).
Proof.
  destruct (process_file_collect strtof name fp fileLine) as (fileLine' & Heq).
  exists fileLine'. intros fileAtoms. rewrite Heq, collect_filter. reflexivity.
Qed.

(** A good file reaches the statistics. *)
Lemma process_file_good (name : string) (fp : FILE) (fileLine : list ascii)
    (fileAtoms : list row) :
  length fileAtoms = MAX_ATOMS ->
  good_file strtof fp ->
  exists buffers,
    process_file strtof name fp fileLine fileAtoms =
      (report name (row_of strtof <$> atom_records fp), Ok buffers).
Proof.
  intros Hlen (Herr & [Hne Hfit] & Hgood).
  destruct (process_file_records name fp fileLine) as (fileLine' & Heq).
  rewrite Heq, collect_filter, filter_atom_records.
  rewrite <- (filter_atom_records fp) in Hgood, Hfit.
  rewrite collect_good by (try rewrite Hlen; assumption).
  rewrite filter_atom_records, bind_ret_l, Herr, length_fmap.
  destruct (atom_records fp) as [|l ls]; [simpl in Hne; lia|].
  eexists. reflexivity.
Qed.

(** And only a good file does. *)
Lemma process_file_Ok_good (name : string) (fp : FILE) (fileLine : list ascii)
    (fileAtoms : list row) (log : list event) (buffers : list ascii * list row) :
  length fileAtoms = MAX_ATOMS ->
  process_file strtof name fp fileLine fileAtoms = (log, Ok buffers) ->
  good_file strtof fp.
Proof.
  intros Hlen H.
  destruct (process_file_outcome strtof name fp fileLine fileAtoms)
    as [(rows & fileLine' & Hne & Hle & Herr & Hc & Heq) | [Heq | [(e & _ & Heq) | [_ Heq]]]];
    rewrite Heq in H; inversion H; subst.
  pose proof (collect_rows strtof _ _ _ Hc) as Hrows.
  apply collect_ret_good in Hc as [Hgood Hfit].
  fold (atom_records fp) in *.
  split; [exact Herr|]. split; [|exact Hgood].
  split; [|lia].
  destruct (atom_records fp); [|simpl; lia]. simpl in Hrows. congruence.
Qed.

End Files.

(** ** The files of a run, one after the other *)

Section Runs.
Variable strtof : list ascii -> strtof_result.
Variable fs : gmap string (list ascii * bool).

Lemma file_ok_report (name : string) (fileLine : list ascii) (fileAtoms : list row) :
  length fileAtoms = MAX_ATOMS ->
  file_ok strtof fs name ->
  exists fp buffers,
    fopen fs name = Some fp /\
    process_file strtof name fp fileLine fileAtoms =
      (file_report strtof fs name, Ok buffers).
Proof.
  intros Hlen (fp & Hfp & Hgood).
  destruct (process_file_good strtof name fp fileLine fileAtoms Hlen Hgood)
    as (buffers & Heq).
  exists fp, buffers. split; [exact Hfp|].
  unfold file_report. rewrite Hfp. exact Heq.
Qed.

(** How the file that ends a run ends it. *)
Lemma file_not_ok (name : string) :
  ~ file_ok strtof fs name ->
  (fopen fs name = None /\
   process_files_fresh strtof fs [name] = ([PrintOpenError name], Exit 1%Z)) \/
  (exists fp, fopen fs name = Some fp /\
     ((exists e, (e = PrintZeroAtoms name \/ input_error e = true) /\
         forall names, process_files_fresh strtof fs (name :: names) = ([e], Exit 1%Z)) \/
      (MAX_ATOMS < length (atom_records fp) /\
       forall names, process_files_fresh strtof fs (name :: names) = ([], Undefined)))).
Proof.
  intros Hbad. cbn [process_files_fresh].
  destruct (fopen fs name) as [fp|] eqn:Hfp; [right | left; split; reflexivity].
  exists fp. split; [reflexivity|].
  pose proof (process_file_Ok_good strtof name fp (replicate MAX_LINE END_OF_STRING)
                (replicate MAX_ATOMS zero_row)) as Hok.
  destruct (process_file_outcome strtof name fp (replicate MAX_LINE END_OF_STRING)
              (replicate MAX_ATOMS zero_row))
    as [(rows & fileLine' & _ & _ & _ & _ & Heq) | [Heq | [(e & He & Heq) | [Hc Heq]]]];
    rewrite Heq in *.
  - exfalso. apply Hbad. exists fp. split; [exact Hfp|].
    eapply Hok; [apply length_replicate | reflexivity].
  - left. exists (PrintZeroAtoms name). split; [left; reflexivity | reflexivity].
  - left. exists e. split; [right; exact He | reflexivity].
  - right. split; [|reflexivity].
    destruct (decide (MAX_ATOMS < length (atom_records fp))) as [Hlt | Hge]; [exact Hlt|].
    exfalso. apply (collect_fits strtof (lines_of fp) (length (replicate MAX_ATOMS zero_row))).
    + rewrite length_replicate. fold (atom_records fp). lia.
    + rewrite Hc. reflexivity.
Qed.

Lemma process_files_fresh_ok_cons (name : string) (names : list string) :
  file_ok strtof fs name ->
  process_files_fresh strtof fs (name :: names) =
    (file_report strtof fs name ++ (process_files_fresh strtof fs names).1,
     (process_files_fresh strtof fs names).2).
Proof.
  intros Hok.
  destruct (file_ok_report name (replicate MAX_LINE END_OF_STRING)
              (replicate MAX_ATOMS zero_row) (length_replicate _ _) Hok)
    as (fp & buffers & Hfp & Heq).
  cbn [process_files_fresh]. rewrite Hfp, Heq, bind_log_ok. reflexivity.
Qed.

(** The files of a run are processed in turn, as long as they are good. *)
Lemma process_files_fresh_app (names1 names2 : list string) :
  Forall (file_ok strtof fs) names1 ->
  process_files_fresh strtof fs (names1 ++ names2) =
    (mjoin (file_report strtof fs <$> names1) ++ (process_files_fresh strtof fs names2).1,
     (process_files_fresh strtof fs names2).2).
Proof.
  induction 1 as [|name names1 Hok Hoks IH].
  - simpl. destruct (process_files_fresh strtof fs names2). reflexivity.
  - simpl app. rewrite process_files_fresh_ok_cons by exact Hok.
    rewrite IH. cbn [fst snd fmap list_fmap mjoin list_join].
    rewrite app_assoc. reflexivity.
Qed.

(** The good files that start a list of names. *)
Lemma file_ok_prefix (names : list string) :
  Forall (file_ok strtof fs) names \/
  exists done name rest,
    names = done ++ name :: rest /\ Forall (file_ok strtof fs) done /\
    ~ file_ok strtof fs name.
Proof.
  induction names as [|name names IH]; [left; constructor|].
  destruct (fopen fs name) as [fp|] eqn:Hfp.
  - destruct (process_file_outcome strtof name fp (replicate MAX_LINE END_OF_STRING)
                (replicate MAX_ATOMS zero_row))
      as [(rows & fileLine' & _ & _ & _ & _ & Heq) | Hbad].
    + assert (Hok : file_ok strtof fs name).
      { exists fp. split; [exact Hfp|].
        eapply process_file_Ok_good; [apply length_replicate | exact Heq]. }
      destruct IH as [IH | (done & bad & rest & -> & Hdone & Hbad)].
      * left. constructor; assumption.
      * right. exists (name :: done), bad, rest. repeat split; auto.
    + right. exists [], name, names. repeat split; [constructor|].
      intros (fp' & Hfp' & Hgood). rewrite Hfp in Hfp'. inversion Hfp'; subst fp'.
      destruct (process_file_good strtof name fp (replicate MAX_LINE END_OF_STRING)
                  (replicate MAX_ATOMS zero_row) (length_replicate _ _) Hgood)
        as (buffers & Heq).
      rewrite Heq in Hbad.
      destruct Hbad as [H | [(e & _ & H) | [_ H]]]; discriminate.
  - right. exists [], name, names. repeat split; [constructor|].
    intros (fp & Hfp' & _). congruence.
Qed.

Lemma process_files_fresh_all_ok (names : list string) :
  Forall (file_ok strtof fs) names ->
  process_files_fresh strtof fs names =
    (mjoin (file_report strtof fs <$> names), Exit 0%Z).
Proof.
  intros Hok. rewrite <- (app_nil_r names) at 1.
  rewrite process_files_fresh_app by exact Hok. simpl. rewrite app_nil_r. reflexivity.
Qed.

Lemma process_files_fresh_bad (done rest : list string) (name : string) :
  Forall (file_ok strtof fs) done ->
  ~ file_ok strtof fs name ->
  (process_files_fresh strtof fs (done ++ name :: rest)).2 = Undefined \/
  exists e, error_message e = true /\ e <> PrintUsage /\
    process_files_fresh strtof fs (done ++ name :: rest) =
      (mjoin (file_report strtof fs <$> done) ++ [e], Exit 1%Z) /\
    (e = PrintOpenError name /\ fopen fs name = None \/
     (exists fp, fopen fs name = Some fp) /\
     (e = PrintZeroAtoms name \/ input_error e = true)).
Proof.
  intros Hdone Hbad. rewrite process_files_fresh_app by exact Hdone.
  destruct (file_not_ok name Hbad)
    as [[Hfp Heq] | (fp & Hfp & [(e & He & Heq) | [_ Heq]])].
  - right. exists (PrintOpenError name). split; [reflexivity|].
    split; [discriminate|]. split; [|left; split; [reflexivity | exact Hfp]].
    cbn [process_files_fresh] in Heq |- *. rewrite Hfp in *. reflexivity.
  - right. exists e. split.
    { destruct He as [-> | He]; [reflexivity|].
      destruct e; try discriminate; reflexivity. }
    split; [destruct He as [-> | He]; [discriminate | intros ->; discriminate]|].
    rewrite Heq. split; [reflexivity|]. right. split; [exists fp; exact Hfp | exact He].
  - left. rewrite Heq. reflexivity.
Qed.

End Runs.

Lemma main_fresh (strtof : list ascii -> strtof_result) (argv : list string)
    (fs : gmap string (list ascii * bool)) :
  MIN_ARGS <= length argv ->
  main strtof argv fs = process_files_fresh strtof fs (tail argv).
Proof.
  intros Hargs. unfold main.
  destruct (Nat.ltb_spec (length argv) MIN_ARGS); [lia|].
  apply process_files_fresh_eq, length_replicate.
Qed.

(** ** Runs that return 0 *)

(** Property X1. The program returns 0 exactly when it is given at least one
    file name and every file named opens, is read to its end, holds between
    1 and [MAX_ATOMS] records, each of more than 60 characters with three
    fields that convert. What is printed is then the four lines of each
    file, in the order of the command line. *)
Theorem main_success (strtof : list ascii -> strtof_result) (argv : list string)
    (fs : gmap string (list ascii * bool)) (log : list event) :
  main strtof argv fs = (log, Exit 0%Z) <->
  MIN_ARGS <= length argv /\
  Forall (file_ok strtof fs) (tail argv) /\
  log = mjoin (file_report strtof fs <$> tail argv).
Proof.
  split.
  - intros H.
    destruct (Nat.ltb_spec (length argv) MIN_ARGS) as [Hargs | Hargs].
    { unfold main in H. destruct (Nat.ltb_spec (length argv) MIN_ARGS); [|lia].
      discriminate H. }
    split; [exact Hargs|].
    rewrite main_fresh in H by exact Hargs.
    destruct (file_ok_prefix strtof fs (tail argv))
      as [Hok | (done & name & rest & Heq & Hdone & Hbad)].
    + split; [exact Hok|].
      rewrite process_files_fresh_all_ok in H by exact Hok. congruence.
    + exfalso. rewrite Heq in H.
      destruct (process_files_fresh_bad strtof fs done rest name Hdone Hbad)
        as [Hu | (e & _ & _ & He & _)].
      * rewrite H in Hu. discriminate Hu.
      * rewrite H in He. discriminate He.
  - intros (Hargs & Hok & ->).
    rewrite main_fresh by exact Hargs. apply process_files_fresh_all_ok, Hok.
Qed.

Lemma main_success_witness :
  MIN_ARGS <= length ["AnalyzeProtein"; "two.pdb"; "first.pdb"]%string /\
  Forall (file_ok strtof_c99 sample_files) ["two.pdb"; "first.pdb"]%string /\
  [PrintHeader "two.pdb" 2;
   PrintCg (F32.of_int 1) F32.zero F32.zero;
   PrintRg (F32.of_int 1);
   PrintDmax (F32.of_int 2);
   PrintHeader "first.pdb" 3;
   PrintCg (S754_finite false 16666667 1) F32.zero F32.zero;
   PrintRg (S754_finite false 11785113 2);
   PrintDmax (S754_finite false 12500000 3)] =
  mjoin (file_report strtof_c99 sample_files <$> ["two.pdb"; "first.pdb"]%string).
Proof.
  apply (proj1 (main_success strtof_c99 ["AnalyzeProtein"; "two.pdb"; "first.pdb"]%string
                  sample_files _)).
  vm_compute. reflexivity.
Defined.

(** ** Runs that fail *)

(** Property X2. When the program ends with a status other than 0, the
    status is 1 and the last thing printed is one error message: the usage
    when no file name is given; and otherwise a message about the first file
    that is not good, after the four lines of each file before it. The files
    after it are not read: their lines are not printed. *)
Theorem main_failure (strtof : list ascii -> strtof_result) (argv : list string)
    (fs : gmap string (list ascii * bool)) (log : list event) (status : Z) :
  main strtof argv fs = (log, Exit status) ->
  status <> 0%Z ->
  status = 1%Z /\
  ((length argv < MIN_ARGS /\ log = [PrintUsage]) \/
   (MIN_ARGS <= length argv /\
    exists done name rest e,
      tail argv = done ++ name :: rest /\
      Forall (file_ok strtof fs) done /\
      ~ file_ok strtof fs name /\
      log = mjoin (file_report strtof fs <$> done) ++ [e] /\
      (e = PrintOpenError name /\ fopen fs name = None \/
       (exists fp, fopen fs name = Some fp) /\
       (e = PrintZeroAtoms name \/ input_error e = true)))).
Proof.
  intros H Hstatus.
  destruct (Nat.ltb_spec (length argv) MIN_ARGS) as [Hargs | Hargs].
  { unfold main in H. destruct (Nat.ltb_spec (length argv) MIN_ARGS); [|lia].
    inversion H. split; [reflexivity|]. left. split; [exact Hargs | reflexivity]. }
  rewrite main_fresh in H by exact Hargs.
  destruct (file_ok_prefix strtof fs (tail argv))
    as [Hok | (done & name & rest & Heq & Hdone & Hbad)].
  { rewrite process_files_fresh_all_ok in H by exact Hok. congruence. }
  rewrite Heq in H.
  destruct (process_files_fresh_bad strtof fs done rest name Hdone Hbad)
    as [Hu | (e & _ & _ & He & Hcase)].
  { rewrite H in Hu. discriminate Hu. }
  rewrite H in He. inversion He; subst.
  split; [reflexivity|]. right. split; [exact Hargs|].
  exists done, name, rest, e. auto.
Qed.

Lemma main_failure_witness :
  1%Z = 1%Z /\
  ((length ["AnalyzeProtein"; "two.pdb"; "short.pdb"; "first.pdb"]%string < MIN_ARGS /\
    [PrintHeader "two.pdb" 2; PrintCg (F32.of_int 1) F32.zero F32.zero;
     PrintRg (F32.of_int 1); PrintDmax (F32.of_int 2); PrintTooShort 60] = [PrintUsage]) \/
   (MIN_ARGS <= length ["AnalyzeProtein"; "two.pdb"; "short.pdb"; "first.pdb"]%string /\
    exists done name rest e,
      tail ["AnalyzeProtein"; "two.pdb"; "short.pdb"; "first.pdb"]%string =
        done ++ name :: rest /\
      Forall (file_ok strtof_c99 sample_files) done /\
      ~ file_ok strtof_c99 sample_files name /\
      [PrintHeader "two.pdb" 2; PrintCg (F32.of_int 1) F32.zero F32.zero;
       PrintRg (F32.of_int 1); PrintDmax (F32.of_int 2); PrintTooShort 60] =
        mjoin (file_report strtof_c99 sample_files <$> done) ++ [e] /\
      (e = PrintOpenError name /\ fopen sample_files name = None \/
       (exists fp, fopen sample_files name = Some fp) /\
       (e = PrintZeroAtoms name \/ input_error e = true)))).
Proof.
  apply (main_failure strtof_c99
           ["AnalyzeProtein"; "two.pdb"; "short.pdb"; "first.pdb"]%string sample_files).
  - vm_compute. reflexivity.
  - discriminate.
Defined.

(** ** Several files *)

(** Property X3. The files of the command line are processed in turn and
    independently: a run over the names [names1] followed by [names2] is the
    run over [names1] and, when that one returns 0, the run over [names2]
    after it; when the first run ends otherwise, the files of [names2] are
    not touched. *)
Theorem main_files_in_turn (strtof : list ascii -> strtof_result) (prog : string)
    (names1 names2 : list string) (fs : gmap string (list ascii * bool)) :
  names1 <> [] -> names2 <> [] ->
  main strtof (prog :: names1 ++ names2) fs =
    match main strtof (prog :: names1) fs with
    | (log1, Exit 0%Z) =>
        ((log1 ++ (main strtof (prog :: names2) fs).1)%list,
         (main strtof (prog :: names2) fs).2)
    | run1 => run1
    end.
Proof.
  intros Hne1 Hne2.
  rewrite !main_fresh
    by (simpl; rewrite ?length_app; destruct names1, names2; simpl; unfold MIN_ARGS;
        try congruence; lia).
  cbn [tail]. clear Hne1 Hne2.
  destruct (file_ok_prefix strtof fs names1)
    as [Hok | (done & name & rest & -> & Hdone & Hbad)].
  - rewrite process_files_fresh_app by exact Hok.
    rewrite (process_files_fresh_all_ok strtof fs names1) by exact Hok. reflexivity.
  - rewrite <- app_assoc. cbn [app].
    rewrite !(process_files_fresh_app strtof fs done) by exact Hdone.
    destruct (file_not_ok strtof fs name Hbad)
      as [[Hfp _] | (fp & Hfp & [(e & He & Heq) | [_ Heq]])].
    + cbn [process_files_fresh]. rewrite Hfp. reflexivity.
    + rewrite !Heq. reflexivity.
    + rewrite !Heq. reflexivity.
Qed.

Lemma main_files_in_turn_witness :
  main strtof_c99 ("AnalyzeProtein" :: ["two.pdb"] ++ ["short.pdb"; "two.pdb"])%string
    sample_files =
  ([PrintHeader "two.pdb" 2;
    PrintCg (F32.of_int 1) F32.zero F32.zero;
    PrintRg (F32.of_int 1);
    PrintDmax (F32.of_int 2);
    PrintTooShort 60], Exit 1%Z).
Proof.
  refine (main_files_in_turn strtof_c99 "AnalyzeProtein" ["two.pdb"]%string
            ["short.pdb"; "two.pdb"]%string sample_files _ _); discriminate.
Defined.

(** ** Memory safety *)

(** Property X4. When no file named on the command line holds more than
    [MAX_ATOMS] [ATOM] lines, no access leaves the atom array and the
    program ends with the status 0 or 1, whatever the files hold. *)
Theorem main_memory_safe (strtof : list ascii -> strtof_result) (argv : list string)
    (fs : gmap string (list ascii * bool)) :
  (forall name fp, name ∈ tail argv -> fopen fs name = Some fp ->
     length (atom_records fp) <= MAX_ATOMS) ->
  exists log status,
    main strtof argv fs = (log, Exit status) /\ (status = 0%Z \/ status = 1%Z).
Proof.
  intros Hfit.
  destruct (Nat.ltb_spec (length argv) MIN_ARGS) as [Hargs | Hargs].
  { unfold main. destruct (Nat.ltb_spec (length argv) MIN_ARGS); [|lia].
    eexists _, _. split; [reflexivity | right; reflexivity]. }
  rewrite main_fresh by exact Hargs.
  destruct (file_ok_prefix strtof fs (tail argv))
    as [Hok | (done & name & rest & Heq & Hdone & Hbad)].
  { rewrite process_files_fresh_all_ok by exact Hok.
    eexists _, _. split; [reflexivity | left; reflexivity]. }
  rewrite Heq in *.
  rewrite process_files_fresh_app by exact Hdone.
  destruct (file_not_ok strtof fs name Hbad)
    as [[Hfp _] | (fp & Hfp & [(e & He & Hrun) | [Hmore _]])].
  - cbn [process_files_fresh]. rewrite Hfp.
    eexists _, _. split; [reflexivity | right; reflexivity].
  - rewrite Hrun. eexists _, _. split; [reflexivity | right; reflexivity].
  - exfalso. specialize (Hfit name fp). 
    assert (name ∈ done ++ name :: rest) by (apply elem_of_app; right; left).
    specialize (Hfit H Hfp). lia.
Qed.

Lemma main_memory_safe_witness :
  exists log status,
    main strtof_c99 ["AnalyzeProtein"; "two.pdb"; "missing.pdb"]%string sample_files =
      (log, Exit status) /\ (status = 0%Z \/ status = 1%Z).
Proof.
  apply main_memory_safe.
  intros name fp Hin Hfp.
  cbn [tail] in Hin.
  apply elem_of_cons in Hin as [-> | Hin].
  - vm_compute in Hfp. inversion Hfp. apply Nat.leb_le. vm_compute. reflexivity.
  - apply elem_of_cons in Hin as [-> | Hin]; [vm_compute in Hfp; discriminate Hfp|].
    apply elem_of_nil in Hin. contradiction.
Defined.

(** ** Files without atoms *)

(** Property X5. A file with no record, the empty file among them, prints
    the message about 0 atoms and the program returns 1. A file whose
    reading fails prints the same message although atoms were read, when its
    records are all accepted. The message is printed in these two cases
    only, and it is then all that the file prints. *)
Theorem file_without_records (strtof : list ascii -> strtof_result) (name : string)
    (fp : FILE) (fileLine : list ascii) (fileAtoms : list row) :
  (atom_records fp = [] ->
     process_file strtof name fp fileLine fileAtoms = ([PrintZeroAtoms name], Exit 1%Z)) /\
  (read_error fp = true ->
   Forall (good_record strtof) (atom_records fp) ->
   length (atom_records fp) <= length fileAtoms ->
     process_file strtof name fp fileLine fileAtoms = ([PrintZeroAtoms name], Exit 1%Z)) /\
  (forall log res name',
     process_file strtof name fp fileLine fileAtoms = (log, res) ->
     PrintZeroAtoms name' ∈ log ->
     name' = name /\ log = [PrintZeroAtoms name] /\ res = Exit 1%Z /\
     (atom_records fp = [] \/ read_error fp = true)).
Proof.
  destruct (process_file_records strtof name fp fileLine) as (fileLine' & Heq).
  rewrite Heq. split; [|split].
  - intros ->. simpl. rewrite bind_ret_l, orb_true_r. reflexivity.
  - intros Herr Hgood Hfit.
    rewrite collect_good by (rewrite filter_atom_records; assumption).
    rewrite bind_ret_l, Herr. reflexivity.
  - intros log res name' H Hin.
    pose proof (collect_rows strtof (atom_records fp) (length fileAtoms)) as Hrows.
    destruct (collect_collected strtof (atom_records fp) (length fileAtoms))
      as [rows Hfit | e He |].
    + rewrite bind_ret_l in H. specialize (Hrows rows eq_refl).
      rewrite filter_atom_records in Hrows.
      destruct (read_error fp) eqn:Herr; simpl in H.
      * inversion H; subst. apply list_elem_of_singleton in Hin. inversion Hin. auto.
      * destruct rows as [|r rows]; simpl in H.
        -- inversion H; subst. apply list_elem_of_singleton in Hin. inversion Hin.
           repeat split; auto. left.
           destruct (atom_records fp); [reflexivity | discriminate].
        -- inversion H; subst. unfold report in Hin. exfalso.
           repeat (apply elem_of_cons in Hin as [Hin|Hin]; [discriminate Hin|]).
           apply elem_of_nil in Hin. exact Hin.
    + inversion H; subst. apply list_elem_of_singleton in Hin. subst e. discriminate.
    + inversion H; subst. apply elem_of_nil in Hin. contradiction.
Qed.

Lemma file_without_records_witness :
  process_file strtof_c99 "empty.pdb" (mk_FILE [] false false)
    (replicate MAX_LINE END_OF_STRING) [zero_row] =
  ([PrintZeroAtoms "empty.pdb"], Exit 1%Z).
Proof.
  exact (proj1 (file_without_records strtof_c99 "empty.pdb" (mk_FILE [] false false)
                  (replicate MAX_LINE END_OF_STRING) [zero_row]) eq_refl).
Defined.

(** ** The first record that is not accepted *)

(** Property X6. When the records of a file are accepted up to one that is
    not, the program leaves with the failure status at that record, and all
    that the file prints is the message about it: its length when it has at
    most 60 characters, and otherwise the text of its first field, in the
    order x, y, z, whose conversion fails. Nothing is printed for the
    records before it. *)
Theorem first_bad_record (strtof : list ascii -> strtof_result) (name : string)
    (fp : FILE) (fileLine : list ascii) (fileAtoms : list row)
    (good rest : list (list ascii)) (bad : list ascii) :
  atom_records fp = good ++ bad :: rest ->
  Forall (good_record strtof) good ->
  ~ good_record strtof bad ->
  length good < length fileAtoms ->
  process_file strtof name fp fileLine fileAtoms =
    (record_error strtof bad, Exit EXIT_FAILURE) /\
  (strlen bad <= MIN_LINE_LEN -> record_error strtof bad = [PrintTooShort (strlen bad)]) /\
  (MIN_LINE_LEN < strlen bad ->
     exists k, k < COORDINATES /\
       conversion_fails (strtof (coordinate bad (30 + COORDINATE_LEN * k))) = true /\
       (forall k', k' < k ->
          conversion_fails (strtof (coordinate bad (30 + COORDINATE_LEN * k'))) = false) /\
       record_error strtof bad =
         [PrintConversionError
            (take COORDINATE_LEN (drop (30 + COORDINATE_LEN * k) (c_str bad)))]).
Proof.
  intros Hrec Hgood Hbad Hroom. split; [|split].
  - destruct (process_file_records strtof name fp fileLine) as (fileLine' & Heq).
    rewrite Heq, Hrec, collect_bad; try assumption; [reflexivity|].
    rewrite <- Hrec. apply atom_records_Forall.
  - intros Hlen. unfold record_error.
    rewrite bool_decide_eq_false_2 by lia. reflexivity.
  - intros Hlen. unfold record_error.
    rewrite bool_decide_eq_true_2 by exact Hlen.
    assert (Hc : forall off, off + COORDINATE_LEN <= 54 ->
              c_str (coordinate bad off) = take COORDINATE_LEN (drop off (c_str bad))).
    { intros off Hoff. apply coordinate_c_str. unfold MIN_LINE_LEN in Hlen. lia. }
    unfold parse_record. rewrite !getFloat_eq.
    destruct (conversion_fails (strtof (coordinate bad 30))) eqn:Hx.
    { exists 0. repeat split; [unfold COORDINATES; lia | exact Hx | intros; lia |].
      simpl. rewrite <- Hc by (unfold COORDINATE_LEN; lia). reflexivity. }
    rewrite bind_ret_l.
    destruct (conversion_fails (strtof (coordinate bad 38))) eqn:Hy.
    { exists 1. repeat split; [unfold COORDINATES; lia | exact Hy | |].
      - intros k' Hk'. replace k' with 0 by lia. exact Hx.
      - simpl. rewrite <- Hc by (unfold COORDINATE_LEN; lia). reflexivity. }
    rewrite bind_ret_l.
    destruct (conversion_fails (strtof (coordinate bad 46))) eqn:Hz.
    { exists 2. repeat split; [unfold COORDINATES; lia | exact Hz | |].
      - intros k' Hk'. destruct k' as [|[|k']]; [exact Hx | exact Hy | lia].
      - simpl. rewrite <- Hc by (unfold COORDINATE_LEN; lia). reflexivity. }
    exfalso. apply Hbad. split; [exact Hlen|].
    unfold parse_record. rewrite !getFloat_eq, Hx, bind_ret_l, Hy, bind_ret_l, Hz, bind_ret_l.
    eexists. reflexivity.
Qed.

Lemma first_bad_record_witness :
  process_file strtof_c99 "bad.pdb"
    (mk_FILE (record "   0.000" "   0.000" "   0.000" ++
              record "   2.000" "        " "   1.000" ++
              line_of_60) false false)
    (replicate MAX_LINE END_OF_STRING) [zero_row; zero_row; zero_row] =
  ([PrintConversionError (list_ascii_of_string "        ")], Exit EXIT_FAILURE).
Proof.
  refine (proj1 (first_bad_record strtof_c99 "bad.pdb" _ _ _
                   [c_str (record "   0.000" "   0.000" "   0.000")]
                   [line_of_60]
                   (c_str (record "   2.000" "        " "   1.000")) _ _ _ _)).
  - vm_compute. reflexivity.
  - repeat constructor. eexists. vm_compute. reflexivity.
  - intros [_ [r Hr]]. vm_compute in Hr. discriminate Hr.
  - simpl. lia.
Defined.

(** ** Lines that are not records *)

(** Property X7. What a file prints and how it ends depend on the file
    through its [ATOM] lines only: two files with the same [ATOM] lines in
    the same order, whatever other lines they hold and wherever, give the
    same output and the same end. *)
Theorem other_lines_ignored (strtof : list ascii -> strtof_result) (name : string)
    (fp1 fp2 : FILE) (fileLine1 fileLine2 : list ascii) (fileAtoms1 fileAtoms2 : list row) :
  atom_records fp1 = atom_records fp2 ->
  read_error fp1 = read_error fp2 ->
  length fileAtoms1 = length fileAtoms2 ->
  observe (process_file strtof name fp1 fileLine1 fileAtoms1) =
  observe (process_file strtof name fp2 fileLine2 fileAtoms2).
Proof.
  intros Hrec Herr Hlen.
  destruct (process_file_records strtof name fp1 fileLine1) as (l1 & ->).
  destruct (process_file_records strtof name fp2 fileLine2) as (l2 & ->).
  rewrite Hrec, Herr, Hlen.
  destruct (collect strtof (atom_records fp2) (length fileAtoms2)) as [log [rows|s| |]];
    try reflexivity.
  unfold bind, observe.
  destruct (read_error fp2 || (length rows =? 0)); reflexivity.
Qed.

Lemma other_lines_ignored_witness :
  observe (process_file strtof_c99 "two.pdb" (mk_FILE two_atoms false false)
             (replicate MAX_LINE END_OF_STRING) [zero_row; zero_row]) =
  observe (process_file strtof_c99 "two.pdb"
             (mk_FILE (record "   0.000" "   0.000" "   0.000" ++
                       list_ascii_of_string "TER" ++ [newline] ++
                       record "   2.000" "   0.000" "   0.000" ++
                       list_ascii_of_string "END") false false)
             (replicate MAX_LINE END_OF_STRING) [zero_row; zero_row]).
Proof.
  apply other_lines_ignored.
  - vm_compute. reflexivity.
  - reflexivity.
  - reflexivity.
Defined.

(** ** The pieces of a file *)

(** What one [fgets] takes: no more than the buffer allows, a newline at
    its end only, and, unless the data ran out, a newline at its end or as
    many characters as allowed. *)
Lemma read_chars_chunk (n : nat) (s : list ascii) :
  length (read_chars n s).1.1 <= n /\
  (forall k, S k < length (read_chars n s).1.1 ->
     (read_chars n s).1.1 !! k <> Some newline) /\
  ((read_chars n s).2 = false ->
     last (read_chars n s).1.1 = Some newline \/ length (read_chars n s).1.1 = n).
Proof.
  revert s. induction n as [|n IH]; intros s; simpl.
  - repeat split; [lia | intros k Hk; simpl in Hk; lia | auto].
  - destruct s as [|c s]; simpl.
    + repeat split; [lia | intros k Hk; lia | discriminate].
    + destruct (Ascii.eqb_spec c newline) as [-> | Hc]; simpl.
      * repeat split; [lia | intros k Hk; lia | auto].
      * specialize (IH s). destruct (read_chars n s) as [[chunk rest] hit]. simpl in *.
        destruct IH as (H1 & H2 & H3).
        repeat split; [lia | |].
        -- intros [|k] Hk; simpl; [congruence | apply H2; lia].
        -- intros Hhit. destruct (H3 Hhit) as [Hl | Hl]; [left | right; lia].
           destruct chunk as [|c' chunk]; [discriminate Hl | exact Hl].
Qed.

Lemma file_lines_pieces (fuel : nat) (data : list ascii) (e : bool) :
  length data < fuel ->
  Forall (fun c => c <> END_OF_STRING) data ->
  let pieces := file_lines fuel (mk_FILE data false e) in
  mjoin pieces = data /\
  (forall i l, pieces !! i = Some l ->
     1 <= length l <= MAX_LINE - 1 /\
     (forall k, S k < length l -> l !! k <> Some newline) /\
     (S i < length pieces -> last l = Some newline \/ length l = MAX_LINE - 1)).
Proof.
  revert data e. induction fuel as [|fuel IH]; intros data e Hfuel Hnul; [lia|].
  cbn [file_lines]. unfold fgets. cbn [unread read_error eof].
  pose proof (read_chars_spec (MAX_LINE - 1) data) as (Hd & Hrest & Hempty & Hzero).
  pose proof (read_chars_chunk (MAX_LINE - 1) data) as (Hlen & Hnl & Hfull).
  destruct (read_chars (MAX_LINE - 1) data) as [[chunk rest] hit]. cbn [fst snd] in *.
  assert (Hchunk : Forall (fun c => c <> END_OF_STRING) chunk)
    by (rewrite Hd in Hnul; apply Forall_app in Hnul; apply Hnul).
  assert (Hstr : forall b, c_str (fill chunk b) = chunk)
    by (intros b; unfold fill; rewrite c_str_app_nul; apply c_str_id, Hchunk).
  destruct hit.
  - rewrite (Hrest eq_refl), app_nil_r in Hd. subst chunk.
    destruct data as [|c data].
    + split; [reflexivity|]. intros i l Hl. discriminate Hl.
    + rewrite Hstr.
      assert (Hend : file_lines fuel (mk_FILE [] false true) = []).
      { destruct fuel as [|fuel']; [simpl in Hfuel; lia | reflexivity]. }
      rewrite Hend. split; [simpl; rewrite app_nil_r; reflexivity|].
      intros [|i] l Hl; [|discriminate Hl]. inversion Hl; subst l.
      repeat split; [simpl; lia | exact Hlen | exact Hnl | simpl; lia].
  - rewrite Hstr.
    assert (Hne : chunk <> []).
    { intros ->. specialize (Hzero eq_refl eq_refl). discriminate Hzero. }
    assert (Hrl : length rest < fuel).
    { rewrite Hd, length_app in Hfuel. destruct chunk; [congruence | simpl in Hfuel; lia]. }
    assert (Hrn : Forall (fun c => c <> END_OF_STRING) rest)
      by (rewrite Hd in Hnul; apply Forall_app in Hnul; apply Hnul).
    destruct (IH rest e Hrl Hrn) as (Hjoin & Hpieces).
    split.
    { transitivity (chunk ++ mjoin (file_lines fuel (mk_FILE rest false e))); [reflexivity|].
      rewrite Hjoin. symmetry. exact Hd. }
    intros [|i] l Hl.
    + inversion Hl; subst l.
      repeat split; [destruct chunk; [congruence | simpl; lia] | exact Hlen | exact Hnl |].
      intros _. apply Hfull. reflexivity.
    + destruct (Hpieces i l Hl) as (H1 & H2 & H3).
      repeat split; [apply H1 | apply H1 | exact H2 |].
      intros Hi. apply H3. simpl in Hi. lia.
Qed.

(** Property X8. The loop of [main] reads a file as the pieces that the
    calls to [fgets] take in turn. For a file without NUL characters whose
    reading does not fail: the pieces, put end to end, are the file,
    nothing lost and nothing read twice; each piece has between 1 and 79
    characters, with no newline but at its end; each piece but the last
    ends with a newline or has 79 characters; and the loop runs its body
    once on each piece, in this order, and stops at the end of the file,
    so that the file is processed as these pieces: a line of more than 79
    characters is processed as several lines. *)
Theorem file_read_in_pieces (strtof : list ascii -> strtof_result)
    (data fileLine : list ascii) :
  Forall (fun c => c <> END_OF_STRING) data ->
  let fp := mk_FILE data false false in
  let pieces := lines_of fp in
  mjoin pieces = data /\
  (forall i l, pieces !! i = Some l ->
     1 <= length l <= MAX_LINE - 1 /\
     (forall k, S k < length l -> l !! k <> Some newline) /\
     (S i < length pieces -> last l = Some newline \/ length l = MAX_LINE - 1)) /\
  exists fp' fileLine',
    feof fp' = 1%Z /\
    (forall atomCounter fileAtoms,
       read_lines strtof (S (length data)) (mk_reader fp fileLine atomCounter fileAtoms) =
         (next <- run_lines strtof pieces atomCounter fileAtoms ;;
          ret (mk_reader fp' fileLine' next.1 next.2))) /\
    (forall name fileAtoms,
       process_file strtof name fp fileLine fileAtoms =
         (next <- run_lines strtof pieces 0 fileAtoms ;;
          if (next.1 =? 0) then
            printf (PrintZeroAtoms name) ;; return_from_main 1%Z
          else
            printf (PrintHeader name next.1) ;;
            gravityCenter <- calCenterOfGravity next.1 next.2 ;;
            calRotationRadious next.1 next.2 gravityCenter ;;
            calMaxDistance next.1 next.2 ;;
            ret (fileLine', next.2))).
Proof.
  intros Hnul fp pieces.
  destruct (file_lines_pieces (S (length data)) data false ltac:(lia) Hnul)
    as (Hjoin & Hpieces).
  split; [exact Hjoin|]. split; [exact Hpieces|].
  destruct (read_lines_run_lines strtof (S (length (unread fp))) fp fileLine
              ltac:(lia)) as (fp' & fileLine' & Heof & Heq).
  exists fp', fileLine'.
  assert (Hfeof : feof fp' = 1%Z) by (unfold feof; rewrite Heof; reflexivity).
  split; [exact Hfeof|]. split; [exact Heq|].
  intros name fileAtoms. unfold process_file.
  change (length (unread fp)) with (length data).
  change (S (length data)) with (S (length (unread fp))).
  rewrite Heq, bind_assoc. apply bind_ext. intros next.
  rewrite bind_ret_l. cbn [r_fp r_atomCounter r_fileAtoms r_fileLine].
  rewrite Hfeof. reflexivity.
Qed.

Lemma file_read_in_pieces_witness :
  mjoin (lines_of (mk_FILE long_remark false false)) = long_remark /\
  lines_of (mk_FILE long_remark false false) =
    [take 79 long_remark; record "   1.000" "   2.000" "   3.000"] /\
  observe (process_file strtof_c99 "long.pdb" (mk_FILE long_remark false false)
             (replicate MAX_LINE END_OF_STRING) [zero_row]) =
    ([PrintHeader "long.pdb" 1;
      PrintCg (F32.of_int 1) (F32.of_int 2) (F32.of_int 3);
      PrintRg F32.zero; PrintDmax F32.zero], Ok tt).
Proof.
  split; [|split; vm_compute; reflexivity].
  refine (proj1 (file_read_in_pieces strtof_c99 long_remark [] _)).
  apply Forall_forall. intros c Hc. intros ->. vm_compute in Hc.
  repeat (apply elem_of_cons in Hc as [Hc | Hc]; [discriminate Hc|]).
  apply elem_of_nil in Hc. exact Hc.
Defined.

(** ** The columns that are read *)

Lemma take_drop_take {A} (k n m : nat) (l : list A) :
  k + n <= m -> take n (drop k (take m l)) = take n (drop k l).
Proof.
  intros H. rewrite !take_drop_commute, take_take, Nat.min_l by lia. reflexivity.
Qed.

(** A field is a part of the 24 characters from column 30. *)
Lemma coordinate_fields (line : list ascii) (k : nat) :
  k < COORDINATES ->
  coordinate line (30 + COORDINATE_LEN * k) =
    take COORDINATE_LEN
      (drop (COORDINATE_LEN * k)
         (take (COORDINATES * COORDINATE_LEN) (drop 30 (c_str line)))) ++ [END_OF_STRING].
Proof.
  intros Hk. unfold coordinate. f_equal.
  rewrite take_drop_take by (unfold COORDINATES, COORDINATE_LEN in *; lia).
  rewrite drop_drop. reflexivity.
Qed.

(** Property X9. Of a record of more than 60 characters the program reads
    the 24 characters of the three fields and nothing else: two records that
    agree on them have the same effect, whatever their other columns hold
    (atom and residue names, numbers, occupancy, what follows) and whatever
    their lengths. *)
Theorem other_columns_ignored (strtof : list ascii -> strtof_result)
    (fileLine1 fileLine2 : list ascii) (atomCounter : nat) (fileAtoms : list row) :
  startsWith fileLine1 = 1%Z -> startsWith fileLine2 = 1%Z ->
  MIN_LINE_LEN < strlen fileLine1 -> MIN_LINE_LEN < strlen fileLine2 ->
  take (COORDINATES * COORDINATE_LEN) (drop 30 (c_str fileLine1)) =
    take (COORDINATES * COORDINATE_LEN) (drop 30 (c_str fileLine2)) ->
  line_body strtof fileLine1 atomCounter fileAtoms =
  line_body strtof fileLine2 atomCounter fileAtoms.
Proof.
  intros Hs1 Hs2 Hl1 Hl2 Heq.
  assert (Hc : forall k, k < COORDINATES ->
            coordinate fileLine1 (30 + COORDINATE_LEN * k) =
            coordinate fileLine2 (30 + COORDINATE_LEN * k)).
  { intros k Hk. rewrite !coordinate_fields, Heq by exact Hk. reflexivity. }
  pose proof (Hc 0 ltac:(unfold COORDINATES; lia)) as H0.
  pose proof (Hc 1 ltac:(unfold COORDINATES; lia)) as H1.
  pose proof (Hc 2 ltac:(unfold COORDINATES; lia)) as H2.
  change (30 + COORDINATE_LEN * 0) with 30 in H0.
  change (30 + COORDINATE_LEN * 1) with 38 in H1.
  change (30 + COORDINATE_LEN * 2) with 46 in H2.
  rewrite !line_body_parse by assumption.
  destruct (decide (atomCounter < length fileAtoms)) as [Hlt | Hge].
  - rewrite !parseLine_coordinates by assumption. rewrite H0, H1, H2. reflexivity.
  - rewrite !parseLine_overflow by (try assumption; lia). rewrite H0. reflexivity.
Qed.

Lemma other_columns_ignored_witness :
  line_body strtof_c99 (record "   1.000" "   2.000" "   3.000") 0 [zero_row] =
  line_body strtof_c99
    (list_ascii_of_string
       "ATOM    977  CA  GLY B 120       1.000   2.000   3.000  0.50 41.27           C")
    0 [zero_row].
Proof.
  apply other_columns_ignored.
  - reflexivity.
  - reflexivity.
  - apply Nat.ltb_lt. vm_compute. reflexivity.
  - apply Nat.ltb_lt. vm_compute. reflexivity.
  - vm_compute. reflexivity.
Defined.

(** ** Blank fields *)

Lemma isspace_not_nul (s : list ascii) :
  Forall (fun c => isspace c = true) s -> Forall (fun c => c <> END_OF_STRING) s.
Proof.
  intros H. eapply Forall_impl; [exact H|]. intros c Hc ->. discriminate Hc.
Qed.

Lemma skip_spaces_all (s : list ascii) :
  Forall (fun c => isspace c = true) s -> skip_spaces s = length s.
Proof.
  induction 1 as [|c s Hc Hs IH]; [reflexivity|].
  simpl. rewrite Hc, IH. reflexivity.
Qed.

(** Property X10. With [strtof_c99], a field of white space only is not a
    number: nothing is converted, [getFloat] prints the conversion error
    with the field and the program leaves with the failure status. A record
    whose first field is blank ends the program in this way: a blank is not
    read as zero. *)
Theorem blank_field_is_fatal (field : list ascii) :
  Forall (fun c => isspace c = true) field ->
  sr_consumed (strtof_c99 (field ++ [END_OF_STRING])) = 0 /\
  getFloat strtof_c99 (field ++ [END_OF_STRING]) =
    ([PrintConversionError field], Exit EXIT_FAILURE) /\
  (forall fileLine atomCounter fileAtoms,
     startsWith fileLine = 1%Z -> MIN_LINE_LEN < strlen fileLine ->
     take COORDINATE_LEN (drop 30 (c_str fileLine)) = field ->
     line_body strtof_c99 fileLine atomCounter fileAtoms =
       ([PrintConversionError field], Exit EXIT_FAILURE)).
Proof.
  intros Hsp.
  assert (Hstr : c_str (field ++ [END_OF_STRING]) = field)
    by (rewrite c_str_app_nul; apply c_str_id, isspace_not_nul, Hsp).
  assert (Hr : strtof_c99 (field ++ [END_OF_STRING]) = mk_strtof_result F32.zero 0 0).
  { unfold strtof_c99. rewrite Hstr, skip_spaces_all, drop_all by exact Hsp. reflexivity. }
  assert (Hg : getFloat strtof_c99 (field ++ [END_OF_STRING]) =
               ([PrintConversionError field], Exit EXIT_FAILURE)).
  { rewrite getFloat_eq, Hr, Hstr. reflexivity. }
  split; [rewrite Hr; reflexivity|]. split; [exact Hg|].
  intros fileLine atomCounter fileAtoms Hs Hlen Hfield.
  rewrite line_body_parse by assumption.
  assert (Hc : coordinate fileLine 30 = field ++ [END_OF_STRING])
    by (unfold coordinate; rewrite Hfield; reflexivity).
  destruct (decide (atomCounter < length fileAtoms)) as [Hlt | Hge].
  - rewrite parseLine_coordinates, Hc, Hg by assumption. reflexivity.
  - rewrite parseLine_overflow, Hc, Hg by (try assumption; lia). reflexivity.
Qed.

Lemma blank_field_is_fatal_witness :
  getFloat strtof_c99 (list_ascii_of_string "        " ++ [END_OF_STRING]) =
    ([PrintConversionError (list_ascii_of_string "        ")], Exit EXIT_FAILURE).
Proof.
  refine (proj1 (proj2 (blank_field_is_fatal (list_ascii_of_string "        ") _))).
  repeat constructor.
Defined.

(** ** Signs of quotients and sums *)

Section Quotients.
Variables prec emax : Z.

Lemma SFdiv_core_binary_nonneg (mx my : positive) (ex ey : Z) :
  (0 <= (SFdiv_core_binary prec emax (Z.pos mx) ex (Z.pos my) ey).1.1)%Z.
Proof.
  unfold SFdiv_core_binary.
  set (m' := match (ex - ey - _)%Z with Z0 => _ | Zpos _ => _ | Zneg _ => _ end).
  assert (Hm' : (0 <= m')%Z).
  { subst m'. destruct (ex - ey - _)%Z; try lia. apply Z.shiftl_nonneg. lia. }
  pose proof (Z_div_mod m' (Z.pos my) ltac:(lia)) as Hd.
  destruct (Z.div_eucl m' (Z.pos my)) as [q r]. simpl. nia.
Qed.

Lemma SFdiv_nonneg_or_nan (x y : float) :
  nonneg_or_nan x = true -> nonneg y = true ->
  nonneg_or_nan (SFdiv prec emax x y) = true.
Proof.
  unfold nonneg_or_nan at 1.
  destruct x as [[]|[]| |[] mx ex], y as [[]|[]| |[] my ey]; simpl; try congruence;
    intros _ _; try reflexivity.
  destruct (SFdiv_core_binary prec emax (Z.pos mx) ex (Z.pos my) ey) as [[mz ez] lz].
  apply binary_round_aux_nonneg_or_nan.
Qed.

Lemma SFdiv_nonneg (x y : float) :
  nonneg x = true -> positive_finite y = true -> nonneg (SFdiv prec emax x y) = true.
Proof.
  destruct x as [[]|[]| |[] mx ex], y as [[]|[]| |[] my ey]; simpl; try congruence.
  intros _ _. pose proof (SFdiv_core_binary_nonneg mx my ex ey) as Hq.
  destruct (SFdiv_core_binary prec emax (Z.pos mx) ex (Z.pos my) ey) as [[mz ez] lz].
  apply binary_round_aux_nonneg. exact Hq.
Qed.

Lemma SFdiv_not_nan (x y : float) :
  is_nan x = false -> positive_finite y = true -> is_nan (SFdiv prec emax x y) = false.
Proof.
  destruct x as [[]|[]| |sx mx ex], y as [[]|[]| |[] my ey]; simpl; try congruence.
  intros _ _. pose proof (SFdiv_core_binary_nonneg mx my ex ey) as Hq.
  destruct (SFdiv_core_binary prec emax (Z.pos mx) ex (Z.pos my) ey) as [[mz ez] lz].
  apply binary_round_aux_not_nan. exact Hq.
Qed.

Lemma SFadd_not_nan (x y : float) :
  is_nan x = false -> is_finite y = true -> is_nan (SFadd prec emax x y) = false.
Proof.
  destruct x as [[]|[]| |sx mx ex], y as [[]|[]| |sy my ey]; simpl; try congruence.
  intros _ _. apply binary_normalize_not_nan.
Qed.

Lemma SFsub_not_nan (x y : float) :
  is_nan x = false -> is_finite y = true -> is_nan (SFsub prec emax x y) = false.
Proof.
  destruct x as [[]|[]| |sx mx ex], y as [[]|[]| |sy my ey]; simpl; try congruence.
  intros _ _. apply binary_normalize_not_nan.
Qed.

Lemma SFadd_comm (x y : float) : SFadd prec emax x y = SFadd prec emax y x.
Proof.
  destruct x as [[]|[]| |sx mx ex], y as [[]|[]| |sy my ey]; try reflexivity.
  cbn [SFadd]. rewrite (Z.min_comm ey ex), Z.add_comm. reflexivity.
Qed.
End Quotients.

Lemma of_int_nonneg (n : nat) : nonneg (F32.of_int (Z.of_nat n)) = true.
Proof.
  unfold F32.of_int, binary_normalize.
  destruct (Z.of_nat n) as [|p|p] eqn:Hp; [reflexivity | | lia].
  apply binary_round_nonneg.
Qed.

Lemma fsum_nonneg_or_nan (l : list float) :
  Forall (fun x => nonneg_or_nan x = true) l -> nonneg_or_nan (fsum l) = true.
Proof.
  unfold fsum. assert (H0 : nonneg_or_nan F32.zero = true) by reflexivity.
  revert H0. generalize F32.zero.
  induction l as [|x l IH]; intros s Hs Hl; [exact Hs|].
  apply Forall_cons in Hl as [Hx Hl]. simpl.
  apply IH; [|exact Hl]. apply SFadd_nonneg_or_nan; assumption.
Qed.

Lemma fsum_nonneg (l : list float) :
  Forall (fun x => nonneg x = true) l -> nonneg (fsum l) = true.
Proof.
  unfold fsum. assert (H0 : nonneg F32.zero = true) by reflexivity.
  revert H0. generalize F32.zero.
  induction l as [|x l IH]; intros s Hs Hl; [exact Hs|].
  apply Forall_cons in Hl as [Hx Hl]. simpl.
  apply IH; [|exact Hl]. apply SFadd_nonneg; assumption.
Qed.

Lemma fsum_not_nan (l : list float) :
  Forall (fun x => is_finite x = true) l -> is_nan (fsum l) = false.
Proof.
  unfold fsum. assert (H0 : is_nan F32.zero = false) by reflexivity.
  revert H0. generalize F32.zero.
  induction l as [|x l IH]; intros s Hs Hl; [exact Hs|].
  apply Forall_cons in Hl as [Hx Hl]. simpl.
  apply IH; [|exact Hl]. apply SFadd_not_nan; assumption.
Qed.

Lemma sq_euclid_nonneg (p q : row) :
  number_row p -> finite_row q -> nonneg (sq_euclid p q) = true.
Proof.
  intros (Hp1 & Hp2 & Hp3) (Hq1 & Hq2 & Hq3).
  unfold sq_euclid, sqr, F32.add, F32.mul, F32.sub.
  repeat apply SFadd_nonneg; apply SFmul_self_nonneg, SFsub_not_nan; assumption.
Qed.

Lemma finite_number_row (r : row) : finite_row r -> number_row r.
Proof.
  destruct r as [[x y] z]. intros (H1 & H2 & H3). simpl in *.
  repeat split; simpl; [destruct x | destruct y | destruct z]; simpl in *; congruence.
Qed.

Lemma sq_euclid_diag (p : row) : finite_row p -> sq_euclid p p = F32.zero.
Proof.
  destruct p as [[x y] z]. intros (H1 & H2 & H3). simpl in *.
  assert (Hd : forall a, is_finite a = true -> F32.sub a a = F32.zero).
  { intros a Ha. unfold F32.sub.
    destruct a as [[]|[]| |s m e]; simpl in *; try congruence; try reflexivity.
    rewrite Z.sub_diag. reflexivity. }
  unfold sq_euclid. simpl. rewrite !Hd by assumption. reflexivity.
Qed.

Lemma mean_not_nan (l : list float) :
  1 <= length l <= MAX_ATOMS -> Forall (fun x => is_finite x = true) l ->
  is_nan (mean l) = false.
Proof.
  intros Hlen Hl. unfold mean, F32.div.
  apply SFdiv_not_nan; [apply fsum_not_nan, Hl | apply of_int_positive, Hlen].
Qed.

Lemma radius_nonneg_or_nan (cg : row) (atoms : list row) :
  nonneg_or_nan (radius_of_gyration cg atoms) = true.
Proof.
  unfold radius_of_gyration, F32.div.
  apply c_sqrt_nonneg_or_nan, SFdiv_nonneg_or_nan; [|apply of_int_nonneg].
  apply fsum_nonneg_or_nan, Forall_fmap, Forall_forall.
  intros a _. apply sq_euclid_nonneg_or_nan.
Qed.

Lemma radius_nonneg (cg : row) (atoms : list row) :
  1 <= length atoms <= MAX_ATOMS -> number_row cg -> Forall finite_row atoms ->
  nonneg (radius_of_gyration cg atoms) = true.
Proof.
  intros Hlen Hcg Hfin. unfold radius_of_gyration, F32.div.
  apply c_sqrt_nonneg, SFdiv_nonneg; [|apply of_int_positive, Hlen].
  apply fsum_nonneg, Forall_fmap. eapply Forall_impl; [exact Hfin|].
  intros a Ha. apply sq_euclid_nonneg; assumption.
Qed.

Lemma center_of_gravity_number (atoms : list row) :
  1 <= length atoms <= MAX_ATOMS -> Forall finite_row atoms ->
  number_row (center_of_gravity atoms).
Proof.
  intros Hlen Hfin. unfold center_of_gravity, number_row. cbn [fst snd].
  repeat split; apply mean_not_nan; rewrite ?length_fmap; try exact Hlen;
    apply Forall_fmap; (eapply Forall_impl; [exact Hfin|]);
    intros [[x y] z] (H1 & H2 & H3); assumption.
Qed.

(** ** [calDistance] *)

(** Property X11. [calDistance] is symmetric in its two points; its value is
    never negative: it is a number that is not below zero, or NaN, and never
    NaN for finite coordinates; and it is zero from a point with finite
    coordinates to itself. *)
Theorem calDistance_symmetric (xCor1 yCor1 zCor1 xCor2 yCor2 zCor2 : float) :
  calDistance xCor1 yCor1 zCor1 xCor2 yCor2 zCor2 =
    calDistance xCor2 yCor2 zCor2 xCor1 yCor1 zCor1 /\
  nonneg_or_nan (calDistance xCor1 yCor1 zCor1 xCor2 yCor2 zCor2) = true /\
  (finite_row (xCor1, yCor1, zCor1) -> finite_row (xCor2, yCor2, zCor2) ->
     nonneg (calDistance xCor1 yCor1 zCor1 xCor2 yCor2 zCor2) = true) /\
  (finite_row (xCor1, yCor1, zCor1) ->
     calDistance xCor1 yCor1 zCor1 xCor1 yCor1 zCor1 = F32.zero).
Proof.
  split; [|split; [|split]].
  - apply (sq_euclid_comm (xCor1, yCor1, zCor1) (xCor2, yCor2, zCor2)).
  - apply (sq_euclid_nonneg_or_nan (xCor1, yCor1, zCor1) (xCor2, yCor2, zCor2)).
  - intros H1 H2.
    apply (sq_euclid_nonneg (xCor1, yCor1, zCor1) (xCor2, yCor2, zCor2));
      [apply finite_number_row, H1 | exact H2].
  - intros H1. apply (sq_euclid_diag (xCor1, yCor1, zCor1) H1).
Qed.

Lemma calDistance_symmetric_witness :
  calDistance (F32.of_int 3) (F32.of_int 4) F32.zero
              (F32.of_int 3) (F32.of_int 4) F32.zero = F32.zero.
Proof.
  apply (proj2 (proj2 (proj2 (calDistance_symmetric
           (F32.of_int 3) (F32.of_int 4) F32.zero
           (F32.of_int 3) (F32.of_int 4) F32.zero)))).
  repeat split.
Defined.

(** ** The largest distance, whatever the coordinates *)

(** Property X12. Whatever the coordinates of the store, infinite or NaN
    included, the value that [calMaxDistance] prints is neither NaN nor
    negative: it is zero or the distance between two atoms at different
    positions of the store, and no two atoms whose distance is a number are
    further apart. A distance that is NaN never replaces the running
    maximum. *)
Theorem max_distance_any_floats (atomCounter : nat) (fileAtoms : list row) :
  atomCounter <= length fileAtoms ->
  exists d,
    calMaxDistance atomCounter fileAtoms = ([PrintDmax d], Ok tt) /\
    nonneg d = true /\
    pair_max (take atomCounter fileAtoms) d.
Proof.
  intros Hlen. exists (scan (take atomCounter fileAtoms)).
  split; [apply calMaxDistance_eq, Hlen|].
  pose proof (scan_pair_max (take atomCounter fileAtoms)) as H.
  split; [apply H | exact H].
Qed.

Lemma max_distance_any_floats_witness :
  exists d,
    calMaxDistance 3 [(S754_nan, F32.zero, F32.zero);
                      (F32.of_int 1, F32.zero, F32.zero);
                      (S754_infinity false, F32.zero, F32.zero)] =
      ([PrintDmax d], Ok tt) /\
    nonneg d = true /\
    pair_max (take 3 [(S754_nan, F32.zero, F32.zero);
                      (F32.of_int 1, F32.zero, F32.zero);
                      (S754_infinity false, F32.zero, F32.zero)]) d.
Proof.
  apply max_distance_any_floats. simpl. lia.
Defined.

(** ** The sign of the radius of gyration *)

(** Property X13. Whatever the store and the centre it is given, the value
    that [calRotationRadious] prints is never negative: it is NaN or a
    number that is not below zero. *)
Theorem radius_never_negative (atomCounter : nat) (fileAtoms : list row)
    (gravityCenter : row) :
  atomCounter <= length fileAtoms ->
  exists r,
    calRotationRadious atomCounter fileAtoms gravityCenter = ([PrintRg r], Ok tt) /\
    nonneg_or_nan r = true.
Proof.
  intros Hlen. eexists. split; [apply calRotationRadious_eq, Hlen|].
  apply radius_nonneg_or_nan.
Qed.

Lemma radius_never_negative_witness :
  exists r,
    calRotationRadious 2 [(S754_infinity true, F32.zero, F32.zero);
                          (F32.of_int 1, F32.zero, F32.zero)]
      (S754_infinity true, F32.zero, F32.zero) = ([PrintRg r], Ok tt) /\
    nonneg_or_nan r = true.
Proof.
  apply radius_never_negative. simpl. lia.
Defined.

(** ** Statistics of finite coordinates *)

(** Property X14. For a store of 1 to [MAX_ATOMS] atoms whose coordinates
    are all finite, the three functions, called as [main] calls them, print
    no NaN: the coordinates of the centre of gravity are numbers, and the
    radius of gyration and the largest distance are numbers that are not
    below zero (any of them can be infinite, when a sum of [float]
    overflows). *)
Theorem statistics_of_finite_atoms (atomCounter : nat) (fileAtoms : list row) :
  1 <= atomCounter <= MAX_ATOMS ->
  atomCounter <= length fileAtoms ->
  Forall finite_row (take atomCounter fileAtoms) ->
  exists gravityCenter r d,
    calCenterOfGravity atomCounter fileAtoms =
      ([PrintCg gravityCenter.1.1 gravityCenter.1.2 gravityCenter.2], Ok gravityCenter) /\
    calRotationRadious atomCounter fileAtoms gravityCenter = ([PrintRg r], Ok tt) /\
    calMaxDistance atomCounter fileAtoms = ([PrintDmax d], Ok tt) /\
    number_row gravityCenter /\ nonneg r = true /\ nonneg d = true.
Proof.
  intros Hn Hlen Hfin.
  assert (Hl : 1 <= length (take atomCounter fileAtoms) <= MAX_ATOMS)
    by (rewrite length_take, Nat.min_l by lia; exact Hn).
  eexists _, _, _.
  split; [apply calCenterOfGravity_eq, Hlen|].
  split; [apply calRotationRadious_eq, Hlen|].
  split; [apply calMaxDistance_eq, Hlen|].
  pose proof (center_of_gravity_number _ Hl Hfin) as Hcg.
  split; [exact Hcg|]. split.
  - apply radius_nonneg; assumption.
  - apply scan_pair_max.
Qed.

Lemma statistics_of_finite_atoms_witness :
  exists gravityCenter r d,
    calCenterOfGravity 2 [zero_row; (F32.of_int 2, F32.zero, F32.zero)] =
      ([PrintCg gravityCenter.1.1 gravityCenter.1.2 gravityCenter.2], Ok gravityCenter) /\
    calRotationRadious 2 [zero_row; (F32.of_int 2, F32.zero, F32.zero)] gravityCenter =
      ([PrintRg r], Ok tt) /\
    calMaxDistance 2 [zero_row; (F32.of_int 2, F32.zero, F32.zero)] = ([PrintDmax d], Ok tt) /\
    number_row gravityCenter /\ nonneg r = true /\ nonneg d = true.
Proof.
  apply statistics_of_finite_atoms.
  - split; [lia | apply Nat.leb_le; reflexivity].
  - simpl. lia.
  - repeat constructor.
Defined.

(** ** Two atoms *)

(** The sum of two floats, taken from zero as the loops take it, does not
    depend on their order. *)
Lemma fsum_pair_comm (x y : float) : fsum [x; y] = fsum [y; x].
Proof.
  unfold fsum, F32.add, F32.zero. cbn [fold_left].
  destruct x as [[]|[]| |sx mx ex], y as [[]|[]| |sy my ey]; try reflexivity.
  change (SFadd F32.prec F32.emax (S754_zero false) (S754_finite sx mx ex))
    with (S754_finite sx mx ex).
  change (SFadd F32.prec F32.emax (S754_zero false) (S754_finite sy my ey))
    with (S754_finite sy my ey).
  apply SFadd_comm.
Qed.

Lemma center_of_gravity_pair_comm (a b : row) :
  center_of_gravity [a; b] = center_of_gravity [b; a].
Proof.
  unfold center_of_gravity, mean. cbn [fmap list_fmap length].
  rewrite (fsum_pair_comm (row_get 0 a)), (fsum_pair_comm (row_get 1 a)),
    (fsum_pair_comm (row_get 2 a)). reflexivity.
Qed.

Lemma radius_of_gyration_pair_comm (cg a b : row) :
  radius_of_gyration cg [a; b] = radius_of_gyration cg [b; a].
Proof.
  unfold radius_of_gyration. cbn [fmap list_fmap length].
  rewrite fsum_pair_comm. reflexivity.
Qed.

Lemma report_pair_comm (name : string) (a b : row) :
  report name [a; b] = report name [b; a].
Proof.
  unfold report.
  rewrite center_of_gravity_pair_comm, radius_of_gyration_pair_comm,
    (scan_perm [a; b] [b; a]) by apply Permutation_swap.
  reflexivity.
Qed.

(** Property X15. With two atoms in the store, none of the three statistics
    depends on which atom comes first: a sum of two terms is the same in
    both orders. (From three atoms on the centre and the radius can change
    with the order, as the files [first.pdb] and [second.pdb] show.) So when
    a file of two records reaches the statistics, the file that holds the
    two records in the other order prints the same lines. *)
Theorem two_atoms_any_order (a b : row) (rest : list row) :
  calCenterOfGravity 2 (a :: b :: rest) = calCenterOfGravity 2 (b :: a :: rest) /\
  (forall gravityCenter,
     calRotationRadious 2 (a :: b :: rest) gravityCenter =
     calRotationRadious 2 (b :: a :: rest) gravityCenter) /\
  calMaxDistance 2 (a :: b :: rest) = calMaxDistance 2 (b :: a :: rest) /\
  (forall strtof name fp1 fp2 fileLine1 fileLine2 fileAtoms1 fileAtoms2 l1 l2 log,
     length fileAtoms1 = MAX_ATOMS -> length fileAtoms2 = MAX_ATOMS ->
     atom_records fp1 = [l1; l2] -> atom_records fp2 = [l2; l1] ->
     read_error fp2 = false ->
     observe (process_file strtof name fp1 fileLine1 fileAtoms1) = (log, Ok tt) ->
     observe (process_file strtof name fp2 fileLine2 fileAtoms2) = (log, Ok tt)).
Proof.
  assert (Hlen : forall x y, 2 <= length (x :: y :: rest)) by (intros; simpl; lia).
  split; [|split; [|split]].
  - rewrite !calCenterOfGravity_eq by apply Hlen. cbn [take]. rewrite !take_0.
    rewrite center_of_gravity_pair_comm. reflexivity.
  - intros gravityCenter. rewrite !calRotationRadious_eq by apply Hlen.
    cbn [take]. rewrite !take_0.
    rewrite radius_of_gyration_pair_comm. reflexivity.
  - rewrite !calMaxDistance_eq by apply Hlen. cbn [take]. rewrite !take_0.
    rewrite (scan_perm [a; b] [b; a]) by apply Permutation_swap. reflexivity.
  - intros strtof name fp1 fp2 fileLine1 fileLine2 fileAtoms1 fileAtoms2
      l1 l2 log Hlen1 Hlen2 Hrec1 Hrec2 Herr Hrun.
    destruct (process_file strtof name fp1 fileLine1 fileAtoms1) as [log1 [buffers|s| |]]
      eqn:Hrun1; try discriminate Hrun.
    unfold observe in Hrun. cbn [fst snd] in Hrun. inversion Hrun; subst log1.
    pose proof (process_file_Ok_good strtof name fp1 fileLine1 fileAtoms1 log buffers
                  Hlen1 Hrun1) as (_ & Hcount & Hgood).
    assert (Hgood2 : good_file strtof fp2).
    { split; [exact Herr|]. rewrite Hrec1 in Hcount, Hgood. rewrite Hrec2.
      split; [exact Hcount|].
      apply Forall_cons in Hgood as [H1 Hgood]. apply Forall_cons in Hgood as [H2 _].
      repeat (constructor; try assumption). }
    destruct (process_file_good strtof name fp2 fileLine2 fileAtoms2 Hlen2 Hgood2)
      as (buffers' & Heq).
    rewrite Heq. unfold observe. cbn [fst snd]. f_equal.
    destruct (process_file_rows strtof name fp1 fileLine1 fileAtoms1 log buffers Hrun1)
      as (_ & -> & _).
    rewrite Hrec1, Hrec2. cbn [fmap list_fmap]. symmetry. apply report_pair_comm.
Qed.

Lemma two_atoms_any_order_witness :
  observe (process_file strtof_c99 "two.pdb"
             (mk_FILE (record "   2.000" "   0.000" "   0.000" ++
                       record "   0.000" "   0.000" "   0.000") false false)
             (replicate MAX_LINE END_OF_STRING) (replicate MAX_ATOMS zero_row)) =
  ([PrintHeader "two.pdb" 2;
    PrintCg (F32.of_int 1) F32.zero F32.zero;
    PrintRg (F32.of_int 1);
    PrintDmax (F32.of_int 2)], Ok tt).
Proof.
  refine (proj2 (proj2 (proj2 (two_atoms_any_order zero_row zero_row [])))
            strtof_c99 "two.pdb" (mk_FILE two_atoms false false) _
            (replicate MAX_LINE END_OF_STRING) (replicate MAX_LINE END_OF_STRING)
            (replicate MAX_ATOMS zero_row) (replicate MAX_ATOMS zero_row)
            (c_str (record "   0.000" "   0.000" "   0.000"))
            (c_str (record "   2.000" "   0.000" "   0.000"))
            _ (length_replicate _ _) (length_replicate _ _) _ _ _ _).
  - vm_compute. reflexivity.
  - vm_compute. reflexivity.
  - reflexivity.
  - vm_compute. reflexivity.
Defined.

(** ** Division by one *)

Lemma of_int_1 : F32.of_int 1 = S754_finite false 8388608 (-23)%Z.
Proof. reflexivity. Qed.

(** A canonical mantissa is not rounded. *)
Lemma binary_round_aux_canonical (s : bool) (m : positive) (e : Z) :
  bounded F32.prec F32.emax m e = true ->
  binary_round_aux F32.prec F32.emax s (Z.pos m) e loc_Exact = S754_finite s m e.
Proof.
  intros Hb. apply andb_true_iff in Hb as [Hc He].
  apply Z.eqb_eq in Hc. apply Z.leb_le in He.
  assert (Hs : shr_fexp F32.prec F32.emax (Z.pos m) e loc_Exact =
               ({| shr_m := Z.pos m; shr_r := false; shr_s := false |}, e)).
  { unfold shr_fexp, shr. cbn [Zdigits2]. rewrite Hc, Z.sub_diag. reflexivity. }
  unfold binary_round_aux. rewrite Hs. cbn [shr_m loc_of_shr_record round_nearest_even].
  rewrite Hs. cbn [shr_m].
  destruct (Z.leb_spec e (F32.emax - F32.prec)); [reflexivity | lia].
Qed.

(** Twice a mantissa of 24 digits, one exponent below, is the same
    number. *)
Lemma binary_round_aux_double (s : bool) (m : positive) (e : Z) :
  Z.pos (digits2_pos m) = F32.prec -> (-149 <= e <= 104)%Z ->
  binary_round_aux F32.prec F32.emax s (Z.pos m~0) (e - 1) loc_Exact = S754_finite s m e.
Proof.
  intros Hd He.
  assert (Hs : shr_fexp F32.prec F32.emax (Z.pos m~0) (e - 1) loc_Exact =
               ({| shr_m := Z.pos m; shr_r := false; shr_s := false |}, e)).
  { unfold shr_fexp, shr. cbn [Zdigits2 digits2_pos]. rewrite Pos2Z.inj_succ, Hd.
    unfold fexp, emin, F32.prec, F32.emax.
    replace (Z.max (Z.succ 24 + (e - 1) - 24) (3 - 128 - 24) - (e - 1))%Z with 1%Z by lia.
    cbn [SpecFloat.iter_pos shr_1 shr_record_of_loc orb]. f_equal. lia. }
  assert (Hs' : shr_fexp F32.prec F32.emax (Z.pos m) e loc_Exact =
               ({| shr_m := Z.pos m; shr_r := false; shr_s := false |}, e)).
  { unfold shr_fexp, shr. cbn [Zdigits2]. rewrite Hd.
    unfold fexp, emin, F32.prec, F32.emax.
    replace (Z.max (24 + e - 24) (3 - 128 - 24) - e)%Z with 0%Z by lia. reflexivity. }
  unfold binary_round_aux. rewrite Hs. cbn [shr_m loc_of_shr_record round_nearest_even].
  rewrite Hs'. cbn [shr_m].
  unfold F32.emax, F32.prec.
  destruct (Z.leb_spec e (128 - 24)); [reflexivity | lia].
Qed.

Lemma div_eucl_exact (a b q : Z) :
  (0 < b)%Z -> a = (b * q)%Z -> Z.div_eucl a b = (q, 0%Z).
Proof.
  intros Hb Ha. pose proof (Z_div_mod a b ltac:(lia)) as H.
  destruct (Z.div_eucl a b) as [q' r]. destruct H as [H1 H2].
  assert (q' = q) by nia. subst q'. f_equal. lia.
Qed.

(** A number divided by 1 is the number. *)
Lemma F32_div_1 (s : bool) (m : positive) (e : Z) :
  bounded F32.prec F32.emax m e = true ->
  F32.div (S754_finite s m e) (F32.of_int 1) = S754_finite s m e.
Proof.
  intros Hb. pose proof Hb as Hb'.
  apply andb_true_iff in Hb' as [Hc He].
  apply Z.eqb_eq in Hc. apply Z.leb_le in He.
  unfold fexp, emin in Hc. unfold F32.prec, F32.emax in Hc, He.
  rewrite of_int_1. unfold F32.div. cbn [SFdiv]. rewrite xorb_false_r.
  unfold SFdiv_core_binary. cbn [Zdigits2].
  change (Z.pos (digits2_pos 8388608)) with 24%Z.
  set (d := Z.pos (digits2_pos m)) in *.
  assert (Hd : (0 < d)%Z) by (subst d; lia).
  destruct (Z.eq_dec e (-149)%Z) as [He149 | He149].
  - (* a number with the least exponent *)
    assert (He' : (Z.min (fexp F32.prec F32.emax (d + e - (24 + -23))) (e - -23))%Z = e%Z)
      by (unfold fexp, emin, F32.prec, F32.emax; lia).
    rewrite He'. replace (e - -23 - e)%Z with 23%Z by lia.
    rewrite (div_eucl_exact _ _ (Z.pos m)); [| lia | rewrite Z.shiftl_mul_pow2 by lia; lia].
    change (new_location 8388608 0) with loc_Exact.
    apply binary_round_aux_canonical, Hb.
  - (* a normal number *)
    assert (Hd24 : d = 24%Z) by lia.
    assert (He' : (Z.min (fexp F32.prec F32.emax (d + e - (24 + -23))) (e - -23))%Z = (e - 1)%Z)
      by (unfold fexp, emin, F32.prec, F32.emax; lia).
    rewrite He'. replace (e - -23 - (e - 1))%Z with 24%Z by lia.
    rewrite (div_eucl_exact _ _ (Z.pos m~0));
      [| lia | rewrite Z.shiftl_mul_pow2 by lia; lia].
    change (new_location 8388608 0) with loc_Exact.
    apply binary_round_aux_double; [exact Hd24 | lia].
Qed.

Lemma mean_single (x : float) : plain_float x = true -> mean [x] = x.
Proof.
  unfold mean, fsum. cbn [fold_left length].
  destruct x as [[]|[]| |s m e]; simpl; try discriminate; intros Hx; [reflexivity|].
  apply F32_div_1, Hx.
Qed.

Lemma plain_finite_row (r : row) : plain_row r -> finite_row r.
Proof.
  destruct r as [[x y] z]. intros (H1 & H2 & H3). simpl in *.
  repeat split; simpl; [destruct x | destruct y | destruct z]; simpl in *; congruence.
Qed.

Lemma center_of_gravity_single (a : row) : plain_row a -> center_of_gravity [a] = a.
Proof.
  intros (H1 & H2 & H3). unfold center_of_gravity. cbn [fmap list_fmap row_get].
  rewrite !mean_single by assumption. destruct a as [[x y] z]. reflexivity.
Qed.

Lemma radius_of_gyration_single (a : row) :
  plain_row a -> radius_of_gyration a [a] = F32.zero.
Proof.
  intros Ha. unfold radius_of_gyration. cbn [fmap list_fmap length].
  rewrite sq_euclid_diag by apply plain_finite_row, Ha. reflexivity.
Qed.

Lemma report_single (name : string) (a : row) :
  plain_row a ->
  report name [a] =
    [PrintHeader name 1; PrintCg a.1.1 a.1.2 a.2; PrintRg F32.zero; PrintDmax F32.zero].
Proof.
  intros Ha. unfold report.
  rewrite center_of_gravity_single, radius_of_gyration_single by exact Ha. reflexivity.
Qed.

(** ** A single atom *)

(** Property X16. With one atom in the store, whose coordinates are finite
    numbers other than the negative zero, the centre of gravity is the atom
    itself, exactly (the sum has one term and the division is by 1), and the
    radius of gyration and the largest distance are zero. A file with one
    record prints these values. *)
Theorem single_atom (a : row) (rest : list row) :
  plain_row a ->
  calCenterOfGravity 1 (a :: rest) = ([PrintCg a.1.1 a.1.2 a.2], Ok a) /\
  calRotationRadious 1 (a :: rest) a = ([PrintRg F32.zero], Ok tt) /\
  calMaxDistance 1 (a :: rest) = ([PrintDmax F32.zero], Ok tt) /\
  (forall strtof name fp fileLine fileAtoms line,
     length fileAtoms = MAX_ATOMS ->
     read_error fp = false ->
     atom_records fp = [line] ->
     good_record strtof line ->
     row_of strtof line = a ->
     observe (process_file strtof name fp fileLine fileAtoms) =
       ([PrintHeader name 1; PrintCg a.1.1 a.1.2 a.2; PrintRg F32.zero;
         PrintDmax F32.zero], Ok tt)).
Proof.
  intros Ha.
  assert (Hlen : 1 <= length (a :: rest)) by (simpl; lia).
  split; [|split; [|split]].
  - rewrite calCenterOfGravity_eq by exact Hlen. cbn [take]. rewrite take_0.
    rewrite center_of_gravity_single by exact Ha. reflexivity.
  - rewrite calRotationRadious_eq by exact Hlen. cbn [take]. rewrite take_0.
    rewrite radius_of_gyration_single by exact Ha. reflexivity.
  - rewrite calMaxDistance_eq by exact Hlen. reflexivity.
  - intros strtof name fp fileLine fileAtoms line Hl Herr Hrec Hgood Hrow.
    assert (Hgf : good_file strtof fp).
    { split; [exact Herr|]. rewrite Hrec. split; [|repeat (constructor; try exact Hgood)].
      split; [simpl; lia | apply Nat.leb_le; reflexivity]. }
    destruct (process_file_good strtof name fp fileLine fileAtoms Hl Hgf) as (buffers & Heq).
    rewrite Heq, Hrec. cbn [fmap list_fmap]. rewrite Hrow, (report_single name a Ha).
    reflexivity.
Qed.

Lemma single_atom_witness :
  observe (process_file strtof_c99 "one.pdb"
             (mk_FILE (record "  -1.500" "   2.000" "   0.000") false false)
             (replicate MAX_LINE END_OF_STRING) (replicate MAX_ATOMS zero_row)) =
  ([PrintHeader "one.pdb" 1;
    PrintCg (S754_finite true 12582912 (-23)) (F32.of_int 2) F32.zero;
    PrintRg F32.zero; PrintDmax F32.zero], Ok tt).
Proof.
  refine (proj2 (proj2 (proj2 (single_atom
            (S754_finite true 12582912 (-23), F32.of_int 2, F32.zero) [] _)))
            strtof_c99 "one.pdb" _ _ _ (c_str (record "  -1.500" "   2.000" "   0.000"))
            (length_replicate _ _) _ _ _ _).
  - repeat split.
  - reflexivity.
  - vm_compute. reflexivity.
  - split; [apply Nat.ltb_lt; vm_compute; reflexivity|]. eexists. vm_compute. reflexivity.
  - vm_compute. reflexivity.
Defined.
